(** * Credential vault: a shallow embedding of [codline.py] and [Visual/codline.py]

    The repository holds two variants of one password manager: the
    dictionary based command line tool [src/codline.py] (module [Cli] below)
    and the dataclass based tool [src/Visual/codline.py] (module [Visual]).
    Their cryptographic helpers are textually the same and are embedded once,
    in module [Crypto].  Module [Py] models the parts of the Python runtime
    the two files call: exceptions, [str.encode]/[bytes.decode], [str.strip],
    [hashlib.sha256], [base64] and [json]. *)

From Stdlib Require Import ZArith Lia Ascii String DecimalString.
From stdpp Require Import base gmap list strings.

Open Scope Z_scope.

(** ** The Python runtime *)

Module Py.

(** Exceptions raised by the library calls of the two files. *)
Inductive exn :=
| UnicodeEncodeError
| UnicodeDecodeError
| BinasciiError
| JSONDecodeError
| ValueError
| TypeError
| KeyError
| IndexError
| AttributeError
| OSError
| EOFError.

#[global] Instance exn_eq_dec : EqDecision exn.
Proof. solve_decision. Defined.

(** A computation either returns or raises. *)
Inductive result (A : Type) :=
| Ok (a : A)
| Raise (e : exn).
Arguments Ok {A} a.
Arguments Raise {A} e.

Definition bind {A B} (m : result A) (k : A -> result B) : result B :=
  match m with
  | Ok a => k a
  | Raise e => Raise e
  end.

Notation "x <- m ;; k" := (bind m (fun x => k))
  (at level 100, m at next level, right associativity).

Definition rmap {A B} (f : A -> B) (m : result A) : result B :=
  a <- m ;; Ok (f a).

(** A Python [str] is a sequence of code points, a [bytes] a sequence of
    integers below 256. *)
Definition str := list Z.
Definition bytes := list Z.

Definition is_byte (b : Z) : Prop := 0 <= b < 256.

(** The code points [str.encode("utf-8")] accepts: every Unicode scalar
    value, that is everything up to U+10FFFF but the surrogates. *)
Definition scalarb (c : Z) : bool :=
  (0 <=? c) && (c <? 0x110000) && negb ((0xD800 <=? c) && (c <? 0xE000)).

Definition encodable (s : str) : Prop := Forall (fun c => scalarb c = true) s.

(** [c.encode("utf-8")] for one code point. *)
Definition utf8_encode_char (c : Z) : result bytes :=
  if negb (scalarb c) then Raise UnicodeEncodeError
  else if c <? 0x80 then Ok [c]
  else if c <? 0x800 then Ok [0xC0 + c / 64; 0x80 + c mod 64]
  else if c <? 0x10000 then
    Ok [0xE0 + c / 4096; 0x80 + (c / 64) mod 64; 0x80 + c mod 64]
  else
    Ok [0xF0 + c / 262144; 0x80 + (c / 4096) mod 64;
        0x80 + (c / 64) mod 64; 0x80 + c mod 64].

(** [s.encode("utf-8")] *)
Fixpoint utf8_encode (s : str) : result bytes :=
  match s with
  | [] => Ok []
  | c :: s' =>
      bs <- utf8_encode_char c ;;
      r <- utf8_encode s' ;;
      Ok (bs ++ r)
  end.

Definition is_cont (b : Z) : bool := (0x80 <=? b) && (b <? 0xC0).

(** [bs.decode("utf-8")], strict: truncated sequences, stray continuation
    bytes, overlong forms, surrogates and code points above U+10FFFF all
    raise [UnicodeDecodeError]. *)
Fixpoint utf8_decode (bs : bytes) : result str :=
  match bs with
  | [] => Ok []
  | b0 :: r0 =>
      if b0 <? 0x80 then rmap (cons b0) (utf8_decode r0)
      else if b0 <? 0xC0 then Raise UnicodeDecodeError
      else if b0 <? 0xE0 then
        match r0 with
        | b1 :: r1 =>
            let c := (b0 - 0xC0) * 64 + (b1 - 0x80) in
            if is_cont b1 && (0x80 <=? c)
            then rmap (cons c) (utf8_decode r1)
            else Raise UnicodeDecodeError
        | _ => Raise UnicodeDecodeError
        end
      else if b0 <? 0xF0 then
        match r0 with
        | b1 :: b2 :: r2 =>
            let c := (b0 - 0xE0) * 4096 + (b1 - 0x80) * 64 + (b2 - 0x80) in
            if is_cont b1 && is_cont b2 && (0x800 <=? c)
               && negb ((0xD800 <=? c) && (c <? 0xE000))
            then rmap (cons c) (utf8_decode r2)
            else Raise UnicodeDecodeError
        | _ => Raise UnicodeDecodeError
        end
      else if b0 <? 0xF8 then
        match r0 with
        | b1 :: b2 :: b3 :: r3 =>
            let c := (b0 - 0xF0) * 262144 + (b1 - 0x80) * 4096
                     + (b2 - 0x80) * 64 + (b3 - 0x80) in
            if is_cont b1 && is_cont b2 && is_cont b3
               && (0x10000 <=? c) && (c <? 0x110000)
            then rmap (cons c) (utf8_decode r3)
            else Raise UnicodeDecodeError
        | _ => Raise UnicodeDecodeError
        end
      else Raise UnicodeDecodeError
  end.

(** The bytes of a Rocq string literal.  For a literal of ASCII characters
    they are also its code points, and [bytes_of_string] gives the [str];
    any other literal is read as the UTF-8 text it is, by [py]. *)
Definition bytes_of_string (s : string) : bytes :=
  map (fun a => Z.of_nat (nat_of_ascii a)) (String.list_ascii_of_string s).

Definition py (s : string) : str :=
  match utf8_decode (bytes_of_string s) with
  | Ok t => t
  | Raise _ => []
  end.

(** *** hashlib.sha256 (FIPS 180-4) on 32-bit words *)

Definition mask32 : Z := 0xFFFFFFFF.
Definition add32 (a b : Z) : Z := Z.land (a + b) mask32.
Definition rotr (n x : Z) : Z :=
  Z.lor (Z.shiftr x n) (Z.land (Z.shiftl x (32 - n)) mask32).
Definition not32 (x : Z) : Z := Z.lxor x mask32.

Definition Ch (x y z : Z) : Z := Z.lxor (Z.land x y) (Z.land (not32 x) z).
Definition Maj (x y z : Z) : Z :=
  Z.lxor (Z.lxor (Z.land x y) (Z.land x z)) (Z.land y z).
Definition Sigma0 (x : Z) : Z := Z.lxor (Z.lxor (rotr 2 x) (rotr 13 x)) (rotr 22 x).
Definition Sigma1 (x : Z) : Z := Z.lxor (Z.lxor (rotr 6 x) (rotr 11 x)) (rotr 25 x).
Definition sigma0 (x : Z) : Z := Z.lxor (Z.lxor (rotr 7 x) (rotr 18 x)) (Z.shiftr x 3).
Definition sigma1 (x : Z) : Z := Z.lxor (Z.lxor (rotr 17 x) (rotr 19 x)) (Z.shiftr x 10).

(** The first sixty-four primes. *)
Definition primes64 : list Z :=
  [2; 3; 5; 7; 11; 13; 17; 19; 23; 29; 31; 37; 41; 43; 47; 53; 59; 61; 67; 71;
   73; 79; 83; 89; 97; 101; 103; 107; 109; 113; 127; 131; 137; 139; 149; 151;
   157; 163; 167; 173; 179; 181; 191; 193; 197; 199; 211; 223; 227; 229; 233;
   239; 241; 251; 257; 263; 269; 271; 277; 281; 283; 293; 307; 311].

(** The integer cube root of [x] below [2 ^ n], one bit at a time. *)
Fixpoint cube_root (n : nat) (x acc : Z) : Z :=
  match n with
  | O => acc
  | S n' =>
      let candidate := acc + 2 ^ Z.of_nat n' in
      if candidate * candidate * candidate <=? x then cube_root n' x candidate
      else cube_root n' x acc
  end.

(** The round constants: the first thirty-two bits of the fractional parts
    of the cube roots of the primes. *)
Definition K256 : list Z :=
  Eval vm_compute in
    map (fun p => Z.land (cube_root 40 (p * 2 ^ 96) 0) mask32) primes64.

(** The eight working variables, also the chaining value. *)
Record sha_state := ShaState {
  sa : Z; sb : Z; sc : Z; sd : Z; se : Z; sf : Z; sg : Z; sh : Z }.

(** The initial hash value: the first thirty-two bits of the fractional
    parts of the square roots of the first eight primes. *)
Definition root_bits (p : Z) : Z := Z.land (Z.sqrt (p * 2 ^ 64)) mask32.

Definition sha_init : sha_state :=
  Eval vm_compute in
    ShaState (root_bits 2) (root_bits 3) (root_bits 5) (root_bits 7)
             (root_bits 11) (root_bits 13) (root_bits 17) (root_bits 19).

(** Big-endian words of a block. *)
Fixpoint words_of_bytes (bs : bytes) : list Z :=
  match bs with
  | b0 :: b1 :: b2 :: b3 :: r =>
      (b0 * 16777216 + b1 * 65536 + b2 * 256 + b3) :: words_of_bytes r
  | _ => []
  end.

Definition bytes_of_word (w : Z) : bytes :=
  [(w / 16777216) mod 256; (w / 65536) mod 256; (w / 256) mod 256; w mod 256].

(** The message schedule, most recent word first: [rev] holds
    [W(t-1); W(t-2); ...]. *)
Fixpoint schedule (n : nat) (rev : list Z) : list Z :=
  match n with
  | O => rev
  | S n' =>
      let w := add32 (add32 (sigma1 (nth 1 rev 0)) (nth 6 rev 0))
                     (add32 (sigma0 (nth 14 rev 0)) (nth 15 rev 0)) in
      schedule n' (w :: rev)
  end.

Definition sha_round (s : sha_state) (kw : Z * Z) : sha_state :=
  let t1 := add32 (add32 (add32 (sh s) (Sigma1 (se s))) (Ch (se s) (sf s) (sg s)))
                  (add32 (fst kw) (snd kw)) in
  let t2 := add32 (Sigma0 (sa s)) (Maj (sa s) (sb s) (sc s)) in
  ShaState (add32 t1 t2) (sa s) (sb s) (sc s) (add32 (sd s) t1) (se s) (sf s) (sg s).

Definition sha_block (s : sha_state) (block : bytes) : sha_state :=
  let w := List.rev (schedule 48 (List.rev (words_of_bytes block))) in
  let r := fold_left sha_round (combine K256 w) s in
  ShaState (add32 (sa s) (sa r)) (add32 (sb s) (sb r)) (add32 (sc s) (sc r))
           (add32 (sd s) (sd r)) (add32 (se s) (se r)) (add32 (sf s) (sf r))
           (add32 (sg s) (sg r)) (add32 (sh s) (sh r)).

Fixpoint sha_blocks (n : nat) (s : sha_state) (bs : bytes) : sha_state :=
  match n with
  | O => s
  | S n' => sha_blocks n' (sha_block s (firstn 64 bs)) (skipn 64 bs)
  end.

Definition sha_pad (m : bytes) : bytes :=
  let len := Z.of_nat (length m) in
  let zeros := Z.to_nat ((55 - len) mod 64) in
  let bits := len * 8 in
  m ++ [0x80] ++ repeat 0 zeros
    ++ bytes_of_word (bits / 4294967296) ++ bytes_of_word (bits mod 4294967296).

(** [sha256(m).digest()] *)
Definition sha256 (m : bytes) : bytes :=
  let p := sha_pad m in
  let s := sha_blocks (length p / 64)%nat sha_init p in
  bytes_of_word (sa s) ++ bytes_of_word (sb s) ++ bytes_of_word (sc s)
    ++ bytes_of_word (sd s) ++ bytes_of_word (se s) ++ bytes_of_word (sf s)
    ++ bytes_of_word (sg s) ++ bytes_of_word (sh s).

Definition hex_digit (n : Z) : Z := if n <? 10 then 48 + n else 87 + n.

(** [sha256(m).hexdigest()] *)
Definition hexdigest (d : bytes) : str :=
  flat_map (fun b => [hex_digit (b / 16); hex_digit (b mod 16)]) d.

(** *** base64 *)

Definition PAD : Z := 61.

(** The standard alphabet [A-Za-z0-9+/] as a table from sextets to characters
    and back; [None] is a character outside the alphabet. *)
Definition table_b2a_base64 (n : Z) : Z :=
  if n <? 26 then 65 + n
  else if n <? 52 then 71 + n
  else if n <? 62 then n - 4
  else if n =? 62 then 43
  else 47.

Definition table_a2b_base64 (c : Z) : option Z :=
  if (65 <=? c) && (c <=? 90) then Some (c - 65)
  else if (97 <=? c) && (c <=? 122) then Some (c - 71)
  else if (48 <=? c) && (c <=? 57) then Some (c + 4)
  else if c =? 43 then Some 62
  else if c =? 47 then Some 63
  else None.

(** [binascii.b2a_base64(bs, newline=False)] *)
Fixpoint b2a_base64 (bs : bytes) : bytes :=
  match bs with
  | [] => []
  | [b0] =>
      [table_b2a_base64 (b0 / 4); table_b2a_base64 (b0 mod 4 * 16); PAD; PAD]
  | [b0; b1] =>
      [table_b2a_base64 (b0 / 4);
       table_b2a_base64 (b0 mod 4 * 16 + b1 / 16);
       table_b2a_base64 (b1 mod 16 * 4); PAD]
  | b0 :: b1 :: b2 :: r =>
      table_b2a_base64 (b0 / 4)
      :: table_b2a_base64 (b0 mod 4 * 16 + b1 / 16)
      :: table_b2a_base64 (b1 mod 16 * 4 + b2 / 64)
      :: table_b2a_base64 (b2 mod 64)
      :: b2a_base64 r
  end.

(** [binascii.a2b_base64(s)] in its default, non-strict mode (CPython 3.11
    and later): characters outside the alphabet are skipped, a pad that
    completes a quad ends the input, and input that stops inside a quad
    raises [binascii.Error].  [quad_pos], [leftchar] and [pads] are the
    loop's variables. *)
Fixpoint a2b_loop (s : bytes) (quad_pos : nat) (leftchar pads : Z) : result bytes :=
  match s with
  | [] =>
      match quad_pos with
      | O => Ok []
      | _ => Raise BinasciiError
      end
  | c :: s' =>
      if c =? PAD then
        if (2 <=? quad_pos)%nat then
          if 4 <=? Z.of_nat quad_pos + (pads + 1) then Ok []
          else a2b_loop s' quad_pos leftchar (pads + 1)
        else a2b_loop s' quad_pos leftchar pads
      else
        match table_a2b_base64 c with
        | None => a2b_loop s' quad_pos leftchar pads
        | Some v =>
            match quad_pos with
            | 0%nat => a2b_loop s' 1 v 0
            | 1%nat => rmap (cons (leftchar * 4 + v / 16)) (a2b_loop s' 2 (v mod 16) 0)
            | 2%nat => rmap (cons (leftchar * 16 + v / 4)) (a2b_loop s' 3 (v mod 4) 0)
            | _ => rmap (cons (leftchar * 64 + v)) (a2b_loop s' 0 0 0)
            end
        end
  end.

Definition a2b_base64 (s : bytes) : result bytes := a2b_loop s 0 0 0.

(** [bytes.translate] with [bytes.maketrans(b"+/", b"-_")] and back. *)
Definition urlsafe_encode_translation (c : Z) : Z :=
  if c =? 43 then 45 else if c =? 47 then 95 else c.
Definition urlsafe_decode_translation (c : Z) : Z :=
  if c =? 45 then 43 else if c =? 95 then 47 else c.

(** [base64.urlsafe_b64encode] and [base64.urlsafe_b64decode] *)
Definition urlsafe_b64encode (bs : bytes) : bytes :=
  map urlsafe_encode_translation (b2a_base64 bs).
Definition urlsafe_b64decode (s : bytes) : result bytes :=
  a2b_base64 (map urlsafe_decode_translation s).

(** *** str methods *)

(** [str.isspace] for one character: the white space [str.strip()] removes. *)
Definition isspace (c : Z) : bool :=
  ((9 <=? c) && (c <=? 13)) || ((28 <=? c) && (c <=? 32))
  || (c =? 0x85) || (c =? 0xA0) || (c =? 0x1680)
  || ((0x2000 <=? c) && (c <=? 0x200A))
  || (c =? 0x2028) || (c =? 0x2029) || (c =? 0x202F) || (c =? 0x205F)
  || (c =? 0x3000).

Fixpoint lstrip (s : str) : str :=
  match s with
  | [] => []
  | c :: r => if isspace c then lstrip r else s
  end.

Definition rstrip (s : str) : str := List.rev (lstrip (List.rev s)).

(** [s.strip()] *)
Definition strip (s : str) : str := rstrip (lstrip s).

Definition str_eqb (a b : str) : bool := bool_decide (a = b).

(** [s.startswith(p)], returning what follows the prefix. *)
Fixpoint strip_prefix (p s : str) : option str :=
  match p, s with
  | [], _ => Some s
  | a :: p', b :: s' => if a =? b then strip_prefix p' s' else None
  | _ :: _, [] => None
  end.

(** [s.replace(old, new)] for a non-empty [old]: every occurrence, left to
    right, without overlap.  [fuel] bounds the characters skipped inside a
    match and is the length of [s]. *)
Fixpoint replace_from (fuel : nat) (old new s : str) : str :=
  match fuel with
  | O => s
  | S f =>
      match s with
      | [] => []
      | c :: r =>
          match strip_prefix old s with
          | Some rest => new ++ replace_from f old new rest
          | None => c :: replace_from f old new r
          end
      end
  end.

Definition replace (s old new : str) : str := replace_from (length s) old new s.

(** [s.split(sep, 1)] for a one character [sep]: one or two pieces. *)
Fixpoint split1 (sep : Z) (s : str) : list str :=
  match s with
  | [] => [[]]
  | c :: r =>
      if c =? sep then [[]; r]
      else match split1 sep r with
           | h :: t => (c :: h) :: t
           | [] => [[c]]
           end
  end.

Definition is_digit (c : Z) : bool := (48 <=? c) && (c <=? 57).

(** The zeros of the runs of ten decimal digits (category Nd) of Unicode
    14.0, the version CPython 3.11 carries: ASCII, Arabic-Indic, ...,
    fullwidth, mathematical and the others. *)
Definition decimal_zeros : list Z :=
  [0x30; 0x660; 0x6F0; 0x7C0; 0x966; 0x9E6; 0xA66; 0xAE6; 0xB66; 0xBE6; 0xC66;
   0xCE6; 0xD66; 0xDE6; 0xE50; 0xED0; 0xF20; 0x1040; 0x1090; 0x17E0; 0x1810;
   0x1946; 0x19D0; 0x1A80; 0x1A90; 0x1B50; 0x1BB0; 0x1C40; 0x1C50; 0xA620;
   0xA8D0; 0xA900; 0xA9D0; 0xA9F0; 0xAA50; 0xABF0; 0xFF10; 0x104A0; 0x10D30;
   0x11066; 0x110F0; 0x11136; 0x111D0; 0x112F0; 0x11450; 0x114D0; 0x11650;
   0x116C0; 0x11730; 0x118E0; 0x11950; 0x11C50; 0x11D50; 0x11DA0; 0x16A60;
   0x16AC0; 0x16B50; 0x1D7CE; 0x1D7D8; 0x1D7E2; 0x1D7EC; 0x1D7F6; 0x1E140;
   0x1E2F0; 0x1E950; 0x1FBF0].

(** [Py_UNICODE_TODECIMAL]: the value of a decimal digit. *)
Definition to_decimal (c : Z) : option Z :=
  match List.find (fun zero => (zero <=? c) && (c <? zero + 10)) decimal_zeros with
  | Some zero => Some (c - zero)
  | None => None
  end.

(** The characters that are digits without being decimal digits
    (superscripts, subscripts, circled digits and the like), as ranges. *)
Definition other_digits : list (Z * Z) :=
  [(0xB2, 0xB3); (0xB9, 0xB9); (0x1369, 0x1371); (0x19DA, 0x19DA);
   (0x2070, 0x2070); (0x2074, 0x2079); (0x2080, 0x2089); (0x2460, 0x2468);
   (0x2474, 0x247C); (0x2488, 0x2490); (0x24EA, 0x24EA); (0x24F5, 0x24FD);
   (0x24FF, 0x24FF); (0x2776, 0x277E); (0x2780, 0x2788); (0x278A, 0x2792);
   (0x10A40, 0x10A43); (0x10E60, 0x10E68); (0x11052, 0x1105A);
   (0x1F100, 0x1F10A)].

(** [Py_UNICODE_ISDIGIT] *)
Definition is_digit_char (c : Z) : bool :=
  match to_decimal c with
  | Some _ => true
  | None => existsb (fun range => (fst range <=? c) && (c <=? snd range)) other_digits
  end.

(** [s.isdigit()] *)
Definition isdigit (s : str) : bool :=
  match s with
  | [] => false
  | _ => forallb is_digit_char s
  end.

Definition digits_value (ds : str) : Z :=
  fold_left (fun acc d => acc * 10 + (d - 48)) ds 0.

(** C's [isspace]: the white space [int] skips around a numeral. *)
Definition c_isspace (c : Z) : bool := (c =? 32) || ((9 <=? c) && (c <=? 13)).

Fixpoint lstrip_c (s : str) : str :=
  match s with
  | [] => []
  | c :: r => if c_isspace c then lstrip_c r else s
  end.

(** What [int] reads in place of a text that is not all ASCII: white space
    has become a space and a decimal digit its ASCII digit; the text ends in
    [?] at the first other character from 127 on. *)
Fixpoint to_ascii_numeral (s : str) : str :=
  match s with
  | [] => []
  | c :: r =>
      if c <? 127 then c :: to_ascii_numeral r
      else if isspace c then 32 :: to_ascii_numeral r
      else match to_decimal c with
           | Some d => (48 + d) :: to_ascii_numeral r
           | None => [63]
           end
  end.

(** The digits at the head of a numeral and what follows them; one [_] may
    stand between two digits, and [None] is an underscore out of place.
    [after_underscore] says that the character before was one. *)
Fixpoint scan_digits (after_underscore : bool) (s : str) : option (str * str) :=
  match s with
  | [] => if after_underscore then None else Some ([], [])
  | c :: r =>
      if is_digit c then
        match scan_digits false r with
        | Some (ds, rest) => Some (c :: ds, rest)
        | None => None
        end
      else if c =? 95 then
        if after_underscore then None else scan_digits true r
      else if after_underscore then None else Some ([], s)
  end.

(** [sys.get_int_max_str_digits()], by default. *)
Definition INT_MAX_STR_DIGITS : nat := 4300.

(** [int(s)]: white space, an optional sign, decimal digits with single
    underscores between them, white space; of at most 4300 digits.
    Anything else is a [ValueError]. *)
Definition int_of_str (s : str) : result Z :=
  let text := if forallb (fun c => c <? 128) s then s else to_ascii_numeral s in
  let text := lstrip_c text in
  let '(negative, text) :=
    match text with
    | 45 :: r => (true, r)
    | 43 :: r => (false, r)
    | _ => (false, text)
    end in
  match text with
  | 95 :: _ => Raise ValueError
  | _ =>
      match scan_digits false text with
      | Some (d :: ds, rest) =>
          if forallb c_isspace rest && (length (d :: ds) <=? INT_MAX_STR_DIGITS)%nat
          then Ok (if negative then - digits_value (d :: ds) else digits_value (d :: ds))
          else Raise ValueError
      | _ => Raise ValueError
      end
  end.

(** [str(n)] for an integer. *)
Definition str_of_int (n : Z) : str :=
  bytes_of_string (NilZero.string_of_int (Z.to_int n)).

(** [s.ljust(width)]: [s], then spaces up to [width] characters; a longer
    [s] is returned as it is. *)
Definition ljust (s : str) (width : nat) : str := s ++ repeat 32 (width - length s).

(** [s * n] *)
Definition str_mul (s : str) (n : nat) : str := concat (repeat s n).

(** [a < b] on strings: code point by code point, the first difference
    decides, and a proper prefix is the smaller. *)
Fixpoint str_ltb (a b : str) : bool :=
  match a, b with
  | _, [] => false
  | [], _ :: _ => true
  | x :: a', y :: b' =>
      if x <? y then true else if y <? x then false else str_ltb a' b'
  end.

(** [needle in hay] *)
Fixpoint is_infix (needle hay : str) : bool :=
  match strip_prefix needle hay with
  | Some _ => true
  | None =>
      match hay with
      | [] => false
      | _ :: r => is_infix needle r
      end
  end.

(** [sorted(items, key=key)] for keys that are strings.  The sort is
    stable: an item goes before the first item whose key is greater than its
    own, so after the items placed earlier whose keys are equal. *)
Fixpoint insert_by {A} (key : A -> str) (x : A) (l : list A) : list A :=
  match l with
  | [] => [x]
  | y :: r => if str_ltb (key x) (key y) then x :: l else y :: insert_by key x r
  end.

Definition sorted_by {A} (key : A -> str) (items : list A) : list A :=
  fold_left (fun acc x => insert_by key x acc) items [].

(** [l[i]] for a list: a negative index counts from the end. *)
Definition index {A} (l : list A) (i : Z) : result A :=
  let n := Z.of_nat (length l) in
  let j := if i <? 0 then n + i else i in
  if (0 <=? j) && (j <? n) then
    match l !! Z.to_nat j with
    | Some x => Ok x
    | None => Raise IndexError
    end
  else Raise IndexError.

(** [dict.fromkeys(items)] as a list of keys: every item once, where it
    stands first. *)
Fixpoint fromkeys_from {A} `{EqDecision A} (seen items : list A) : list A :=
  match items with
  | [] => []
  | x :: r =>
      if bool_decide (x ∈ seen) then fromkeys_from seen r
      else x :: fromkeys_from (x :: seen) r
  end.

Definition fromkeys {A} `{EqDecision A} (items : list A) : list A :=
  fromkeys_from [] items.

(** *** json *)

(** The values [json.load] builds.  A dict keeps its insertion order; a
    float is kept as the text it was read from. *)
#[warnings="-register-all"]
Inductive json :=
| JNull
| JBool (b : bool)
| JInt (n : Z)
| JFloat (lexeme : str)
| JStr (s : str)
| JList (l : list json)
| JDict (d : list (str * json)).

(** [isinstance(v, list)] and [isinstance(v, dict)] *)
Definition is_list (v : json) : bool :=
  match v with JList _ => true | _ => false end.
Definition is_dict (v : json) : bool :=
  match v with JDict _ => true | _ => false end.

(** [d.get(k)] on the pairs of a dict. *)
Fixpoint dict_get (d : list (str * json)) (k : str) : option json :=
  match d with
  | [] => None
  | (k', v) :: r => if str_eqb k' k then Some v else dict_get r k
  end.

(** [d[k] = v]: an existing key keeps its place. *)
Fixpoint dict_set (d : list (str * json)) (k : str) (v : json) : list (str * json) :=
  match d with
  | [] => [(k, v)]
  | (k', v') :: r =>
      if str_eqb k' k then (k, v) :: r else (k', v') :: dict_set r k v
  end.

(** [dict(pairs)] *)
Definition dict_of_pairs (pairs : list (str * json)) : list (str * json) :=
  fold_left (fun d kv => dict_set d (fst kv) (snd kv)) pairs [].

Definition is_ws (c : Z) : bool :=
  (c =? 32) || (c =? 9) || (c =? 10) || (c =? 13).

Fixpoint skip_ws (s : str) : str :=
  match s with
  | [] => []
  | c :: r => if is_ws c then skip_ws r else s
  end.

Definition hex_value (c : Z) : option Z :=
  if (48 <=? c) && (c <=? 57) then Some (c - 48)
  else if (97 <=? c) && (c <=? 102) then Some (c - 87)
  else if (65 <=? c) && (c <=? 70) then Some (c - 55)
  else None.

Definition hex4 (a b c d : Z) : option Z :=
  match hex_value a, hex_value b, hex_value c, hex_value d with
  | Some x, Some y, Some z, Some w => Some (x * 4096 + y * 256 + z * 16 + w)
  | _, _, _, _ => None
  end.

Definition simple_escape (e : Z) : option Z :=
  if e =? 34 then Some 34 else if e =? 92 then Some 92
  else if e =? 47 then Some 47 else if e =? 98 then Some 8
  else if e =? 102 then Some 12 else if e =? 110 then Some 10
  else if e =? 114 then Some 13 else if e =? 116 then Some 9
  else None.

Definition cons_fst {A B} (a : A) (r : option (list A * B)) : option (list A * B) :=
  match r with
  | Some (l, b) => Some (a :: l, b)
  | None => None
  end.

(** [scanstring], strict, from the character after the opening quote:
    the text of the string and what follows its closing quote. *)
Fixpoint scanstring (s : str) : option (str * str) :=
  match s with
  | [] => None
  | c :: r =>
      if c =? 34 then Some ([], r)
      else if c <? 32 then None
      else if c =? 92 then
        match r with
        | [] => None
        | e :: r1 =>
            if e =? 117 then
              match r1 with
              | h1 :: h2 :: h3 :: h4 :: r2 =>
                  match hex4 h1 h2 h3 h4 with
                  | None => None
                  | Some u =>
                      if (0xD800 <=? u) && (u <=? 0xDBFF) then
                        match r2 with
                        | 92 :: 117 :: l1 :: l2 :: l3 :: l4 :: r3 =>
                            match hex4 l1 l2 l3 l4 with
                            | None => None
                            | Some u2 =>
                                if (0xDC00 <=? u2) && (u2 <=? 0xDFFF)
                                then cons_fst (0x10000 + (u - 0xD800) * 1024 + (u2 - 0xDC00))
                                              (scanstring r3)
                                else cons_fst u (scanstring r2)
                            end
                        | _ => cons_fst u (scanstring r2)
                        end
                      else cons_fst u (scanstring r2)
                  end
              | _ => None
              end
            else
              match simple_escape e with
              | Some x => cons_fst x (scanstring r1)
              | None => None
              end
        end
      else cons_fst c (scanstring r)
  end.

Fixpoint span_digits (s : str) : str * str :=
  match s with
  | c :: r => if is_digit c then let '(d, t) := span_digits r in (c :: d, t) else ([], s)
  | [] => ([], [])
  end.

(** The scanner's number pattern: an optional minus, [0] or a digit run
    without leading zero, then an optional fraction and an optional exponent,
    each taken only when complete. *)
Definition match_number (s : str) : option (json * str) :=
  let '(sign, s1) := match s with 45 :: r => ([45], r) | _ => ([], s) end in
  let int_part :=
    match s1 with
    | 48 :: r => Some ([48], r)
    | c :: _ => if is_digit c then Some (span_digits s1) else None
    | [] => None
    end in
  match int_part with
  | None => None
  | Some (ds, s2) =>
      let '(frac, s3) :=
        match s2 with
        | 46 :: r =>
            match span_digits r with
            | ([], _) => ([], s2)
            | (fd, t) => (46 :: fd, t)
            end
        | _ => ([], s2)
        end in
      let '(exp, s4) :=
        match s3 with
        | e :: r =>
            if (e =? 101) || (e =? 69) then
              let '(sg, r') :=
                match r with
                | 43 :: t => ([43], t)
                | 45 :: t => ([45], t)
                | _ => ([], r)
                end in
              match span_digits r' with
              | ([], _) => ([], s3)
              | (ed, t) => (e :: sg ++ ed, t)
              end
            else ([], s3)
        | [] => ([], s3)
        end in
      match frac, exp with
      | [], [] =>
          Some (JInt (match sign with [] => digits_value ds | _ => - digits_value ds end), s4)
      | _, _ => Some (JFloat (sign ++ ds ++ frac ++ exp), s4)
      end
  end.

Definition literal (word : string) (v : json) (s : str) : option (json * str) :=
  match strip_prefix (bytes_of_string word) s with
  | Some r => Some (v, r)
  | None => None
  end.

(** [scan_once] with its array and object loops.  [fuel] bounds the nesting
    and the number of items; [json_loads] gives it twice the length of the
    text and two, more than a text can use. *)
Fixpoint scan_once (fuel : nat) (s : str) : option (json * str) :=
  match fuel with
  | O => None
  | S f =>
      match s with
      | [] => None
      | c :: r =>
          if c =? 34 then
            match scanstring r with
            | Some (t, r') => Some (JStr t, r')
            | None => None
            end
          else if c =? 123 then
            match skip_ws r with
            | 125 :: r' => Some (JDict [], r')
            | 34 :: r' =>
                match parse_object f r' with
                | Some (d, r'') => Some (JDict (dict_of_pairs d), r'')
                | None => None
                end
            | _ => None
            end
          else if c =? 91 then
            match skip_ws r with
            | 93 :: r' => Some (JList [], r')
            | r' =>
                match parse_array f r' with
                | Some (l, r'') => Some (JList l, r'')
                | None => None
                end
            end
          else if c =? 110 then literal "null" JNull s
          else if c =? 116 then literal "true" (JBool true) s
          else if c =? 102 then literal "false" (JBool false) s
          else
            match match_number s with
            | Some x => Some x
            | None =>
                if c =? 78 then literal "NaN" (JFloat (bytes_of_string "NaN")) s
                else if c =? 73 then literal "Infinity" (JFloat (bytes_of_string "Infinity")) s
                else if c =? 45 then literal "-Infinity" (JFloat (bytes_of_string "-Infinity")) s
                else None
            end
      end
  end
with parse_array (fuel : nat) (s : str) : option (list json * str) :=
  match fuel with
  | O => None
  | S f =>
      match scan_once f s with
      | None => None
      | Some (v, r) =>
          match skip_ws r with
          | 93 :: r' => Some ([v], r')
          | 44 :: r' =>
              match parse_array f (skip_ws r') with
              | Some (vs, r'') => Some (v :: vs, r'')
              | None => None
              end
          | _ => None
          end
      end
  end
with parse_object (fuel : nat) (s : str) : option (list (str * json) * str) :=
  match fuel with
  | O => None
  | S f =>
      match scanstring s with
      | None => None
      | Some (k, r) =>
          match skip_ws r with
          | 58 :: r1 =>
              match scan_once f (skip_ws r1) with
              | None => None
              | Some (v, r2) =>
                  match skip_ws r2 with
                  | 125 :: r3 => Some ([(k, v)], r3)
                  | 44 :: r3 =>
                      match skip_ws r3 with
                      | 34 :: r4 =>
                          match parse_object f r4 with
                          | Some (d, r5) => Some ((k, v) :: d, r5)
                          | None => None
                          end
                      | _ => None
                      end
                  | _ => None
                  end
              end
          | _ => None
          end
      end
  end.

(** [json.loads(text)]: one value with white space around it.  The limits
    of the decoder are not modelled: on brackets nested deeper than the
    recursion limit of the interpreter leaves room for it raises
    [RecursionError], and on an integer of more than 4300 digits
    [ValueError]. *)
Definition json_loads (text : str) : result json :=
  match text with
  | 0xFEFF :: _ => Raise JSONDecodeError
  | _ =>
      match scan_once (2 * length text + 2) (skip_ws text) with
      | Some (v, r) =>
          match skip_ws r with
          | [] => Ok v
          | _ => Raise JSONDecodeError
          end
      | None => Raise JSONDecodeError
      end
  end.

Definition hex_lower (n : Z) : Z := if n <? 10 then 48 + n else 87 + n.

(** The encoder's escapes with [ensure_ascii=False]. *)
Definition escape_char (c : Z) : str :=
  if c =? 34 then [92; 34] else if c =? 92 then [92; 92]
  else if c =? 10 then [92; 110] else if c =? 13 then [92; 114]
  else if c =? 9 then [92; 116] else if c =? 8 then [92; 98]
  else if c =? 12 then [92; 102]
  else if (0 <=? c) && (c <? 32) then [92; 117; 48; 48; hex_lower (c / 16); hex_lower (c mod 16)]
  else [c].

Definition encode_basestring (s : str) : str :=
  [34] ++ flat_map escape_char s ++ [34].

Fixpoint join (sep : str) (parts : list str) : str :=
  match parts with
  | [] => []
  | [x] => x
  | x :: r => x ++ sep ++ join sep r
  end.

Definition newline_indent (level : nat) : str := 10 :: repeat 32 (2 * level).

(** [json.dumps(v, indent=2, ensure_ascii=False)] at nesting [level]. *)
Fixpoint json_dumps_at (level : nat) (v : json) : str :=
  match v with
  | JNull => bytes_of_string "null"
  | JBool true => bytes_of_string "true"
  | JBool false => bytes_of_string "false"
  | JInt n => str_of_int n
  | JFloat t => t
  | JStr s => encode_basestring s
  | JList [] => bytes_of_string "[]"
  | JList l =>
      [91] ++ newline_indent (S level)
      ++ join (44 :: newline_indent (S level)) (map (json_dumps_at (S level)) l)
      ++ newline_indent level ++ [93]
  | JDict [] => bytes_of_string "{}"
  | JDict d =>
      [123] ++ newline_indent (S level)
      ++ join (44 :: newline_indent (S level))
           (map (fun kv => encode_basestring (fst kv) ++ [58; 32]
                           ++ json_dumps_at (S level) (snd kv)) d)
      ++ newline_indent level ++ [125]
  end.

Definition json_dumps (v : json) : str := json_dumps_at 0 v.

(** *** Text files *)

(** Universal newlines, as a text file opened for reading applies them. *)
Fixpoint translate_newlines (s : str) : str :=
  match s with
  | [] => []
  | 13 :: 10 :: r => 10 :: translate_newlines r
  | 13 :: r => 10 :: translate_newlines r
  | c :: r => c :: translate_newlines r
  end.

(** What [read()] gives for a file opened with [encoding="utf-8"]. *)
Definition decode_text (raw : bytes) : result str :=
  t <- utf8_decode raw ;; Ok (translate_newlines t).

(** [fp.readlines()] on text already read: lines keep their newline;
    [cur] is the line being collected, last character first. *)
Fixpoint readlines_from (cur s : str) : list str :=
  match s with
  | [] => match cur with [] => [] | _ => [List.rev cur] end
  | c :: r =>
      if c =? 10 then List.rev (c :: cur) :: readlines_from [] r
      else readlines_from (c :: cur) r
  end.

Definition readlines (s : str) : list str := readlines_from [] s.

Definition is_linebreak (c : Z) : bool :=
  ((10 <=? c) && (c <=? 13)) || ((28 <=? c) && (c <=? 30))
  || (c =? 0x85) || (c =? 0x2028) || (c =? 0x2029).

(** [s.splitlines()] *)
Fixpoint splitlines_from (cur s : str) : list str :=
  match s with
  | [] => match cur with [] => [] | _ => [List.rev cur] end
  | 13 :: 10 :: r => List.rev cur :: splitlines_from [] r
  | c :: r =>
      if is_linebreak c then List.rev cur :: splitlines_from [] r
      else splitlines_from (c :: cur) r
  end.

Definition splitlines (s : str) : list str := splitlines_from [] s.

(** *** The world: files, terminal and clock *)

(** A [pathlib.Path], split as [with_suffix] sees it. *)
Record path := Path { parent : string; stem : string; suffix : string }.

#[global] Instance path_eq_dec : EqDecision path.
Proof. solve_decision. Defined.

#[global] Instance path_countable : Countable path.
Proof.
  refine (inj_countable' (fun p => (parent p, stem p, suffix p))
                         (fun t => Path t.1.1 t.1.2 t.2) _).
  intros []; reflexivity.
Defined.

Definition with_suffix (p : path) (sfx : string) : path :=
  Path (parent p) (stem p) sfx.

(** The files of the disk by path (directories exist as needed and every
    permitted operation succeeds), the lines the user will type, the reports
    printed so far (banners, menus and prompts are not recorded), and the
    clock: [datetime.utcnow().isoformat()] reads [time_at ticks]. *)
Record world := World {
  files : gmap path bytes;
  stdin : list str;
  stdout : list string;
  ticks : nat;
  time_at : nat -> str }.

Definition set_files (f : gmap path bytes) (w : world) : world :=
  World f (stdin w) (stdout w) (ticks w) (time_at w).

(** A statement: runs in a world, returns or raises, leaves a world. *)
Definition M (A : Type) : Type := world -> result A * world.

Definition ret {A} (a : A) : M A := fun w => (Ok a, w).
Definition raise {A} (e : exn) : M A := fun w => (Raise e, w).
Definition lift {A} (r : result A) : M A := fun w => (r, w).

Definition bindM {A B} (m : M A) (k : A -> M B) : M B :=
  fun w =>
    match m w with
    | (Ok a, w') => k a w'
    | (Raise e, w') => (Raise e, w')
    end.

Notation "x <~ m ;; k" := (bindM m (fun x => k))
  (at level 100, m at next level, right associativity).
Notation "m ;;; k" := (bindM m (fun _ => k))
  (at level 100, right associativity).

(** [try: m except ...:] where [handler] picks the clause for an exception,
    if there is one. *)
Definition try_except {A} (m : M A) (handler : exn -> option (M A)) : M A :=
  fun w =>
    match m w with
    | (Ok a, w') => (Ok a, w')
    | (Raise e, w') =>
        match handler e with
        | Some h => h w'
        | None => (Raise e, w')
        end
    end.

(** [print] of a report. *)
Definition report (text : string) : M unit :=
  fun w => (Ok tt, World (files w) (stdin w) (stdout w ++ [text]) (ticks w) (time_at w)).

(** [input(prompt)] and [getpass(prompt)]: the next line typed. *)
Definition input : M str :=
  fun w =>
    match stdin w with
    | [] => (Raise EOFError, w)
    | l :: r => (Ok l, World (files w) r (stdout w) (ticks w) (time_at w))
    end.

Definition getpass : M str := input.

(** [datetime.utcnow().isoformat()] *)
Definition utcnow : M str :=
  fun w => (Ok (time_at w (ticks w)),
            World (files w) (stdin w) (stdout w) (S (ticks w)) (time_at w)).

(** [p.exists()] *)
Definition exists_ (p : path) : M bool :=
  fun w => (Ok (bool_decide (is_Some (files w !! p))), w).

(** [p.read_text(encoding="utf-8")], also [open(p, "r")] followed by [read]. *)
Definition read_text (p : path) : M str :=
  fun w =>
    match files w !! p with
    | None => (Raise OSError, w)
    | Some raw => (decode_text raw, w)
    end.

(** [open(p, "w", encoding="utf-8")] and one [write]: the file is created or
    truncated, then holds the encoded text.  When the text cannot be encoded
    the file stays truncated (what a partial write leaves is not modelled). *)
Definition write_text (p : path) (text : str) : M unit :=
  fun w =>
    match utf8_encode text with
    | Ok raw => (Ok tt, set_files (<[p := raw]> (files w)) w)
    | Raise e => (Raise e, set_files (<[p := []]> (files w)) w)
    end.

(** [src.rename(dst)]: an existing [dst] is replaced. *)
Definition rename (src dst : path) : M unit :=
  fun w =>
    match files w !! src with
    | None => (Raise OSError, w)
    | Some raw => (Ok tt, set_files (<[dst := raw]> (delete src (files w))) w)
    end.

End Py.
Import Py.

(** ** Cryptographic helpers (the same text in both files) *)

Module Crypto.

(** [hash_text]: [sha256(text.encode("utf-8")).hexdigest()] *)
Definition hash_text (text : str) : result str :=
  b <- utf8_encode text ;; Ok (hexdigest (sha256 b)).

(** [_derive_xor_key]: [sha256(password.encode("utf-8")).digest()] *)
Definition _derive_xor_key (password : str) : result bytes :=
  b <- utf8_encode password ;; Ok (sha256 b).

(** [bytes(b ^ key[i % len(key)] for i, b in enumerate(data))], with the
    enumeration started at [i].  The key is a SHA-256 digest, never empty. *)
Fixpoint xor_stream (key : bytes) (i : nat) (data : bytes) : bytes :=
  match data with
  | [] => []
  | b :: r => Z.lxor b (nth (i mod length key) key 0) :: xor_stream key (S i) r
  end.

Definition encrypt_password (raw_password admin_password : str) : result str :=
  key <- _derive_xor_key admin_password ;;
  data <- utf8_encode raw_password ;;
  let encrypted := xor_stream key 0 data in
  utf8_decode (urlsafe_b64encode encrypted).

Definition decrypt_password (encrypted_password admin_password : str) : result str :=
  key <- _derive_xor_key admin_password ;;
  raw <- utf8_encode encrypted_password ;;
  data <- urlsafe_b64decode raw ;;
  let decrypted := xor_stream key 0 data in
  utf8_decode decrypted.

End Crypto.

(** ** [src/codline.py]: the dictionary based tool *)

Module Cli.

(** [Entry = Dict[str, str]]: the pairs of a record, in insertion order.
    Records come from the JSON file, so a value can be any JSON value. *)
Definition Entry : Type := list (str * json).

(** [entry[key]] *)
Definition getitem (entry : Entry) (key : string) : result json :=
  match dict_get entry (bytes_of_string key) with
  | Some v => Ok v
  | None => Raise KeyError
  end.

(** [entry[key] = value] *)
Definition setitem (entry : Entry) (key : string) (value : str) : Entry :=
  dict_set entry (bytes_of_string key) (JStr value).

Definition ESC : Z := 27.
Definition RESET : str := ESC :: bytes_of_string "[0m".
Definition BOLD : str := ESC :: bytes_of_string "[1m".
Definition RED : str := ESC :: bytes_of_string "[91m".

Definition highlight (text colour : str) (bold : bool) : str :=
  let prefix := if bold then colour ++ BOLD else colour in
  prefix ++ text ++ RESET.

Definition ADMIN_USERNAME : str := bytes_of_string "admin".
Definition ADMIN_PASSWORD_HASH : result str := Crypto.hash_text (bytes_of_string "1234").

(** [authenticate] *)
Definition authenticate (username password : str) : result bool :=
  if str_eqb username ADMIN_USERNAME then
    h <- Crypto.hash_text password ;;
    expected <- ADMIN_PASSWORD_HASH ;;
    Ok (str_eqb h expected)
  else Ok false.

(** The assignments of [edit_entry] to the record chosen, from
    [if new_site:] to the new [updated_at]. *)
Definition edit_fields (entry : Entry)
    (new_site new_username new_password admin_password : str) : M Entry :=
  let entry := if str_eqb new_site [] then entry
               else setitem entry "site" new_site in
  let entry := if str_eqb new_username [] then entry
               else setitem entry "username" new_username in
  entry <~ (if str_eqb new_password [] then ret entry
            else
              password_hash <~ lift (Crypto.hash_text new_password) ;;
              let entry := setitem entry "password_hash" password_hash in
              password_encrypted <~
                lift (Crypto.encrypt_password new_password admin_password) ;;
              ret (setitem entry "password_encrypted" password_encrypted)) ;;
  now <~ utcnow ;;
  ret (setitem entry "updated_at" now).

(** One row of the table [list_entries] draws. *)
Record row := Row {
  row_index : str;
  row_site : json;
  row_username : json;
  row_password : str;
  row_updated : str }.

Section Config.

(** [DATA_FILE] comes from the environment or the home directory;
    [BASE_DIR] is the directory of the script and [CWD] the current one. *)
Variable DATA_FILE : path.
Variable BASE_DIR CWD : string.

(** [datetime.fromisoformat(value).strftime("%d/%m/%Y %H:%M")]; a text that
    is not an ISO date raises [ValueError]. *)
Variable iso_display : str -> result str.

(** [_legacy_file_candidates] *)
Definition _legacy_file_candidates : list path :=
  [with_suffix DATA_FILE ".txt";
   Path BASE_DIR "password_manager" ".txt";
   Path CWD "password_manager" ".txt"].

(** [tuple(dict.fromkeys(...))]: every path once, at its first place. *)
Definition LEGACY_FILE_CANDIDATES : list path := fromkeys _legacy_file_candidates.

(** [pause]: waits for Enter. *)
Definition pause : M unit := input ;;; ret tt.

(** [load_entries]; the report of a [JSONDecodeError] is followed by the
    text of the exception, which is not recorded. *)
Definition load_entries : M (list Entry) :=
  present <~ exists_ DATA_FILE ;;
  if negb present then ret []
  else
    try_except
      (text <~ read_text DATA_FILE ;;
       data <~ lift (json_loads text) ;;
       match data with
       | JList items =>
           ret (omap (fun entry => match entry with JDict d => Some d | _ => None end) items)
       | _ => raise ValueError
       end)
      (fun exc =>
         match exc with
         | JSONDecodeError =>
             Some (report "Error al leer el archivo de datos." ;;;
                   ret [])
         | _ => None
         end).

(** [save_entries]: [json.dump(list(entries), fp, indent=2, ensure_ascii=False)] *)
Definition save_entries (entries : list Entry) : M unit :=
  write_text DATA_FILE (json_dumps (JList (map JDict entries))).

(** [build_entry] *)
Definition build_entry (site username password admin_password : str) : M Entry :=
  now <~ utcnow ;;
  password_hash <~ lift (Crypto.hash_text password) ;;
  password_encrypted <~ lift (Crypto.encrypt_password password admin_password) ;;
  ret [(bytes_of_string "site", JStr (strip site));
       (bytes_of_string "username", JStr (strip username));
       (bytes_of_string "password_hash", JStr password_hash);
       (bytes_of_string "password_encrypted", JStr password_encrypted);
       (bytes_of_string "created_at", JStr now);
       (bytes_of_string "updated_at", JStr now)].

(** [_find_legacy_file] *)
Definition _find_legacy_file : M (option path) :=
  fun w =>
    (Ok (List.find (fun candidate => bool_decide (is_Some (files w !! candidate)))
                   LEGACY_FILE_CANDIDATES), w).

Definition LABEL_SITE : str := py "Sitio web / Aplicación: ".
Definition LABEL_USERNAME : str := py "Usuario / Correo: ".
Definition LABEL_PASSWORD : str := py "Contraseña: ".

(** The loop of [ensure_storage] over [range(0, len(lines), 3)]: a last
    group that lacks a line raises [IndexError] and is skipped. *)
Fixpoint migrate (lines : list str) (admin_password : str) : M (list Entry) :=
  match lines with
  | l0 :: l1 :: l2 :: rest =>
      let site := replace l0 LABEL_SITE [] in
      let username := replace l1 LABEL_USERNAME [] in
      let password := replace l2 LABEL_PASSWORD [] in
      entry <~ build_entry site username password admin_password ;;
      entries <~ migrate rest admin_password ;;
      ret (entry :: entries)
  | _ => ret []
  end.

(** [[line.strip() for line in fp.readlines() if line.strip()]] *)
Definition legacy_lines (text : str) : list str :=
  map strip (List.filter (fun line => negb (str_eqb (strip line) [])) (readlines text)).

(** [ensure_storage] *)
Definition ensure_storage (admin_password : str) : M unit :=
  present <~ exists_ DATA_FILE ;;
  if present then ret tt
  else
    legacy_file <~ _find_legacy_file ;;
    match legacy_file with
    | None => save_entries []
    | Some legacy =>
        text <~ read_text legacy ;;
        entries <~ migrate (legacy_lines text) admin_password ;;
        save_entries entries ;;;
        try_except (rename legacy (with_suffix legacy ".bak"))
                   (fun exc => match exc with OSError => Some (ret tt) | _ => None end)
    end.

(** [add_entry] *)
Definition add_entry (admin_password : str) : M unit :=
  site <~ input ;;
  let site := strip site in
  username <~ input ;;
  let username := strip username in
  password <~ getpass ;;
  if str_eqb site [] || str_eqb username [] || str_eqb password [] then
    report "Todos los campos son obligatorios." ;;;
    pause
  else
    entries <~ load_entries ;;
    entry <~ build_entry site username password admin_password ;;
    save_entries (entries ++ [entry]) ;;;
    report "Credencial almacenada correctamente." ;;;
    pause.

(** [format_datetime] *)
Definition format_datetime (value : json) : result str :=
  match value with
  | JStr v =>
      match iso_display v with
      | Raise ValueError => Ok v
      | r => r
      end
  | _ => Raise TypeError
  end.

(** [decrypt_password(entry["password_encrypted"], admin_password)]: a value
    that is not a [str] has no [encode]. *)
Definition decrypt_field (entry : Entry) (admin_password : str) : result str :=
  v <- getitem entry "password_encrypted" ;;
  match v with
  | JStr c => Crypto.decrypt_password c admin_password
  | _ => Raise AttributeError
  end.

(** The loop of [list_entries] that builds the rows, counting from [idx];
    [except Exception] takes every exception of the decryption. *)
Fixpoint list_rows (idx : Z) (filtered : list Entry) (admin_password : str)
  : result (list row) :=
  match filtered with
  | [] => Ok []
  | entry :: rest =>
      let password_plain :=
        match decrypt_field entry admin_password with
        | Ok p => p
        | Raise _ => highlight (bytes_of_string "Error al descifrar") RED false
        end in
      site <- getitem entry "site" ;;
      username <- getitem entry "username" ;;
      updated_at <- getitem entry "updated_at" ;;
      updated <- format_datetime updated_at ;;
      rows <- list_rows (idx + 1) rest admin_password ;;
      Ok (Row (str_of_int idx) site username password_plain updated :: rows)
  end.

(** The loop of [select_entry] that prints [entry['site']] and
    [entry['username']] for every record. *)
Fixpoint show_entries (entries : list Entry) : M unit :=
  match entries with
  | [] => ret tt
  | entry :: rest =>
      lift (getitem entry "site") ;;;
      lift (getitem entry "username") ;;;
      show_entries rest
  end.

(** [select_entry] *)
Definition select_entry (entries : list Entry) : M (option nat) :=
  match entries with
  | [] =>
      report "No hay registros disponibles." ;;;
      pause ;;;
      ret None
  | _ =>
      show_entries entries ;;;
      parsed <~ try_except
                  (line <~ input ;;
                   selection <~ lift (int_of_str line) ;;
                   ret (Some selection))
                  (fun exc =>
                     match exc with
                     | ValueError =>
                         Some (report "Entrada no válida." ;;; pause ;;; ret None)
                     | _ => None
                     end) ;;
      match parsed with
      | None => ret None
      | Some selection =>
          if selection =? 0 then ret None
          else if (1 <=? selection) && (selection <=? Z.of_nat (length entries))
          then ret (Some (Z.to_nat (selection - 1)))
          else
            report "Selección fuera de rango." ;;;
            pause ;;;
            ret None
      end
  end.

(** [edit_entry] *)
Definition edit_entry (admin_password : str) : M unit :=
  entries <~ load_entries ;;
  index <~ select_entry entries ;;
  match index with
  | None => ret tt
  | Some i =>
      match entries !! i with
      | None => raise IndexError
      | Some entry =>
          lift (getitem entry "site") ;;;
          new_site <~ input ;;
          let new_site := strip new_site in
          lift (getitem entry "username") ;;;
          new_username <~ input ;;
          let new_username := strip new_username in
          new_password <~ getpass ;;
          entry <~ edit_fields entry new_site new_username new_password admin_password ;;
          save_entries (<[i := entry]> entries) ;;;
          report "Credencial actualizada correctamente." ;;;
          pause
      end
  end.

(** [delete_entry] *)
Definition delete_entry : M unit :=
  entries <~ load_entries ;;
  index <~ select_entry entries ;;
  match index with
  | None => ret tt
  | Some i =>
      match entries !! i with
      | None => raise IndexError
      | Some entry =>
          save_entries (delete i entries) ;;;
          lift (getitem entry "site") ;;;
          lift (getitem entry "username") ;;;
          report "Se eliminó la credencial de {entry['site']} ({entry['username']})." ;;;
          pause
      end
  end.

End Config.

Definition DIM : str := ESC :: bytes_of_string "[2m".
Definition GREEN : str := ESC :: bytes_of_string "[92m".

(** The [for attempt in range(3, 0, -1)] loop of [prompt_admin_login] with
    [attempt] turns to go, and what follows the loop. *)
Fixpoint login_attempts (attempt : nat) : M (option str) :=
  match attempt with
  | O =>
      report "Se agotaron los intentos. Saliendo..." ;;;
      pause ;;;
      ret None
  | S remaining =>
      username <~ input ;;
      let username := strip username in
      password <~ getpass ;;
      granted <~ lift (authenticate username password) ;;
      if granted then
        report "
Acceso concedido.
" ;;;
        pause ;;;
        ret (Some password)
      else
        report "Credenciales incorrectas." ;;;
        (match remaining with
         | O => ret tt
         | S _ =>
             report (String.append "Intentos restantes: "
                       (NilZero.string_of_uint (Nat.to_uint remaining)))
         end) ;;;
        login_attempts remaining
  end.

(** [prompt_admin_login] *)
Definition prompt_admin_login : M (option str) :=
  report "Se requiere iniciar sesión para continuar.
" ;;;
  login_attempts 3.

(** [column_widths[idx] = max(column_widths[idx], len(cell))] for the cells
    of one row, from [idx] on: a cell beyond the last column raises
    [IndexError]. *)
Fixpoint widen (column_widths : list nat) (idx : nat) (row : list str)
  : result (list nat) :=
  match row with
  | [] => Ok column_widths
  | cell :: rest =>
      match column_widths !! idx with
      | None => Raise IndexError
      | Some width => widen (<[idx := Nat.max width (length cell)]> column_widths) (S idx) rest
      end
  end.

(** The widths after the loop over the rows. *)
Fixpoint widen_rows (column_widths : list nat) (rows : list (list str))
  : result (list nat) :=
  match rows with
  | [] => Ok column_widths
  | row :: rest =>
      widths <- widen column_widths 0 row ;;
      widen_rows widths rest
  end.


(** [format_row], nested in [draw_table]: [zip] stops at the shorter of the
    row and the widths. *)
Definition format_row (column_widths : list nat) (row : list str) : str :=
  let cells := map (fun cw => [32] ++ ljust (fst cw) (snd cw) ++ [32])
                   (List.combine row column_widths) in
  py "║" ++ join (py "║") cells ++ py "║".


End Cli.

(** ** [src/Visual/codline.py]: the dataclass based tool *)

Module Visual.

(** [@dataclass class Entry] *)
Record Entry := mkEntry {
  site : str;
  username : str;
  password_hash : str;
  password_encrypted : str;
  created_at : str;
  updated_at : str }.

#[global] Instance Entry_eq_dec : EqDecision Entry.
Proof. solve_decision. Defined.

(** [Entry.build] *)
Definition build (site username password admin_password : str) : M Entry :=
  timestamp <~ utcnow ;;
  password_hash <~ lift (Crypto.hash_text password) ;;
  password_encrypted <~ lift (Crypto.encrypt_password password admin_password) ;;
  ret (mkEntry (strip site) (strip username) password_hash password_encrypted
               timestamp timestamp).

(** [Entry.update_password]; the result is [self] after the call. *)
Definition update_password (self : Entry) (password admin_password : str) : M Entry :=
  new_hash <~ lift (Crypto.hash_text password) ;;
  new_encrypted <~ lift (Crypto.encrypt_password password admin_password) ;;
  now <~ utcnow ;;
  ret (mkEntry (site self) (username self) new_hash new_encrypted (created_at self) now).

(** [Entry.update_login]; [None] is an argument left out. *)
Definition update_login (self : Entry) (new_site new_username : option str) : M Entry :=
  let site' := match new_site with Some s => strip s | None => site self end in
  let username' := match new_username with Some u => strip u | None => username self end in
  now <~ utcnow ;;
  ret (mkEntry site' username' (password_hash self) (password_encrypted self)
               (created_at self) now).

(** [Entry.to_dict] *)
Definition to_dict (self : Entry) : json :=
  JDict [(bytes_of_string "site", JStr (site self));
         (bytes_of_string "username", JStr (username self));
         (bytes_of_string "password_hash", JStr (password_hash self));
         (bytes_of_string "password_encrypted", JStr (password_encrypted self));
         (bytes_of_string "created_at", JStr (created_at self));
         (bytes_of_string "updated_at", JStr (updated_at self))].

(** [x or None] for a string. *)
Definition or_None (x : str) : option str :=
  match x with [] => None | _ => Some x end.

Definition ESC : Z := 27.
Definition RESET : str := ESC :: bytes_of_string "[0m".
Definition BOLD : str := ESC :: bytes_of_string "[1m".
Definition DIM : str := ESC :: bytes_of_string "[2m".
Definition MAGENTA : str := ESC :: bytes_of_string "[95m".

(** [highlight] *)
Definition highlight (text colour : str) (bold : bool) : str :=
  let prefix := if bold then colour ++ BOLD else colour in
  prefix ++ text ++ RESET.

(** [banner_line] *)
Definition banner_line (text colour : str) : str :=
  let width := 68 in
  let content_width := width - 2 in
  let message := firstn (Z.to_nat content_width) text in
  let padding := Z.max ((content_width - Z.of_nat (length message)) / 2) 0 in
  let left_spaces := str_mul [32] (Z.to_nat padding) in
  let right_spaces :=
    str_mul [32] (Z.to_nat (content_width - padding - Z.of_nat (length message))) in
  highlight (py "╔" ++ str_mul (py "═") (Z.to_nat content_width) ++ py "╗") colour false
  ++ [10]
  ++ highlight (py "║" ++ left_spaces ++ message ++ right_spaces ++ py "║") colour false
  ++ [10]
  ++ highlight (py "╚" ++ str_mul (py "═") (Z.to_nat content_width) ++ py "╝") colour false.

(** [column_widths[idx] = max(column_widths[idx], len(cell))] for the cells
    of one row, from [idx] on: a cell beyond the last column raises
    [IndexError]. *)
Fixpoint widen (column_widths : list nat) (idx : nat) (row : list str)
  : result (list nat) :=
  match row with
  | [] => Ok column_widths
  | cell :: rest =>
      match column_widths !! idx with
      | None => Raise IndexError
      | Some width => widen (<[idx := Nat.max width (length cell)]> column_widths) (S idx) rest
      end
  end.

(** The widths after the loop over the rows. *)
Fixpoint widen_rows (column_widths : list nat) (rows : list (list str))
  : result (list nat) :=
  match rows with
  | [] => Ok column_widths
  | row :: rest =>
      widths <- widen column_widths 0 row ;;
      widen_rows widths rest
  end.

(** The cells of [format_row], nested in [format_table], from [idx] on:
    [column_widths[idx]] raises [IndexError] beyond the last column. *)
Fixpoint format_cells (column_widths : list nat) (idx : nat) (parts : list str)
  : result (list str) :=
  match parts with
  | [] => Ok []
  | part :: rest =>
      match column_widths !! idx with
      | None => Raise IndexError
      | Some width =>
          cells <- format_cells column_widths (S idx) rest ;;
          Ok (([32] ++ ljust part width ++ [32]) :: cells)
      end
  end.

Definition format_row (column_widths : list nat) (parts : list str)
    (left sep right : str) : result str :=
  cells <- format_cells column_widths 0 parts ;;
  Ok (left ++ join sep cells ++ right).

(** [[format_row(row, "│", "│", "│") for row in rows]] *)
Fixpoint format_rows (column_widths : list nat) (rows : list (list str))
  : result (list str) :=
  match rows with
  | [] => Ok []
  | row :: rest =>
      line <- format_row column_widths row (py "│") (py "│") (py "│") ;;
      lines <- format_rows column_widths rest ;;
      Ok (line :: lines)
  end.

(** The lines [format_table] joins when there are rows. *)
Definition table_lines (rows : list (list str)) (headers : list str)
  : result (list str) :=
  column_widths <- widen_rows (map (@length Z) headers) rows ;;
  top <- format_row column_widths headers (py "╭") (py "┬") (py "╮") ;;
  let rules := map (fun width => str_mul (py "─") width) column_widths in
  middle <- format_row column_widths rules (py "├") (py "┼") (py "┤") ;;
  bottom <- format_row column_widths rules (py "╰") (py "┴") (py "╯") ;;
  header_row <- format_row column_widths headers (py "│") (py "│") (py "│") ;;
  let header_row := highlight header_row MAGENTA true in
  body <- format_rows column_widths rows ;;
  Ok ([highlight top DIM false] ++ [header_row; highlight middle DIM false] ++ body
      ++ [highlight bottom DIM false]).

(** [format_table] *)
Definition format_table (rows : list (list str)) (headers : list str) : result str :=
  match rows with
  | [] =>
      Ok (highlight (py "╭───────────────────────────────────────╮
│   No hay registros para mostrar.      │
╰───────────────────────────────────────╯") DIM false)
  | _ =>
      lines <- table_lines rows headers ;;
      Ok (join [10] lines)
  end.

Definition ADMIN_USERNAME : str := bytes_of_string "admin".
Definition ADMIN_PASSWORD_HASH : result str := Crypto.hash_text (bytes_of_string "1234").

(** How [authenticate] ends: it returns the password typed, or it calls
    [sys.exit] with a code. *)
Inductive login :=
| Granted (password : str)
| Exit (code : Z).

Section Config.

Variable BASE_DIR : string.

(** [str(v)] for a JSON value that is not a string. *)
Variable py_repr : json -> str.

(** [datetime.fromisoformat(value).strftime("%Y-%m-%d %H:%M")]; a text that
    is not an ISO date raises [ValueError]. *)
Variable iso_display : str -> result str.

Definition DATA_FILE : path := Path BASE_DIR "password_manager" ".json".
Definition LEGACY_FILE : path := Path BASE_DIR "password_manager" ".txt".

Definition pause : M unit := input ;;; ret tt.

(** [str(payload.get(key, default))] *)
Definition get_str (payload : list (str * json)) (key : string) (default : str) : str :=
  match dict_get payload (bytes_of_string key) with
  | Some (JStr s) => s
  | Some v => py_repr v
  | None => default
  end.

(** [Entry.from_dict]: both defaults for the dates are computed, whether the
    keys are there or not. *)
Definition from_dict (payload : list (str * json)) : M Entry :=
  now1 <~ utcnow ;;
  now2 <~ utcnow ;;
  ret (mkEntry (strip (get_str payload "site" []))
               (strip (get_str payload "username" []))
               (get_str payload "password_hash" [])
               (get_str payload "password_encrypted" [])
               (get_str payload "created_at" now1)
               (get_str payload "updated_at" now2)).

(** [[Entry.from_dict(item) for item in items if isinstance(item, dict)]] *)
Fixpoint from_dicts (items : list json) : M (list Entry) :=
  match items with
  | [] => ret []
  | JDict d :: rest =>
      entry <~ from_dict d ;;
      entries <~ from_dicts rest ;;
      ret (entry :: entries)
  | _ :: rest => from_dicts rest
  end.

(** [load_entries].  The comprehension iterates whatever [json.load] gave:
    the items of a list, the keys of a dict or the characters of a string
    (none of them a dict); any other value is not iterable.  The report of a
    [JSONDecodeError] is followed by the text of the exception, which is not
    recorded. *)
Definition load_entries : M (list Entry) :=
  present <~ exists_ DATA_FILE ;;
  if negb present then ret []
  else
    parsed <~ try_except
                (text <~ read_text DATA_FILE ;;
                 raw_entries <~ lift (json_loads text) ;;
                 ret (Some raw_entries))
                (fun exc =>
                   match exc with
                   | JSONDecodeError =>
                       Some (report "⚠️  Error al interpretar el archivo de datos." ;;;
                             ret None)
                   | _ => None
                   end) ;;
    match parsed with
    | None => ret []
    | Some (JList items) => from_dicts items
    | Some (JDict _) => ret []
    | Some (JStr _) => ret []
    | Some _ => raise TypeError
    end.

(** [save_entries] *)
Definition save_entries (entries : list Entry) : M unit :=
  write_text DATA_FILE (json_dumps (JList (map to_dict entries))).

(** [line.split(":", 1)[1].strip()]; a line without a colon raises
    [IndexError]. *)
Definition field (line : str) : option str :=
  match split1 58 line with
  | [_; value] => Some (strip value)
  | _ => None
  end.

(** One turn of the loop of [ensure_storage] on the lines [chunk],
    [chunk + 1] and [chunk + 2]. *)
Definition migrate_chunk (l0 l1 l2 admin_password : str) : M (list Entry) :=
  match field l0, field l1, field l2 with
  | Some site, Some username, Some password =>
      entry <~ build site username password admin_password ;;
      ret [entry]
  | _, _, _ => ret []
  end.

(** The loop over [range(0, len(lines), 4)]: a chunk that lacks a line or a
    colon raises [IndexError] and is skipped. *)
Fixpoint migrate (lines : list str) (admin_password : str) : M (list Entry) :=
  match lines with
  | l0 :: l1 :: l2 :: _ :: rest =>
      chunk <~ migrate_chunk l0 l1 l2 admin_password ;;
      migrated <~ migrate rest admin_password ;;
      ret (chunk ++ migrated)
  | [l0; l1; l2] => migrate_chunk l0 l1 l2 admin_password
  | _ => ret []
  end.

(** [ensure_storage] *)
Definition ensure_storage (admin_password : str) : M unit :=
  present <~ exists_ DATA_FILE ;;
  if present then ret tt
  else
    legacy <~ exists_ LEGACY_FILE ;;
    if negb legacy then save_entries []
    else
      text <~ read_text LEGACY_FILE ;;
      migrated <~ migrate (splitlines text) admin_password ;;
      save_entries migrated ;;;
      rename LEGACY_FILE (with_suffix LEGACY_FILE ".bak").

(** [add_entry] *)
Definition add_entry (entries : list Entry) (admin_password : str) : M unit :=
  site <~ input ;;
  let site := strip site in
  username <~ input ;;
  let username := strip username in
  password <~ getpass ;;
  if str_eqb site [] || str_eqb username [] || str_eqb password [] then
    report "Todos los campos son obligatorios." ;;;
    pause
  else
    entry <~ build site username password admin_password ;;
    save_entries (entries ++ [entry]) ;;;
    report "Registro creado correctamente." ;;;
    pause.

(** The [if choice.isdigit():] block of [choose_entry]: the position chosen,
    or [None] where the block falls through to the report.  [int(choice)]
    raises [ValueError] on digits that are not decimal and on more than 4300
    of them; nothing catches it. *)
Definition chosen_index (entries : list Entry) (choice : str) : M (option nat) :=
  if isdigit choice then
    value <~ lift (int_of_str choice) ;;
    let index := value - 1 in
    if (0 <=? index) && (index <? Z.of_nat (length entries))
    then ret (Some (Z.to_nat index))
    else ret None
  else ret None.

(** The [while True] loop of [choose_entry].  Every turn reads one line, so
    [fuel] above the number of lines left is never used up (lemma
    [choose_loop_fuel]). *)
Fixpoint choose_loop (fuel : nat) (entries : list Entry) : M (option nat) :=
  match fuel with
  | O => raise EOFError
  | S fuel' =>
      choice <~ input ;;
      match choice with
      | [] => ret None
      | _ =>
          chosen <~ chosen_index entries choice ;;
          match chosen with
          | Some index => ret (Some index)
          | None =>
              report "Selección inválida." ;;;
              choose_loop fuel' entries
          end
      end
  end.

(** [choose_entry], returning the position of the record chosen. *)
Definition choose_entry (entries : list Entry) : M (option nat) :=
  match entries with
  | [] =>
      report "No hay registros disponibles." ;;;
      pause ;;;
      ret None
  | _ => fun w => choose_loop (S (length (stdin w))) entries w
  end.

(** The loop of [view_entries] that builds the rows: nothing catches what
    the decryption or the date raise. *)
Fixpoint view_rows (ordered : list Entry) (admin_password : str)
  : result (list (list str)) :=
  match ordered with
  | [] => Ok []
  | entry :: rest =>
      decrypted <- Crypto.decrypt_password (password_encrypted entry) admin_password ;;
      updated <- iso_display (updated_at entry) ;;
      rows <- view_rows rest admin_password ;;
      Ok ([site entry; username entry; decrypted; updated] :: rows)
  end.

(** [edit_entry] *)
Definition edit_entry (entries : list Entry) (admin_password : str) : M unit :=
  chosen <~ choose_entry entries ;;
  match chosen with
  | None => ret tt
  | Some i =>
      match entries !! i with
      | None => raise IndexError
      | Some entry =>
          new_site <~ input ;;
          new_username <~ input ;;
          new_password <~ getpass ;;
          entry <~ (match or_None new_site, or_None new_username with
                    | None, None => ret entry
                    | s, u => update_login entry s u
                    end) ;;
          entry <~ (match new_password with
                    | [] => ret entry
                    | _ => update_password entry new_password admin_password
                    end) ;;
          save_entries (<[i := entry]> entries) ;;;
          report "Registro actualizado correctamente." ;;;
          pause
      end
  end.

(** [entries.remove(entry)]: the first record equal to [entry] goes. *)
Fixpoint list_remove (entry : Entry) (entries : list Entry) : list Entry :=
  match entries with
  | [] => []
  | e :: rest => if bool_decide (e = entry) then rest else e :: list_remove entry rest
  end.

(** [delete_entry]; [confirmation.strip().lower() == "s"] holds for the
    answers [s] and [S]. *)
Definition delete_entry (entries : list Entry) : M unit :=
  chosen <~ choose_entry entries ;;
  match chosen with
  | None => ret tt
  | Some i =>
      match entries !! i with
      | None => raise IndexError
      | Some entry =>
          confirmation <~ input ;;
          let confirmation := strip confirmation in
          (if str_eqb confirmation (bytes_of_string "s")
              || str_eqb confirmation (bytes_of_string "S")
           then
             save_entries (list_remove entry entries) ;;;
             report "Registro eliminado."
           else report "Operación cancelada.") ;;;
          pause
      end
  end.

(** The [if choice.isdigit():] block of [prompt_choice]: the value chosen,
    or [None] where the block falls through to the report.  [int(choice)]
    raises [ValueError] on digits that are not decimal and on more than 4300
    of them; nothing catches it. *)
Definition chosen_value (options : list str) (choice : str) : M (option Z) :=
  if isdigit choice then
    value <~ lift (int_of_str choice) ;;
    if (0 <=? value) && (value <=? Z.of_nat (length options))
    then ret (Some value)
    else ret None
  else ret None.

(** The [while True] loop of [prompt_choice].  Every turn reads one line,
    so [fuel] above the number of lines left is never used up (lemmas
    [prompt_loop_skips] and [prompt_loop_exhausted]). *)
Fixpoint prompt_loop (fuel : nat) (options : list str) : M Z :=
  match fuel with
  | O => raise EOFError
  | S fuel' =>
      choice <~ input ;;
      chosen <~ chosen_value options choice ;;
      match chosen with
      | Some value => ret value
      | None =>
          report "Opción inválida, inténtelo de nuevo." ;;;
          prompt_loop fuel' options
      end
  end.

(** [prompt_choice]; the menu it prints is not recorded. *)
Definition prompt_choice (options : list str) (exit_label : str) : M Z :=
  fun w => prompt_loop (S (length (stdin w))) options w.

(** The [while attempts:] loop of [authenticate] and what follows it. *)
Fixpoint authenticate_loop (attempts : nat) : M login :=
  match attempts with
  | O =>
      report "Demasiados intentos fallidos. Cerrando..." ;;;
      ret (Exit 1)
  | S attempts' =>
      username <~ input ;;
      let username := strip username in
      password <~ getpass ;;
      granted <~ lift (if str_eqb username ADMIN_USERNAME then
                         h <- Crypto.hash_text password ;;
                         expected <- ADMIN_PASSWORD_HASH ;;
                         Ok (str_eqb h expected)
                       else Ok false) ;;
      if granted then
        report "✔ Acceso concedido" ;;;
        pause ;;;
        ret (Granted password)
      else
        report (String.append "Credenciales incorrectas. Intentos restantes: "
                  (NilZero.string_of_uint (Nat.to_uint attempts'))) ;;;
        authenticate_loop attempts'
  end.

(** [authenticate] *)
Definition authenticate : M login := authenticate_loop 3.

(** [str.lower], the lower case mapping of Unicode. *)
Variable lower : str -> str.

Definition key_funcs : list (Entry -> str) :=
  [fun entry => lower (site entry);
   fun entry => lower (username entry);
   fun entry => created_at entry].

(** [view_entries]; the result is the table printed, when one is. *)
Definition view_entries (entries : list Entry) (admin_password : str) : M (option str) :=
  match entries with
  | [] =>
      report "Aún no has guardado contraseñas." ;;;
      pause ;;;
      ret None
  | _ =>
      let sort_options := [py "Sitio"; py "Usuario"; py "Fecha de creación"] in
      sort_choice <~ prompt_choice sort_options (py "Volver") ;;
      if sort_choice =? 0 then ret None
      else
        key <~ lift (index key_funcs (sort_choice - 1)) ;;
        let ordered := sorted_by key entries in
        search_term <~ input ;;
        let search_term := lower (strip search_term) in
        let ordered :=
          match search_term with
          | [] => ordered
          | _ =>
              List.filter (fun entry => is_infix search_term (lower (site entry))
                                        || is_infix search_term (lower (username entry)))
                          ordered
          end in
        rows <~ lift (view_rows ordered admin_password) ;;
        let headers := [py "Sitio"; py "Usuario"; py "Contraseña"; py "Actualizado"] in
        table <~ lift (format_table rows headers) ;;
        pause ;;;
        ret (Some table)
  end.

(** The [while True] loop of [main], from the menu on; the title and the
    options of the menu are not recorded.  Every turn reads at least the
    line of the menu, so [fuel] above the number of lines left is never used
    up. *)
Fixpoint main_loop (fuel : nat) (admin_password : str) (entries : list Entry) : M unit :=
  match fuel with
  | O => raise EOFError
  | S fuel' =>
      choice <~ prompt_choice [py "Añadir nueva credencial"; py "Ver y ordenar contraseñas";
                               py "Editar un registro"; py "Eliminar un registro"]
                              (py "Salir") ;;
      if choice =? 0 then report "Gracias por utilizar el gestor. ¡Hasta pronto!"
      else
        (if choice =? 1 then add_entry entries admin_password
         else if choice =? 2 then view_entries entries admin_password ;;; ret tt
         else if choice =? 3 then edit_entry entries admin_password
         else if choice =? 4 then delete_entry entries
         else ret tt) ;;;
        entries <~ load_entries ;;
        main_loop fuel' admin_password entries
  end.

(** [main]; the [sys.exit(code)] of [authenticate] ends it with
    [Some code]. *)
Definition main : M (option Z) :=
  access <~ authenticate ;;
  match access with
  | Exit code => ret (Some code)
  | Granted admin_password =>
      ensure_storage admin_password ;;;
      entries <~ load_entries ;;
      (fun w => main_loop (S (length (stdin w))) admin_password entries w) ;;;
      ret None
  end.

End Config.

End Visual.

(** ** Vocabulary of the properties *)

Import Crypto.

Definition is_ascii (c : Z) : Prop := 0 <= c < 128.

(** A character of an encoded text as the decoder meets it. *)
Definition wire (c : Z) : Z :=
  urlsafe_decode_translation (urlsafe_encode_translation c).

(** The pads of a ciphertext. *)
Definition count_pad (c : str) : Z :=
  Z.of_nat (length (List.filter (fun x => x =? PAD) c)).

(** The world one tick later, as [utcnow] leaves it. *)
Definition tick (w : world) : world :=
  World (files w) (stdin w) (stdout w) (S (ticks w)) (time_at w).

(** What [datetime.utcnow().isoformat()] gives in [w]. *)
Definition now (w : world) : str := time_at w (ticks w).

(** [h] and [c] are the hash and the ciphertext of the plaintext [p], under
    [secret]. *)
Definition same_plaintext (secret p h c : str) : Prop :=
  hash_text p = Ok h /\ encrypt_password p secret = Ok c.

(** The states of a record of the dataclass tool, each with the password it
    was last given: built by [Entry.build], then changed by
    [update_password], which gives it a new password, and by
    [update_login], which does not. *)
Inductive visual_reachable (secret : str) : Visual.Entry -> str -> Prop :=
| vr_build site username password w entry w' :
    Visual.build site username password secret w = (Ok entry, w') ->
    visual_reachable secret entry password
| vr_update_password entry old password w entry' w' :
    visual_reachable secret entry old ->
    Visual.update_password entry password secret w = (Ok entry', w') ->
    visual_reachable secret entry' password
| vr_update_login entry password new_site new_username w entry' w' :
    visual_reachable secret entry password ->
    Visual.update_login entry new_site new_username w = (Ok entry', w') ->
    visual_reachable secret entry' password.

(** The states of a record of the dictionary tool, each with the password
    it was last given: built by [build_entry], then changed by the
    assignments of [edit_entry], which give it the new password when one is
    typed. *)
Inductive cli_reachable (secret : str) : Cli.Entry -> str -> Prop :=
| cr_build site username password w entry w' :
    Cli.build_entry site username password secret w = (Ok entry, w') ->
    cli_reachable secret entry password
| cr_edit entry password new_site new_username new_password w entry' w' :
    cli_reachable secret entry password ->
    Cli.edit_fields entry new_site new_username new_password secret w = (Ok entry', w') ->
    cli_reachable secret entry'
                  (if str_eqb new_password [] then password else new_password).

(** The two password fields of a dictionary record are the hash and the
    ciphertext of the plaintext [p]. *)
Definition cli_same_plaintext (secret p : str) (entry : Cli.Entry) : Prop :=
  exists h c,
    Cli.getitem entry "password_hash" = Ok (JStr h) /\
    Cli.getitem entry "password_encrypted" = Ok (JStr c) /\
    same_plaintext secret p h c.


(** A text of code points, none negative. *)
Definition text_ok (s : str) : Prop := Forall (fun c => 0 <= c) s.

(** A record as the two tools store it: text keys, all different, and text
    values. *)
Definition record_ok (d : list (str * json)) : Prop :=
  Forall (fun kv => text_ok (fst kv) /\ exists s, snd kv = JStr s /\ text_ok s) d /\
  NoDup (map fst d).

(** One member of an object as [json.dumps] writes it at [level]. *)
Definition member_text (level : nat) (kv : str * json) : str :=
  encode_basestring (fst kv) ++ [58; 32] ++ json_dumps_at level (snd kv).

(** A text without a carriage return, which universal newlines leave as it
    is. *)
Definition no_cr (s : str) : Prop := Forall (fun c => c <> 13) s.


(** ** Sample data *)

(** A clock that reads one second later at every call, ten times round. *)
Definition sample_clock (n : nat) : str :=
  bytes_of_string "2024-06-01T12:00:0" ++ [48 + Z.of_nat (n mod 10)].

Definition sample_dir : string := "/home/ana/.password_manager".
Definition sample_data_file : path := Path sample_dir "password_manager" ".json".

(** An empty disk, a silent terminal. *)
Definition sample_world : world := World ∅ [] [] 0 sample_clock.

Definition with_stdin (lines : list str) (w : world) : world :=
  World (files w) lines (stdout w) (ticks w) (time_at w).

Definition sample_secret : str := bytes_of_string "1234".

Definition sample_entry : Visual.Entry :=
  Visual.mkEntry (bytes_of_string "correo") (bytes_of_string "ana")
                 (bytes_of_string "00") (bytes_of_string "AA==")
                 (bytes_of_string "2024-01-01T00:00:00")
                 (bytes_of_string "2024-01-01T00:00:00").

(** The record [Entry.build] makes of a service, and the dictionary
    [build_entry] makes of it, on the sample world. *)
Definition built_record : Visual.Entry :=
  Eval vm_compute in
    match fst (Visual.build (bytes_of_string " correo ") (bytes_of_string "ana")
                            (bytes_of_string "secreto") sample_secret sample_world) with
    | Ok e => e
    | Raise _ => sample_entry
    end.

Definition built_entry : Cli.Entry :=
  Eval vm_compute in
    match fst (Cli.build_entry (bytes_of_string " correo ") (bytes_of_string "ana")
                               (bytes_of_string "secreto") sample_secret sample_world) with
    | Ok e => e
    | Raise _ => []
    end.

(** The two records with the password changed to [nueva], one tick later. *)
Definition changed_record : Visual.Entry :=
  Eval vm_compute in
    match fst (Visual.update_password built_record (bytes_of_string "nueva") sample_secret
                 (World ∅ [] [] 1 sample_clock)) with
    | Ok e => e
    | Raise _ => sample_entry
    end.

Definition changed_entry : Cli.Entry :=
  Eval vm_compute in
    match fst (Cli.edit_fields built_entry [] [] (bytes_of_string "nueva") sample_secret
                 (World ∅ [] [] 1 sample_clock)) with
    | Ok e => e
    | Raise _ => []
    end.

(** The world with the file [p] holding [raw]. *)
Definition with_file (p : path) (raw : bytes) (w : world) : world :=
  set_files (<[p := raw]> (files w)) w.

(** The world after one more report. *)
Definition reported (text : string) (w : world) : world :=
  World (files w) (stdin w) (stdout w ++ [text]) (ticks w) (time_at w).

(** [[entry for entry in data if isinstance(entry, dict)]] *)
Definition records (items : list json) : list Cli.Entry :=
  omap (fun entry => match entry with JDict d => Some d | _ => None end) items.


(** The store file that holds [built_entry], and a world with it. *)
Definition sample_store : bytes :=
  Eval vm_compute in
    match utf8_encode (json_dumps (JList [JDict built_entry])) with
    | Ok raw => raw
    | Raise _ => []
    end.

Definition stored_world : world := with_file sample_data_file sample_store sample_world.

(** A record whose ciphertext is no base64 text, as a dataclass record and
    as a dictionary. *)
Definition broken_record : Visual.Entry :=
  Visual.mkEntry (bytes_of_string "banco") (bytes_of_string "ana")
                 (bytes_of_string "00") (bytes_of_string "A")
                 (bytes_of_string "2024-01-01T00:00:00")
                 (bytes_of_string "2024-01-01T00:00:00").

Definition dict_of_record (record : Visual.Entry) : Cli.Entry :=
  match Visual.to_dict record with
  | JDict d => d
  | _ => []
  end.

(** A stand-in for [str] on a stored value that is not a string; the records
    of the samples hold strings only. *)
Definition sample_repr (v : json) : str :=
  match v with
  | JStr s => s
  | _ => bytes_of_string "None"
  end.

(** A stand-in for the date formatter: the date and the minutes. *)
Definition sample_iso_display (value : str) : result str := Ok (firstn 16 value).

(** The cell [list_entries] shows for a password it cannot decrypt. *)
Definition decryption_error : str :=
  Cli.highlight (bytes_of_string "Error al descifrar") Cli.RED false.

(** [value] holds no occurrence of [label]. *)
Definition label_free (label value : str) : Prop :=
  forall pre post, value <> pre ++ label ++ post.

(** A line of the legacy file of the command line tool: the value, after
    its label or bare. *)
Definition labelled (label value line : str) : Prop :=
  (line = label ++ value \/ line = value) /\ label_free label value.

(** A line of the legacy file of the dataclass tool: a label without colon,
    a colon, and the value with white space around it. *)
Definition colon_labelled (value line : str) : Prop :=
  exists label rest, ~ In 58 label /\ line = label ++ 58 :: rest /\ strip rest = value.

(** A legacy file of two groups of three labelled lines, nothing between
    them, and a world that has it where both tools look for it. *)
Definition legacy_text : str :=
  py "Sitio web / Aplicación: correo
Usuario / Correo: ana
Contraseña: p1
Sitio web / Aplicación: banco
Usuario / Correo: luis
Contraseña: p2
".

Definition legacy_world : world :=
  Eval vm_compute in
    with_file (Path sample_dir "password_manager" ".txt")
              (match utf8_encode legacy_text with Ok raw => raw | Raise _ => [] end)
              sample_world.

(** The same two groups with an empty line after each. *)
Definition legacy_text_spaced : str :=
  py "Sitio web / Aplicación: correo
Usuario / Correo: ana
Contraseña: p1

Sitio web / Aplicación: banco
Usuario / Correo: luis
Contraseña: p2
".

Definition legacy_world_spaced : world :=
  Eval vm_compute in
    with_file (Path sample_dir "password_manager" ".txt")
              (match utf8_encode legacy_text_spaced with Ok raw => raw | Raise _ => [] end)
              sample_world.

(** The passwords a store file decrypts to, read with [load_entries] of
    the dictionary tool. *)
Definition stored_passwords (DATA_FILE : path) (secret : str) (w : world)
  : result (list (result str)) :=
  rmap (map (fun entry => Cli.decrypt_field entry secret))
       (fst (Cli.load_entries DATA_FILE w)).

(** A record whose keys and values are texts UTF-8 can encode. *)
Definition fields_encodable (d : list (str * json)) : Prop :=
  Forall (fun kv => encodable (fst kv) /\ exists s, snd kv = JStr s /\ encodable s) d.

(** The store file does not exist, and the legacy file the command line tool
    finds holds, blank lines apart, two groups of three lines: the site, the
    user name and the password of [g1], then those of [g2], each after its
    label or bare. *)
Definition cli_two_groups (DATA_FILE : path) (BASE_DIR CWD : string) (w : world)
    (legacy : path) (g1 g2 : str * str * str) : Prop :=
  files w !! DATA_FILE = None /\
  fst (Cli._find_legacy_file DATA_FILE BASE_DIR CWD w) = Ok (Some legacy) /\
  exists raw text l0 l1 l2 l3 l4 l5,
    files w !! legacy = Some raw /\ decode_text raw = Ok text /\
    Cli.legacy_lines text = [l0; l1; l2; l3; l4; l5] /\
    labelled Cli.LABEL_SITE g1.1.1 l0 /\ labelled Cli.LABEL_USERNAME g1.1.2 l1 /\
    labelled Cli.LABEL_PASSWORD g1.2 l2 /\
    labelled Cli.LABEL_SITE g2.1.1 l3 /\ labelled Cli.LABEL_USERNAME g2.1.2 l4 /\
    labelled Cli.LABEL_PASSWORD g2.2 l5.

(** The store file does not exist, and the legacy file of the dataclass tool
    holds two groups of three lines with one line between them, and at most
    one line after them, every line of a group a label, a colon and the
    value. *)
Definition visual_two_groups (BASE_DIR : string) (v : world)
    (g1 g2 : str * str * str) : Prop :=
  files v !! Visual.DATA_FILE BASE_DIR = None /\
  exists raw text l0 l1 l2 separator l3 l4 l5 trailing,
    files v !! Visual.LEGACY_FILE BASE_DIR = Some raw /\ decode_text raw = Ok text /\
    splitlines text = [l0; l1; l2; separator; l3; l4; l5] ++ trailing /\
    (length trailing <= 1)%nat /\
    colon_labelled g1.1.1 l0 /\ colon_labelled g1.1.2 l1 /\ colon_labelled g1.2 l2 /\
    colon_labelled g2.1.1 l3 /\ colon_labelled g2.1.2 l4 /\ colon_labelled g2.2 l5.

(** The texts of two groups and the secret are texts UTF-8 can encode, and
    so are the dates the clock gives. *)
Definition texts_encodable (g1 g2 : str * str * str) (secret : str) (w : world) : Prop :=
  Forall encodable [g1.1.1; g1.1.2; g1.2; g2.1.1; g2.1.2; g2.2; secret] /\
  forall n, encodable (time_at w n).

(** The two groups of the sample legacy files. *)
Definition group1 : str * str * str :=
  (bytes_of_string "correo", bytes_of_string "ana", bytes_of_string "p1").
Definition group2 : str * str * str :=
  (bytes_of_string "banco", bytes_of_string "luis", bytes_of_string "p2").

Definition sample_legacy_file : path := Path sample_dir "password_manager" ".txt".

(** The deepest nesting of [[] and [{] in a text, strings apart, counted as
    the JSON decoder meets them: inside a string a backslash takes the
    character after it, and a bracket that closes nothing is passed over. *)
Fixpoint nesting_from (in_string : bool) (depth deepest : nat) (s : str) : nat :=
  match s with
  | [] => deepest
  | c :: r =>
      if in_string then
        if c =? 92 then
          match r with
          | [] => deepest
          | _ :: r' => nesting_from true depth deepest r'
          end
        else nesting_from (negb (c =? 34)) depth deepest r
      else if c =? 34 then nesting_from true depth deepest r
      else if (c =? 91) || (c =? 123)
      then nesting_from false (S depth) (Nat.max deepest (S depth)) r
      else if (c =? 93) || (c =? 125) then nesting_from false (pred depth) deepest r
      else nesting_from false depth deepest r
  end.

Definition nesting (text : str) : nat := nesting_from false 0 0 text.

(** The longest run of ASCII digits of a text. *)
Fixpoint longest_digits_from (run longest : nat) (s : str) : nat :=
  match s with
  | [] => longest
  | c :: r =>
      if is_digit c then longest_digits_from (S run) (Nat.max longest (S run)) r
      else longest_digits_from 0 longest r
  end.

Definition longest_digits (text : str) : nat := longest_digits_from 0 0 text.

(** A text the decoder of [json.load] reads to its end as [json_loads]
    does: its brackets nest at most a hundred deep, far from the recursion
    limit of the interpreter, and none of its numbers has more digits than
    [int] takes.  Beyond these limits the decoder raises [RecursionError] or
    [ValueError], which [json_loads] does not model. *)
Definition within_decoder_limits (text : str) : bool :=
  (nesting text <=? 100)%nat && (longest_digits text <=? INT_MAX_STR_DIGITS)%nat.

(** The store file at [p], when it exists and is UTF-8, holds such a text. *)
Definition store_within_limits (p : path) (w : world) : Prop :=
  match files w !! p with
  | Some raw =>
      match decode_text raw with
      | Ok text => within_decoder_limits text = true
      | Raise _ => True
      end
  | None => True
  end.


(** ** Vocabulary of the further properties *)

(** A digit of a lower-case hexadecimal number. *)
Definition is_hex_lower (c : Z) : Prop := 48 <= c <= 57 \/ 97 <= c <= 102.

(** A character of URL-safe base64: a letter, a digit, [-], [_] or the pad
    [=]. *)
Definition is_urlsafe (c : Z) : Prop :=
  65 <= c <= 90 \/ 97 <= c <= 122 \/ 48 <= c <= 57 \/ c = 45 \/ c = 95 \/ c = 61.

(** The bytes a ciphertext stands for: [base64.urlsafe_b64decode] of its
    UTF-8 encoding. *)
Definition ciphertext_bytes (c : str) : result bytes :=
  raw <- utf8_encode c ;; urlsafe_b64decode raw.

(** A record the store file can hold and give back: its keys and values
    are texts UTF-8 can encode, its keys are all different, and it has a
    key. *)
Definition storable (d : list (str * json)) : Prop :=
  fields_encodable d /\ NoDup (map fst d) /\ d <> [].

(** A record of the dataclass tool made of texts UTF-8 can encode. *)
Definition record_encodable (r : Visual.Entry) : Prop :=
  Forall encodable [Visual.site r; Visual.username r; Visual.password_hash r;
                    Visual.password_encrypted r; Visual.created_at r; Visual.updated_at r].

(** [Entry.from_dict(entry.to_dict())]: the site and the user name are
    trimmed again. *)
Definition reloaded (r : Visual.Entry) : Visual.Entry :=
  Visual.mkEntry (strip (Visual.site r)) (strip (Visual.username r))
                 (Visual.password_hash r) (Visual.password_encrypted r)
                 (Visual.created_at r) (Visual.updated_at r).

(** The world after [n] readings of the clock. *)
Definition ticked (n : nat) (w : world) : world :=
  World (files w) (stdin w) (stdout w) (n + ticks w) (time_at w).

(** A record [select_entry] can show: it has a site and a user name. *)
Definition listed (entry : Cli.Entry) : Prop :=
  exists s u, Cli.getitem entry "site" = Ok s /\ Cli.getitem entry "username" = Ok u.


(** The width of a line of a table with these column widths: the columns,
    a space on each side of every cell, and the bars. *)
Definition line_width (widths : list nat) : nat :=
  (2 + list_sum (map (fun w => w + 2) widths) + (length widths - 1))%nat.


(** A line [prompt_choice] takes for the answer [value]: digits that [int]
    reads as a number from 0 to the number of options. *)
Definition option_line (options : list str) (choice : str) (value : Z) : Prop :=
  isdigit choice = true /\ int_of_str choice = Ok value /\
  0 <= value <= Z.of_nat (length options).

(** A line [prompt_choice] reports as invalid: one that is not of digits
    only, or digits that [int] reads as a number above the number of
    options. *)
Definition invalid_option (options : list str) (choice : str) : Prop :=
  isdigit choice = false \/
  exists value, int_of_str choice = Ok value /\
                ~ (0 <= value <= Z.of_nat (length options)).

(** The world after these reports. *)
Definition reported_all (texts : list string) (w : world) : world :=
  World (files w) (stdin w) (stdout w ++ texts) (ticks w) (time_at w).

(** Credentials the dataclass tool refuses: the name, trimmed, is not the
    administrator's, or the password has a hash and it is another. *)
Definition refused (username password : str) : Prop :=
  strip username <> Visual.ADMIN_USERNAME \/
  exists h, Crypto.hash_text password = Ok h /\ Visual.ADMIN_PASSWORD_HASH <> Ok h.





(** ** Further sample data *)

(** A second record, made as [Entry.build] makes it. *)
Definition second_record : Visual.Entry :=
  Eval vm_compute in
    match fst (Visual.build (bytes_of_string "Banco") (bytes_of_string "luis")
                            (bytes_of_string "clave") sample_secret sample_world) with
    | Ok e => e
    | Raise _ => sample_entry
    end.

(** A stand-in for [str.lower]: the letters of ASCII. *)
Definition ascii_lower (s : str) : str :=
  map (fun c => if (65 <=? c) && (c <=? 90) then c + 32 else c) s.

(** The sample store with the lines typed to add a record; to delete or to
    edit its record; and with a store file that is not JSON. *)
Definition adding_world : world :=
  with_stdin [py " banco "; py "luis"; py "clave"; []; py "2"] stored_world.

Definition deleting_world : world := with_stdin [py "1"; []] stored_world.


Definition confirming_world : world := with_stdin [py "1"; py " s "; []] stored_world.

Definition editing_world : world :=
  with_stdin [py "1"; py "   "; []; []; []] stored_world.

Definition unreadable_world : world :=
  with_stdin [py "banco"; py "luis"; py "clave"; []]
             (with_file sample_data_file (bytes_of_string "[{]") sample_world).

(** A store path that ends in [.bak], beside the sample legacy file, and
    the bytes of that file. *)
Definition bak_data_file : path := Path sample_dir "password_manager" ".bak".

Definition legacy_raw : bytes :=
  Eval vm_compute in
    match utf8_encode legacy_text with Ok raw => raw | Raise _ => [] end.

(** Lines typed at a menu of two options, and at the login.  The third
    line is the Arabic-Indic digit two, U+0662. *)
Definition menu_world : world :=
  with_stdin [py "x"; py "7"; [1634]; py "y"] sample_world.

Definition idle_world : world := with_stdin [py "x"; py "9"] sample_world.

Definition login_world : world :=
  with_stdin [py "ana"; py "clave"; py " admin "; py "1234"; []; py "1"] sample_world.

Definition lockout_world : world :=
  with_stdin [py "admin"; py "x"; py "ana"; py "1234"; py "admin"; py "12345"; []; py "1"]
             sample_world.

(** The lines of a first session, and of a look at two records in the
    order of their sites. *)
Definition first_session_world : world :=
  with_stdin [py " admin"; py "1234"; []; py "0"; py "1"] sample_world.

Definition viewing_world : world := with_stdin [py "1"; py "A"; []] sample_world.


(** * Properties *)


(** ** Arithmetic of comparisons *)

Ltac dlia := Z.div_mod_to_equations; lia.

Ltac no_if t :=
  lazymatch t with
  | context [if _ then _ else _] => fail
  | _ => idtac
  end.

(** Splits on a comparison of the goal between terms without conditionals,
    closing the branch the context rules out. *)
Ltac zcase :=
  match goal with
  | |- context [?a <? ?b] => no_if a; no_if b; destruct (Z.ltb_spec a b); try dlia
  | |- context [?a <=? ?b] => no_if a; no_if b; destruct (Z.leb_spec a b); try dlia
  | |- context [?a =? ?b] => no_if a; no_if b; destruct (Z.eqb_spec a b); try dlia
  end.

Lemma scalarb_range (c : Z) :
  scalarb c = true -> 0 <= c < 0x110000 /\ ~ (0xD800 <= c < 0xE000).
Proof.
  unfold scalarb. intros H.
  repeat (apply andb_prop in H; destruct H as [H ?]).
  apply Z.leb_le in H.
  match goal with X : (_ <? _) = true |- _ => apply Z.ltb_lt in X end.
  split; [lia|]. intros [? ?].
  match goal with X : negb _ = true |- _ => apply negb_true_iff in X;
    apply andb_false_iff in X; destruct X as [X|X];
    [apply Z.leb_gt in X | apply Z.ltb_ge in X]; lia end.
Qed.

(** ** UTF-8 *)

Lemma utf8_encode_char_ok (c : Z) :
  scalarb c = true -> exists bs, utf8_encode_char c = Ok bs /\ Forall is_byte bs.
Proof.
  intros Hs. pose proof (scalarb_range c Hs) as [Hr Hn].
  unfold utf8_encode_char. rewrite Hs. cbn [negb].
  repeat zcase; eexists; (split; [reflexivity|]);
    repeat constructor; unfold is_byte; dlia.
Qed.

Lemma utf8_decode_encode_char (c : Z) (bs rest : bytes) :
  utf8_encode_char c = Ok bs ->
  utf8_decode (bs ++ rest) = rmap (cons c) (utf8_decode rest).
Proof.
  unfold utf8_encode_char.
  destruct (scalarb c) eqn:Hs; cbn [negb]; [|discriminate].
  pose proof (scalarb_range c Hs) as [Hr Hn].
  repeat zcase; intros [= <-]; cbn [app utf8_decode]; unfold is_cont;
    repeat zcase; cbn [andb negb]; do 2 f_equal; dlia.
Qed.


Lemma utf8_encode_ok (s : str) :
  encodable s ->
  exists bs, utf8_encode s = Ok bs /\ Forall is_byte bs /\ utf8_decode bs = Ok s.
Proof.
  induction 1 as [|c s Hc _ IH].
  - exists []. repeat split; constructor.
  - destruct (utf8_encode_char_ok c Hc) as (b1 & E1 & B1).
    destruct IH as (b2 & E2 & B2 & D2).
    exists (b1 ++ b2). cbn [utf8_encode]. rewrite E1, E2. cbn [bind].
    repeat split.
    + apply Forall_app; auto.
    + rewrite (utf8_decode_encode_char c b1 b2 E1), D2. reflexivity.
Qed.

(** Encoding succeeds exactly on the encodable texts. *)
Lemma utf8_encode_encodable (s : str) (bs : bytes) :
  utf8_encode s = Ok bs -> encodable s.
Proof.
  revert bs. induction s as [|c s IH]; intros bs; [constructor|].
  cbn [utf8_encode]. unfold utf8_encode_char at 1.
  destruct (scalarb c) eqn:Hs; cbn [negb bind]; [|discriminate].
  destruct (utf8_encode s) as [b2|] eqn:E2.
  - intros _. constructor; [assumption | eapply IH; reflexivity].
  - repeat zcase; discriminate.
Qed.

Lemma utf8_encode_ascii (s : str) :
  Forall is_ascii s -> utf8_encode s = Ok s.
Proof.
  induction 1 as [|c s Hc _ IH]; [reflexivity|].
  unfold is_ascii in Hc. cbn [utf8_encode]. rewrite IH.
  unfold utf8_encode_char, scalarb. repeat zcase. reflexivity.
Qed.

Lemma utf8_decode_ascii (s : bytes) :
  Forall is_ascii s -> utf8_decode s = Ok s.
Proof.
  induction 1 as [|c s Hc _ IH]; [reflexivity|].
  unfold is_ascii in Hc. cbn [utf8_decode]. rewrite IH.
  zcase. reflexivity.
Qed.

(** ** SHA-256 digests *)

Lemma bytes_of_word_bytes (w : Z) : Forall is_byte (bytes_of_word w).
Proof. repeat constructor; unfold is_byte; dlia. Qed.

Lemma sha256_length (m : bytes) : length (sha256 m) = 32%nat.
Proof. reflexivity. Qed.

Lemma sha256_bytes (m : bytes) : Forall is_byte (sha256 m).
Proof.
  unfold sha256. repeat (apply Forall_app; split); apply bytes_of_word_bytes.
Qed.

(** ** The XOR stream *)

Lemma lxor_byte (a b : Z) : is_byte a -> is_byte b -> is_byte (Z.lxor a b).
Proof.
  unfold is_byte. intros Ha Hb.
  assert (0 <= Z.lxor a b) by (apply Z.lxor_nonneg; lia).
  split; [assumption|].
  destruct (Z.eq_dec (Z.lxor a b) 0) as [->|Hne]; [lia|].
  apply (Z.log2_lt_pow2 _ 8); [lia|].
  pose proof (Z.log2_lxor a b ltac:(lia) ltac:(lia)).
  assert (Z.log2 a < 8).
  { destruct (Z.eq_dec a 0) as [->|]; [cbn; lia|]. apply Z.log2_lt_pow2; lia. }
  assert (Z.log2 b < 8).
  { destruct (Z.eq_dec b 0) as [->|]; [cbn; lia|]. apply Z.log2_lt_pow2; lia. }
  lia.
Qed.

Lemma nth_byte (key : bytes) (n : nat) : Forall is_byte key -> is_byte (nth n key 0).
Proof.
  intros H. revert n. induction H as [|k key Hk _ IH]; intros [|n]; cbn;
    try assumption; try (unfold is_byte; lia). apply IH.
Qed.

Lemma xor_stream_bytes (key data : bytes) (i : nat) :
  Forall is_byte key -> Forall is_byte data -> Forall is_byte (xor_stream key i data).
Proof.
  intros Hk Hd. revert i. induction Hd as [|b data Hb _ IH]; intros i; cbn [xor_stream].
  - constructor.
  - constructor; [|apply IH]. apply lxor_byte; [assumption | apply nth_byte, Hk].
Qed.

Lemma xor_stream_involutive (key data : bytes) (i : nat) :
  xor_stream key i (xor_stream key i data) = data.
Proof.
  revert i. induction data as [|b data IH]; intros i; cbn [xor_stream]; [reflexivity|].
  rewrite IH, Z.lxor_assoc, Z.lxor_nilpotent, Z.lxor_0_r. reflexivity.
Qed.

Lemma xor_stream_length (key data : bytes) (i : nat) :
  length (xor_stream key i data) = length data.
Proof.
  revert i. induction data as [|b data IH]; intros i; cbn [xor_stream length];
    [reflexivity | rewrite IH; reflexivity].
Qed.

(** ** base64 *)

(** Lists three elements at a time, as [b2a_base64] takes them. *)
Lemma list_ind3 {A} (P : list A -> Prop) :
  P [] -> (forall a, P [a]) -> (forall a b, P [a; b]) ->
  (forall a b c l, P l -> P (a :: b :: c :: l)) ->
  forall l, P l.
Proof.
  intros H0 H1 H2 H3 l.
  cut (P l /\ (forall a, P (a :: l)) /\ (forall a b, P (a :: b :: l))).
  { intros [? _]; assumption. }
  induction l as [|x l (IH0 & IH1 & IH2)]; repeat split; auto.
Qed.

(** A sextet survives the table, the URL-safe translation and both back,
    and is never taken for a pad. *)
Lemma sextet_roundtrip (n : Z) :
  0 <= n < 64 ->
  let c := urlsafe_decode_translation (urlsafe_encode_translation (table_b2a_base64 n)) in
  (c =? PAD) = false /\ table_a2b_base64 c = Some n.
Proof.
  intros Hn. cbv zeta.
  unfold urlsafe_decode_translation, urlsafe_encode_translation,
    table_b2a_base64, table_a2b_base64, PAD.
  repeat zcase; cbn [andb]; split; try reflexivity; f_equal; lia.
Qed.

Lemma sextet_ascii (n : Z) :
  0 <= n < 64 -> is_ascii (urlsafe_encode_translation (table_b2a_base64 n)).
Proof.
  intros Hn. unfold urlsafe_encode_translation, table_b2a_base64, is_ascii.
  repeat zcase; lia.
Qed.

(** The digests of the empty text, of the administrator's password and of
    the two-block message of the standard. *)
Example sha256_test_vectors :
  hash_text [] = Ok (bytes_of_string
    "e3b0c44298fc1c149afbf4c8996fb92427ae41e4649b934ca495991b7852b855") /\
  hash_text (bytes_of_string "1234") = Ok (bytes_of_string
    "03ac674216f3e15c761ee1a5e255f067953623c8b388b4459e13f978d7c846f4") /\
  hash_text (bytes_of_string "abcdbcdecdefdefgefghfghighijhijkijkljklmklmnlmnomnopnopq")
  = Ok (bytes_of_string
    "248d6a61d20638b8e5c026930c3e6039a33ce45964ff2167f6ecedd419db06c1").
Proof. repeat split; vm_compute; reflexivity. Qed.


(** One character of an encoded text, read back by the decoding loop. *)
Lemma a2b_loop_sextet (n : Z) (s : bytes) (quad_pos : nat) (leftchar pads : Z) :
  0 <= n < 64 ->
  a2b_loop (wire (table_b2a_base64 n) :: s) quad_pos leftchar pads =
  match quad_pos with
  | 0%nat => a2b_loop s 1 n 0
  | 1%nat => rmap (cons (leftchar * 4 + n / 16)) (a2b_loop s 2 (n mod 16) 0)
  | 2%nat => rmap (cons (leftchar * 16 + n / 4)) (a2b_loop s 3 (n mod 4) 0)
  | _ => rmap (cons (leftchar * 64 + n)) (a2b_loop s 0 0 0)
  end.
Proof.
  intros Hn. destruct (sextet_roundtrip n Hn) as [E1 E2]. fold (wire (table_b2a_base64 n)) in E1, E2.
  cbn [a2b_loop]. rewrite E1, E2. reflexivity.
Qed.

Lemma wire_map (l : bytes) :
  map urlsafe_decode_translation (map urlsafe_encode_translation l) = map wire l.
Proof. rewrite map_map. reflexivity. Qed.

Lemma a2b_b2a (bs : bytes) :
  Forall is_byte bs -> a2b_loop (map wire (b2a_base64 bs)) 0 0 0 = Ok bs.
Proof.
  induction bs as [| b0 | b0 b1 | b0 b1 b2 r IH] using list_ind3; intros Hb.
  - reflexivity.
  - apply Forall_cons_1 in Hb as [H0 _]. unfold is_byte in H0.
    cbn [b2a_base64 map].
    rewrite !a2b_loop_sextet by dlia.
    cbn. repeat zcase. cbn. do 2 f_equal. dlia.
  - apply Forall_cons_1 in Hb as [H0 Hb]. apply Forall_cons_1 in Hb as [H1 _].
    unfold is_byte in H0, H1.
    cbn [b2a_base64 map].
    rewrite !a2b_loop_sextet by dlia.
    cbn. repeat zcase. cbn. f_equal. f_equal; [dlia|]. f_equal. dlia.
  - apply Forall_cons_1 in Hb as [H0 Hb]. apply Forall_cons_1 in Hb as [H1 Hb].
    apply Forall_cons_1 in Hb as [H2 Hb].
    unfold is_byte in H0, H1, H2.
    cbn [b2a_base64 map].
    rewrite !a2b_loop_sextet by dlia.
    rewrite (IH Hb). cbn [rmap bind].
    f_equal. f_equal; [dlia|]. f_equal; [dlia|]. f_equal. dlia.
Qed.

(** [urlsafe_b64decode] undoes [urlsafe_b64encode]. *)
Lemma urlsafe_b64_roundtrip (bs : bytes) :
  Forall is_byte bs -> urlsafe_b64decode (urlsafe_b64encode bs) = Ok bs.
Proof.
  intros Hb. unfold urlsafe_b64decode, urlsafe_b64encode, a2b_base64.
  rewrite wire_map. apply a2b_b2a, Hb.
Qed.

Lemma urlsafe_b64encode_ascii (bs : bytes) :
  Forall is_byte bs -> Forall is_ascii (urlsafe_b64encode bs).
Proof.
  unfold urlsafe_b64encode.
  induction bs as [| b0 | b0 b1 | b0 b1 b2 r IH] using list_ind3; intros Hb.
  - constructor.
  - apply Forall_cons_1 in Hb as [H0 _]. unfold is_byte in H0.
    cbn [b2a_base64 map].
    repeat (constructor; [first [apply sextet_ascii; dlia | cbv; split; [discriminate | reflexivity]] |]).
    constructor.
  - apply Forall_cons_1 in Hb as [H0 Hb]. apply Forall_cons_1 in Hb as [H1 _].
    unfold is_byte in H0, H1.
    cbn [b2a_base64 map].
    repeat (constructor; [first [apply sextet_ascii; dlia | cbv; split; [discriminate | reflexivity]] |]).
    constructor.
  - apply Forall_cons_1 in Hb as [H0 Hb]. apply Forall_cons_1 in Hb as [H1 Hb].
    apply Forall_cons_1 in Hb as [H2 Hb].
    unfold is_byte in H0, H1, H2.
    cbn [b2a_base64 map].
    repeat (constructor; [apply sextet_ascii; dlia |]).
    apply IH, Hb.
Qed.

(** Four characters for every three bytes, the last group padded. *)
Lemma urlsafe_b64encode_length (bs : bytes) :
  Z.of_nat (length (urlsafe_b64encode bs)) = 4 * ((Z.of_nat (length bs) + 2) / 3).
Proof.
  unfold urlsafe_b64encode. rewrite length_map.
  induction bs as [| b0 | b0 b1 | b0 b1 b2 r IH] using list_ind3;
    cbn [b2a_base64 length]; try reflexivity.
  rewrite !Nat2Z.inj_succ, IH. dlia.
Qed.


(** ** Encryption *)

Lemma encodable_forallb (s : str) : forallb scalarb s = true -> encodable s.
Proof.
  induction s as [|c s IH]; cbn [forallb]; intros H; [constructor|].
  apply andb_prop in H as [Hc Hs]. constructor; [exact Hc | exact (IH Hs)].
Qed.

Lemma derive_xor_key_ok (s : str) :
  encodable s -> exists key, _derive_xor_key s = Ok key /\ Forall is_byte key.
Proof.
  intros Hs. destruct (utf8_encode_ok s Hs) as (b & E & _ & _).
  exists (sha256 b). unfold _derive_xor_key. rewrite E. split; [reflexivity|].
  apply sha256_bytes.
Qed.

(** What [encrypt_password] returns, spelled out. *)
Lemma encrypt_password_ok (p s : str) :
  encodable p -> encodable s ->
  exists key data,
    _derive_xor_key s = Ok key /\ Forall is_byte key /\
    utf8_encode p = Ok data /\ Forall is_byte data /\ utf8_decode data = Ok p /\
    encrypt_password p s = Ok (urlsafe_b64encode (xor_stream key 0 data)).
Proof.
  intros Hp Hs.
  destruct (derive_xor_key_ok s Hs) as (key & Ek & Bk).
  destruct (utf8_encode_ok p Hp) as (data & Ed & Bd & Dd).
  exists key, data. repeat split; try assumption.
  unfold encrypt_password. rewrite Ek, Ed. cbn [bind].
  apply utf8_decode_ascii, urlsafe_b64encode_ascii, xor_stream_bytes; assumption.
Qed.

(** The plaintext comes back from its ciphertext under the same secret. *)
Lemma decrypt_of_encrypt (p s c : str) :
  encodable p -> encodable s ->
  encrypt_password p s = Ok c -> decrypt_password c s = Ok p.
Proof.
  intros Hp Hs Hc.
  destruct (encrypt_password_ok p s Hp Hs) as (key & data & Ek & Bk & Ed & Bd & Dd & E).
  rewrite E in Hc.
  assert (c = urlsafe_b64encode (xor_stream key 0 data)) as -> by congruence.
  unfold decrypt_password. rewrite Ek. cbn [bind].
  pose proof (xor_stream_bytes key data 0 Bk Bd) as Bx.
  rewrite (utf8_encode_ascii _ (urlsafe_b64encode_ascii _ Bx)). cbn [bind].
  rewrite (urlsafe_b64_roundtrip _ Bx). cbn [bind].
  rewrite xor_stream_involutive. exact Dd.
Qed.

(** Byte [j] of the stream is byte [j] of the data, XORed with the key byte
    at its position modulo the length of the key. *)
Lemma xor_stream_lookup (key data : bytes) :
  key <> [] ->
  forall (i j : nat) (b : Z),
    data !! j = Some b ->
    exists k, key !! ((i + j) mod length key)%nat = Some k /\
              xor_stream key i data !! j = Some (Z.lxor b k).
Proof.
  intros Hk. induction data as [|b0 data IH]; intros i j b Hj; [discriminate|].
  assert (Hlen : (0 < length key)%nat) by (destruct key; [congruence | cbn; lia]).
  destruct j as [|j]; cbn [xor_stream].
  - injection Hj as <-. rewrite Nat.add_0_r.
    destruct (lookup_lt_is_Some_2 key (i mod length key)) as (k & Ek);
      [apply Nat.mod_upper_bound; lia|].
    exists k. split; [exact Ek|]. cbn.
    rewrite (nth_lookup_Some _ _ 0 _ Ek). reflexivity.
  - destruct (IH (S i) j b Hj) as (k & Ek & Ex).
    exists k. replace (i + S j)%nat with (S i + j)%nat by lia. split; assumption.
Qed.

(** C1. For every plaintext [p] and every secret [s] that UTF-8 can encode
    ([hash_text] and [_derive_xor_key] encode the secret as well),
    [encrypt_password] returns the URL-safe base64 text of the bytes of [p],
    each XORed with the byte of the SHA-256 digest of [s] at its position
    modulo the length of the digest, and [decrypt_password] gives [p] back
    from it under [s]. *)
Theorem encrypt_decrypt_roundtrip (p s : str) :
  encodable p -> encodable s ->
  exists secret key data cipher c,
    utf8_encode s = Ok secret /\ key = sha256 secret /\
    utf8_encode p = Ok data /\
    length cipher = length data /\
    (forall (i : nat) (b : Z), data !! i = Some b ->
       exists k, key !! (i mod length key)%nat = Some k /\
                 cipher !! i = Some (Z.lxor b k)) /\
    utf8_encode c = Ok (urlsafe_b64encode cipher) /\
    encrypt_password p s = Ok c /\
    decrypt_password c s = Ok p.
Proof.
  intros Hp Hs.
  destruct (utf8_encode_ok s Hs) as (secret & Es & _ & _).
  destruct (encrypt_password_ok p s Hp Hs) as (key & data & Ek & Bk & Ed & Bd & Dd & E).
  assert (key = sha256 secret) as Hkey
    by (unfold _derive_xor_key in Ek; rewrite Es in Ek; injection Ek as <-; reflexivity).
  exists secret, key, data, (xor_stream key 0 data), (urlsafe_b64encode (xor_stream key 0 data)).
  split; [exact Es|]. split; [exact Hkey|]. split; [exact Ed|].
  split; [apply xor_stream_length|]. split.
  - intros i b Hi. apply (xor_stream_lookup key data) with (i := 0%nat) (j := i); [|exact Hi].
    intros C. rewrite Hkey in C. apply (f_equal (@length Z)) in C.
    rewrite sha256_length in C. discriminate.
  - split; [apply utf8_encode_ascii, urlsafe_b64encode_ascii, xor_stream_bytes; assumption|].
    split; [exact E | apply decrypt_of_encrypt; assumption].
Qed.

Lemma encrypt_decrypt_roundtrip_witness :
  encodable (py "clave larga de más de treinta y dos bytes, ¡sí!") /\
  encodable (py "1234") /\
  encrypt_password (py "clave larga de más de treinta y dos bytes, ¡sí!") (py "1234")
  = Ok (py "YMAGNHPTjT0EeYCFhjDQClaXUOjX7ZQx7HaQFqOpZo0jyAgxNpGYKBNtzYUg9IOkOBc=") /\
  exists secret key data cipher c,
    utf8_encode (py "1234") = Ok secret /\ key = sha256 secret /\
    utf8_encode (py "clave larga de más de treinta y dos bytes, ¡sí!") = Ok data /\
    length cipher = length data /\
    (forall (i : nat) (b : Z), data !! i = Some b ->
       exists k, key !! (i mod length key)%nat = Some k /\
                 cipher !! i = Some (Z.lxor b k)) /\
    utf8_encode c = Ok (urlsafe_b64encode cipher) /\
    encrypt_password (py "clave larga de más de treinta y dos bytes, ¡sí!") (py "1234")
    = Ok c /\
    decrypt_password c (py "1234")
    = Ok (py "clave larga de más de treinta y dos bytes, ¡sí!").
Proof.
  assert (H1 : encodable (py "clave larga de más de treinta y dos bytes, ¡sí!"))
    by (apply encodable_forallb; vm_compute; reflexivity).
  assert (H2 : encodable (py "1234")) by (apply encodable_forallb; vm_compute; reflexivity).
  split; [exact H1 | split; [exact H2 | split; [vm_compute; reflexivity|]]].
  exact (encrypt_decrypt_roundtrip _ _ H1 H2).
Defined.

Lemma sextet_not_pad (n : Z) :
  0 <= n < 64 -> (urlsafe_encode_translation (table_b2a_base64 n) =? PAD) = false.
Proof.
  intros Hn. unfold urlsafe_encode_translation, table_b2a_base64, PAD.
  repeat zcase; reflexivity.
Qed.

Lemma urlsafe_b64encode_pads (bs : bytes) :
  Forall is_byte bs ->
  Z.of_nat (length bs) =
  3 * (Z.of_nat (length (urlsafe_b64encode bs)) / 4) - count_pad (urlsafe_b64encode bs).
Proof.
  unfold urlsafe_b64encode, count_pad.
  induction bs as [| b0 | b0 b1 | b0 b1 b2 r IH] using list_ind3; intros Hb.
  - reflexivity.
  - apply Forall_cons_1 in Hb as [H0 _]. unfold is_byte in H0.
    cbn [b2a_base64 map List.filter]. rewrite !sextet_not_pad by dlia. reflexivity.
  - apply Forall_cons_1 in Hb as [H0 Hb]. apply Forall_cons_1 in Hb as [H1 _].
    unfold is_byte in H0, H1.
    cbn [b2a_base64 map List.filter]. rewrite !sextet_not_pad by dlia. reflexivity.
  - apply Forall_cons_1 in Hb as [H0 Hb]. apply Forall_cons_1 in Hb as [H1 Hb].
    apply Forall_cons_1 in Hb as [H2 Hb].
    unfold is_byte in H0, H1, H2. specialize (IH Hb).
    cbn [b2a_base64 map List.filter]. rewrite !sextet_not_pad by dlia.
    cbn [length]. rewrite !Nat2Z.inj_succ. dlia.
Qed.

(** C9, as the code has it.  For every text [p] and secrets [s1], [s2], the
    two ciphertexts have one length, [4 * ceil(n / 3)] for [n] the number of
    bytes of [p] in UTF-8: the length says nothing of the secret.  It gives
    [n] up to the group of three bytes; with the number of pads at the end
    of the ciphertext it gives [n] itself. *)
Theorem ciphertext_length (p s1 s2 : str) :
  encodable p -> encodable s1 -> encodable s2 ->
  exists data c1 c2,
    utf8_encode p = Ok data /\
    encrypt_password p s1 = Ok c1 /\ encrypt_password p s2 = Ok c2 /\
    length c1 = length c2 /\
    Z.of_nat (length c1) = 4 * ((Z.of_nat (length data) + 2) / 3) /\
    Z.of_nat (length data) = 3 * (Z.of_nat (length c1) / 4) - count_pad c1.
Proof.
  intros Hp H1 H2.
  destruct (encrypt_password_ok p s1 Hp H1) as (k1 & data & Ek1 & Bk1 & Ed & Bd & _ & E1).
  destruct (encrypt_password_ok p s2 Hp H2) as (k2 & data' & Ek2 & Bk2 & Ed' & _ & _ & E2).
  rewrite Ed in Ed'. injection Ed' as <-.
  exists data, (urlsafe_b64encode (xor_stream k1 0 data)),
         (urlsafe_b64encode (xor_stream k2 0 data)).
  pose proof (urlsafe_b64encode_length (xor_stream k1 0 data)) as L1.
  pose proof (urlsafe_b64encode_length (xor_stream k2 0 data)) as L2.
  pose proof (urlsafe_b64encode_pads _ (xor_stream_bytes k1 data 0 Bk1 Bd)) as P1.
  rewrite xor_stream_length in L1, L2, P1.
  repeat split; try assumption; lia.
Qed.

Lemma ciphertext_length_witness :
  encodable (py "clave") /\ encodable (py "1234") /\ encodable (py "otra") /\
  exists data c1 c2,
    utf8_encode (py "clave") = Ok data /\
    encrypt_password (py "clave") (py "1234") = Ok c1 /\
    encrypt_password (py "clave") (py "otra") = Ok c2 /\
    length c1 = length c2 /\
    Z.of_nat (length c1) = 4 * ((Z.of_nat (length data) + 2) / 3) /\
    Z.of_nat (length data) = 3 * (Z.of_nat (length c1) / 4) - count_pad c1.
Proof.
  assert (H0 : encodable (py "clave")) by (apply encodable_forallb; vm_compute; reflexivity).
  assert (H1 : encodable (py "1234")) by (apply encodable_forallb; vm_compute; reflexivity).
  assert (H2 : encodable (py "otra")) by (apply encodable_forallb; vm_compute; reflexivity).
  split; [exact H0 | split; [exact H1 | split; [exact H2 |]]].
  exact (ciphertext_length _ _ _ H0 H1 H2).
Defined.

(** C9 as stated fails: the texts [a] and [ab], of one and two bytes, have
    ciphertexts of the same length under the secret [1234], so the length
    of a ciphertext does not give the number of bytes of its plaintext. *)
Lemma ciphertext_length_not_injective :
  rmap (@length Z) (encrypt_password (py "a") (py "1234")) = Ok 4%nat /\
  rmap (@length Z) (encrypt_password (py "ab") (py "1234")) = Ok 4%nat /\
  rmap (@length Z) (utf8_encode (py "a")) = Ok 1%nat /\
  rmap (@length Z) (utf8_encode (py "ab")) = Ok 2%nat.
Proof. repeat split; vm_compute; reflexivity. Qed.

(** C10. The empty text encrypts to the empty ciphertext, which every
    secret decrypts to the empty text:
    [decrypt_password(encrypt_password("", s), s') == ""]. *)
Theorem empty_password_any_secret (s s' : str) :
  encodable s -> encodable s' ->
  (c <- encrypt_password [] s ;; decrypt_password c s') = Ok [].
Proof.
  intros Hs Hs'.
  destruct (derive_xor_key_ok s Hs) as (k & Ek & _).
  destruct (derive_xor_key_ok s' Hs') as (k' & Ek' & _).
  unfold encrypt_password. rewrite Ek. cbn.
  unfold decrypt_password. rewrite Ek'. reflexivity.
Qed.

Lemma empty_password_any_secret_witness :
  encodable (py "1234") /\ encodable (py "otra") /\
  (c <- encrypt_password [] (py "1234") ;; decrypt_password c (py "otra")) = Ok [].
Proof.
  assert (H1 : encodable (py "1234")) by (apply encodable_forallb; vm_compute; reflexivity).
  assert (H2 : encodable (py "otra")) by (apply encodable_forallb; vm_compute; reflexivity).
  split; [exact H1 | split; [exact H2 | exact (empty_password_any_secret _ _ H1 H2)]].
Defined.


(** ** The entry model *)

Lemma hash_text_ok (p : str) :
  encodable p -> exists h, hash_text p = Ok h.
Proof.
  intros Hp. destruct (utf8_encode_ok p Hp) as (b & E & _).
  eexists. unfold hash_text. rewrite E. reflexivity.
Qed.




Lemma str_eqb_eq (a b : str) : str_eqb a b = true <-> a = b.
Proof. unfold str_eqb. apply bool_decide_eq_true. Qed.

Lemma str_eqb_refl (a : str) : str_eqb a a = true.
Proof. apply str_eqb_eq. reflexivity. Qed.

Lemma dict_get_set (d : list (str * json)) (k k' : str) (v : json) :
  dict_get (dict_set d k v) k' = if str_eqb k k' then Some v else dict_get d k'.
Proof.
  induction d as [|[k0 v0] d IH]; cbn [dict_set dict_get].
  - reflexivity.
  - destruct (str_eqb k0 k) eqn:E0; cbn [dict_get].
    + apply str_eqb_eq in E0 as ->. destruct (str_eqb k k'); reflexivity.
    + rewrite IH. destruct (str_eqb k0 k') eqn:E1; [|reflexivity].
      apply str_eqb_eq in E1 as <-.
      destruct (str_eqb k k0) eqn:E2; [|reflexivity].
      apply str_eqb_eq in E2 as ->. rewrite str_eqb_refl in E0. discriminate.
Qed.

Lemma getitem_setitem (entry : Cli.Entry) (key key' : string) (value : str) :
  Cli.getitem (Cli.setitem entry key value) key' =
  if str_eqb (bytes_of_string key) (bytes_of_string key') then Ok (JStr value)
  else Cli.getitem entry key'.
Proof.
  unfold Cli.getitem, Cli.setitem. rewrite dict_get_set.
  destruct (str_eqb _ _); reflexivity.
Qed.

(** Reads the password fields of a record through the assignments made to
    it; the keys are literals, so their comparison computes. *)
Ltac getitems :=
  repeat (rewrite getitem_setitem;
          match goal with
          | |- context [str_eqb (bytes_of_string ?a) (bytes_of_string ?b)] =>
              let r := eval vm_compute in (str_eqb (bytes_of_string a) (bytes_of_string b)) in
              change (str_eqb (bytes_of_string a) (bytes_of_string b)) with r
          end; cbv iota).



(** What [build_entry] and [Entry.build] return. *)
Lemma build_entry_ok (site username password secret h c : str) (w : world) :
  hash_text password = Ok h -> encrypt_password password secret = Ok c ->
  Cli.build_entry site username password secret w =
  (Ok [(bytes_of_string "site", JStr (strip site));
       (bytes_of_string "username", JStr (strip username));
       (bytes_of_string "password_hash", JStr h);
       (bytes_of_string "password_encrypted", JStr c);
       (bytes_of_string "created_at", JStr (now w));
       (bytes_of_string "updated_at", JStr (now w))], tick w).
Proof.
  intros Eh Ec. unfold Cli.build_entry, bindM, utcnow, lift. rewrite Eh, Ec. reflexivity.
Qed.

Lemma build_ok (site username password secret h c : str) (w : world) :
  hash_text password = Ok h -> encrypt_password password secret = Ok c ->
  Visual.build site username password secret w =
  (Ok (Visual.mkEntry (strip site) (strip username) h c (now w) (now w)), tick w).
Proof.
  intros Eh Ec. unfold Visual.build, bindM, utcnow, lift. rewrite Eh, Ec. reflexivity.
Qed.

(** Building a record succeeds only with its two password fields computed. *)
Lemma build_entry_inv (site username password secret : str) (w w' : world) (entry : Cli.Entry) :
  Cli.build_entry site username password secret w = (Ok entry, w') ->
  exists h c, hash_text password = Ok h /\ encrypt_password password secret = Ok c /\
    entry = [(bytes_of_string "site", JStr (strip site));
             (bytes_of_string "username", JStr (strip username));
             (bytes_of_string "password_hash", JStr h);
             (bytes_of_string "password_encrypted", JStr c);
             (bytes_of_string "created_at", JStr (now w));
             (bytes_of_string "updated_at", JStr (now w))] /\ w' = tick w.
Proof.
  unfold Cli.build_entry, bindM, utcnow, lift.
  destruct (hash_text password) as [h|] eqn:Eh; [|discriminate].
  destruct (encrypt_password password secret) as [c|] eqn:Ec; [|discriminate].
  intros [= <- <-]. exists h, c. repeat split; reflexivity.
Qed.

Lemma build_inv (site username password secret : str) (w w' : world) (entry : Visual.Entry) :
  Visual.build site username password secret w = (Ok entry, w') ->
  exists h c, hash_text password = Ok h /\ encrypt_password password secret = Ok c /\
    entry = Visual.mkEntry (strip site) (strip username) h c (now w) (now w) /\
    w' = tick w.
Proof.
  unfold Visual.build, bindM, utcnow, lift.
  destruct (hash_text password) as [h|] eqn:Eh; [|discriminate].
  destruct (encrypt_password password secret) as [c|] eqn:Ec; [|discriminate].
  intros [= <- <-]. exists h, c. repeat split; reflexivity.
Qed.

Lemma visual_reachable_same_plaintext (secret p : str) (entry : Visual.Entry) :
  visual_reachable secret entry p ->
  same_plaintext secret p (Visual.password_hash entry) (Visual.password_encrypted entry).
Proof.
  induction 1 as [site username password w entry w' Hb
                 | entry old password w entry' w' _ IH Hu
                 | entry password new_site new_username w entry' w' _ IH Hu].
  - apply build_inv in Hb as (h & c & Eh & Ec & -> & _). split; assumption.
  - unfold Visual.update_password, bindM, utcnow, lift in Hu.
    destruct (hash_text password) as [h|] eqn:Eh; [|discriminate].
    destruct (encrypt_password password secret) as [c|] eqn:Ec; [|discriminate].
    injection Hu as <- _. split; assumption.
  - injection Hu as <- _. exact IH.
Qed.

Lemma cli_reachable_same_plaintext (secret p : str) (entry : Cli.Entry) :
  cli_reachable secret entry p -> cli_same_plaintext secret p entry.
Proof.
  induction 1 as [site username password w entry w' Hb
                 | entry password new_site new_username new_password w entry' w' _ IH He].
  - apply build_entry_inv in Hb as (h & c & Eh & Ec & -> & _).
    exists h, c. repeat split; assumption.
  - unfold Cli.edit_fields, bindM, utcnow, lift, ret in He.
    destruct (str_eqb new_password []) eqn:Enp.
    + injection He as <- _. destruct IH as (h & c & Gh & Gc & Hs).
      exists h, c.
      destruct (str_eqb new_site []), (str_eqb new_username []);
        repeat split; getitems; try assumption; apply Hs.
    + destruct (hash_text new_password) as [h|] eqn:Eh; [|discriminate].
      destruct (encrypt_password new_password secret) as [c|] eqn:Ec; [|discriminate].
      injection He as <- _. exists h, c.
      repeat split; getitems; try reflexivity; assumption.
Qed.

(** C7. In both tools a record has in [password_hash] and
    [password_encrypted] the hash and the ciphertext of one plaintext, the
    password it was last given: the one passed when it was built, or the one
    passed to the last [update_password], or typed at the last [edit_entry]
    that changed the password.  A change of the login, or an edit with no
    new password, leaves both fields as they are. *)
Theorem password_fields_describe_one_plaintext
    (secret p q : str) (record : Visual.Entry) (entry : Cli.Entry) :
  visual_reachable secret record p -> cli_reachable secret entry q ->
  (hash_text p = Ok (Visual.password_hash record) /\
   encrypt_password p secret = Ok (Visual.password_encrypted record)) /\
  (exists h c,
     Cli.getitem entry "password_hash" = Ok (JStr h) /\
     Cli.getitem entry "password_encrypted" = Ok (JStr c) /\
     hash_text q = Ok h /\ encrypt_password q secret = Ok c).
Proof.
  intros Hv Hc. split.
  - apply (visual_reachable_same_plaintext secret p record Hv).
  - destruct (cli_reachable_same_plaintext secret q entry Hc) as (h & c & Gh & Gc & Eh & Ec).
    exists h, c. repeat split; assumption.
Qed.

(** The secret of a session is a text UTF-8 can encode: [authenticate]
    accepts no other. *)
Lemma authenticate_encodable (username password : str) :
  Cli.authenticate username password = Ok true -> encodable password.
Proof.
  unfold Cli.authenticate. destruct (str_eqb username Cli.ADMIN_USERNAME); [|discriminate].
  unfold hash_text at 1. destruct (utf8_encode password) as [b|] eqn:E; [|discriminate].
  intros _. exact (utf8_encode_encodable _ _ E).
Qed.

Example authenticate_admin :
  Cli.authenticate (bytes_of_string "admin") (bytes_of_string "1234") = Ok true /\
  Cli.authenticate (bytes_of_string "admin") (bytes_of_string "wrong") = Ok false /\
  Cli.authenticate (bytes_of_string "other") (bytes_of_string "1234") = Ok false.
Proof. repeat split; vm_compute; reflexivity. Qed.


Lemma password_fields_describe_one_plaintext_witness :
  visual_reachable sample_secret changed_record (bytes_of_string "nueva") /\
  cli_reachable sample_secret changed_entry (bytes_of_string "nueva") /\
  (hash_text (bytes_of_string "nueva") = Ok (Visual.password_hash changed_record) /\
   encrypt_password (bytes_of_string "nueva") sample_secret
   = Ok (Visual.password_encrypted changed_record)) /\
  (exists h c,
     Cli.getitem changed_entry "password_hash" = Ok (JStr h) /\
     Cli.getitem changed_entry "password_encrypted" = Ok (JStr c) /\
     hash_text (bytes_of_string "nueva") = Ok h /\
     encrypt_password (bytes_of_string "nueva") sample_secret = Ok c).
Proof.
  assert (Hv : visual_reachable sample_secret changed_record (bytes_of_string "nueva")).
  { apply (vr_update_password _ built_record (bytes_of_string "secreto")
             (bytes_of_string "nueva") (World ∅ [] [] 1 sample_clock)
             _ (World ∅ [] [] 2 sample_clock)).
    - apply (vr_build _ (bytes_of_string " correo ") (bytes_of_string "ana")
                      (bytes_of_string "secreto") sample_world _ (tick sample_world)).
      vm_compute. reflexivity.
    - vm_compute. reflexivity. }
  assert (Hc : cli_reachable sample_secret changed_entry (bytes_of_string "nueva")).
  { apply (cr_edit _ built_entry (bytes_of_string "secreto") [] []
             (bytes_of_string "nueva") (World ∅ [] [] 1 sample_clock)
             _ (World ∅ [] [] 2 sample_clock)).
    - apply (cr_build _ (bytes_of_string " correo ") (bytes_of_string "ana")
                      (bytes_of_string "secreto") sample_world _ (tick sample_world)).
      vm_compute. reflexivity.
    - vm_compute. reflexivity. }
  split; [exact Hv | split; [exact Hc |]].
  exact (password_fields_describe_one_plaintext _ _ _ _ _ Hv Hc).
Defined.

(** The password fields of the sample record change with its password, and
    both of them. *)
Example password_fields_change_together :
  Visual.password_hash changed_record <> Visual.password_hash built_record /\
  Visual.password_encrypted changed_record <> Visual.password_encrypted built_record /\
  decrypt_password (Visual.password_encrypted changed_record) sample_secret
  = Ok (bytes_of_string "nueva").
Proof. repeat split; vm_compute; first [discriminate | reflexivity]. Qed.

(** Runs a statement on a world whose fields are known. *)
Ltac run :=
  unfold bindM, lift, ret, raise, utcnow, input, getpass, report, try_except,
    exists_, read_text; cbn.

(** C6 as the code has it.  [build_entry] and [Entry.build] trim the site
    and the user name and return a record with the hash and the ciphertext
    of the password and the current time in both dates; they check nothing.
    The check is [add_entry]'s: when the trimmed site, the trimmed user name
    or the password is empty it reports the error and writes no file. *)
Theorem build_entry_checked_by_add_entry
    (DATA_FILE : path) (BASE_DIR : string) (entries : list Visual.Entry)
    (site username password secret : str) (rest : list str) (w : world) :
  encodable password -> encodable secret ->
  stdin w = site :: username :: password :: rest ->
  (exists h c,
     hash_text password = Ok h /\ encrypt_password password secret = Ok c /\
     Cli.build_entry site username password secret w =
       (Ok [(bytes_of_string "site", JStr (strip site));
            (bytes_of_string "username", JStr (strip username));
            (bytes_of_string "password_hash", JStr h);
            (bytes_of_string "password_encrypted", JStr c);
            (bytes_of_string "created_at", JStr (now w));
            (bytes_of_string "updated_at", JStr (now w))], tick w) /\
     Visual.build site username password secret w =
       (Ok (Visual.mkEntry (strip site) (strip username) h c (now w) (now w)), tick w))
  /\
  (strip site = [] \/ strip username = [] \/ password = [] ->
   let w1 := snd (Cli.add_entry DATA_FILE secret w) in
   let w2 := snd (Visual.add_entry BASE_DIR entries secret w) in
   files w1 = files w /\
   stdout w1 = stdout w ++ ["Todos los campos son obligatorios."] /\
   files w2 = files w /\
   stdout w2 = stdout w ++ ["Todos los campos son obligatorios."]).
Proof.
  intros Hp Hs Hin. split.
  - destruct (hash_text_ok password Hp) as (h & Eh).
    destruct (encrypt_password_ok password secret Hp Hs) as (k & d & _ & _ & _ & _ & _ & Ec).
    eexists h, _. split; [exact Eh | split; [exact Ec |]].
    split; [apply build_entry_ok | apply build_ok]; assumption.
  - intros Hempty.
    assert (Hc : str_eqb (strip site) [] || str_eqb (strip username) []
                 || str_eqb password [] = true).
    { destruct Hempty as [-> | [-> | ->]]; rewrite ?str_eqb_refl, ?orb_true_r; reflexivity. }
    destruct w as [f i o t c]. cbn in Hin. subst i.
    unfold Cli.add_entry, Visual.add_entry, Cli.pause, Visual.pause. run.
    rewrite Hc. destruct rest; cbn; repeat split; reflexivity.
Qed.

Lemma build_entry_checked_by_add_entry_witness :
  encodable [] /\ encodable sample_secret /\
  stdin (with_stdin [bytes_of_string "  "; bytes_of_string "ana"; []; []] sample_world)
    = bytes_of_string "  " :: bytes_of_string "ana" :: [] :: [[]] /\
  strip (bytes_of_string "  ") = [] /\
  files (snd (Cli.add_entry sample_data_file sample_secret
                (with_stdin [bytes_of_string "  "; bytes_of_string "ana"; []; []] sample_world)))
  = files sample_world.
Proof.
  assert (H1 : encodable []) by constructor.
  assert (H2 : encodable sample_secret) by (apply encodable_forallb; vm_compute; reflexivity).
  assert (H3 : strip (bytes_of_string "  ") = []) by (vm_compute; reflexivity).
  split; [exact H1 | split; [exact H2 | split; [reflexivity | split; [exact H3 |]]]].
  exact (proj1 (proj2 (build_entry_checked_by_add_entry sample_data_file sample_dir []
                   (bytes_of_string "  ") (bytes_of_string "ana") [] sample_secret [[]]
                   (with_stdin [bytes_of_string "  "; bytes_of_string "ana"; []; []] sample_world)
                   H1 H2 eq_refl) (or_introl H3))).
Defined.

(** C6 as stated fails: [build_entry] given an empty site, user name and
    password does not fail, it returns a record with these empty fields. *)
Lemma build_entry_accepts_empty_fields :
  rmap (fun entry => (Cli.getitem entry "site", Cli.getitem entry "username",
                      Cli.getitem entry "password_encrypted"))
       (fst (Cli.build_entry [] [] [] sample_secret sample_world))
  = Ok (Ok (JStr []), Ok (JStr []), Ok (JStr [])).
Proof. vm_compute. reflexivity. Qed.


(** ** The store *)

Lemma exists_present (p : path) (raw : bytes) (w : world) :
  files w !! p = Some raw -> exists_ p w = (Ok true, w).
Proof. intros E. unfold exists_. rewrite E. reflexivity. Qed.

Lemma exists_absent (p : path) (w : world) :
  files w !! p = None -> exists_ p w = (Ok false, w).
Proof. intros E. unfold exists_. rewrite E. reflexivity. Qed.

(** [json_loads] raises nothing but [JSONDecodeError]. *)
Lemma json_loads_raises (text : str) (e : exn) :
  json_loads text = Raise e -> e = JSONDecodeError.
Proof.
  unfold json_loads. intros H.
  repeat match type of H with
         | match ?x with _ => _ end = _ => destruct x
         end; congruence.
Qed.

(** C3 as the code has it.  [load_entries] returns the empty list when the
    file does not exist; when the file is text that [json.load] rejects it
    reports the error and returns the empty list; when the file holds a JSON
    list it returns the records of the list.  A JSON value that is not a
    list makes the command line tool raise [ValueError], as its check of
    [isinstance(data, list)] says.  This for a text within the limits of
    the decoder. *)
Theorem load_entries_outcomes (DATA_FILE : path) (BASE_DIR : string)
    (py_repr : json -> str) (w : world) :
  (files w !! DATA_FILE = None ->
   Cli.load_entries DATA_FILE w = (Ok [], w)) /\
  (files w !! Visual.DATA_FILE BASE_DIR = None ->
   Visual.load_entries BASE_DIR py_repr w = (Ok [], w)) /\
  (forall raw text,
     files w !! DATA_FILE = Some raw -> decode_text raw = Ok text ->
     within_decoder_limits text = true ->
     (json_loads text = Raise JSONDecodeError ->
      Cli.load_entries DATA_FILE w
      = (Ok [], reported "Error al leer el archivo de datos." w)) /\
     (forall items, json_loads text = Ok (JList items) ->
      Cli.load_entries DATA_FILE w = (Ok (records items), w)) /\
     (forall data, json_loads text = Ok data -> is_list data = false ->
      Cli.load_entries DATA_FILE w = (Raise ValueError, w))) /\
  (forall raw text,
     files w !! Visual.DATA_FILE BASE_DIR = Some raw -> decode_text raw = Ok text ->
     within_decoder_limits text = true ->
     (json_loads text = Raise JSONDecodeError ->
      Visual.load_entries BASE_DIR py_repr w
      = (Ok [], reported "⚠️  Error al interpretar el archivo de datos." w)) /\
     (forall items, json_loads text = Ok (JList items) ->
      Visual.load_entries BASE_DIR py_repr w = Visual.from_dicts py_repr items w)).
Proof.
  split; [|split; [|split]].
  - intros E. unfold Cli.load_entries, bindM. rewrite (exists_absent _ _ E). reflexivity.
  - intros E. unfold Visual.load_entries, bindM. rewrite (exists_absent _ _ E). reflexivity.
  - intros raw text E D _.
    unfold Cli.load_entries, bindM, try_except, read_text, lift, raise, ret.
    rewrite (exists_present _ _ _ E). cbn [negb]. rewrite E, D.
    split; [|split].
    + intros ->. reflexivity.
    + intros items ->. reflexivity.
    + intros data -> Hl. destruct data; try reflexivity. discriminate.
  - intros raw text E D _.
    unfold Visual.load_entries, bindM, try_except, read_text, lift, raise, ret.
    rewrite (exists_present _ _ _ E). cbn [negb]. rewrite E, D.
    split.
    + intros ->. reflexivity.
    + intros items ->. reflexivity.
Qed.

Lemma load_entries_outcomes_witness :
  files (with_file sample_data_file (bytes_of_string "[{]") sample_world) !! sample_data_file
    = Some (bytes_of_string "[{]") /\
  decode_text (bytes_of_string "[{]") = Ok (bytes_of_string "[{]") /\
  within_decoder_limits (bytes_of_string "[{]") = true /\
  json_loads (bytes_of_string "[{]") = Raise JSONDecodeError /\
  Cli.load_entries sample_data_file
    (with_file sample_data_file (bytes_of_string "[{]") sample_world)
  = (Ok [], reported "Error al leer el archivo de datos."
              (with_file sample_data_file (bytes_of_string "[{]") sample_world)).
Proof.
  assert (H1 : files (with_file sample_data_file (bytes_of_string "[{]") sample_world)
               !! sample_data_file = Some (bytes_of_string "[{]"))
    by (vm_compute; reflexivity).
  assert (H2 : decode_text (bytes_of_string "[{]") = Ok (bytes_of_string "[{]"))
    by (vm_compute; reflexivity).
  assert (H3 : json_loads (bytes_of_string "[{]") = Raise JSONDecodeError)
    by (vm_compute; reflexivity).
  assert (H4 : within_decoder_limits (bytes_of_string "[{]") = true)
    by (vm_compute; reflexivity).
  split; [exact H1 | split; [exact H2 | split; [exact H4 | split; [exact H3 |]]]].
  exact (proj1 (proj1 (proj2 (proj2 (load_entries_outcomes sample_data_file sample_dir
                  sample_repr _))) _ _ H1 H2 H4) H3).
Defined.

(** C3 as stated fails: on a file that holds the JSON object [{}], which is
    no list of records, [load_entries] of the command line tool raises
    [ValueError] to its caller; on the number [42] the dataclass tool raises
    [TypeError]. *)
Lemma load_entries_raises_on_a_non_list :
  json_loads (bytes_of_string "{}") = Ok (JDict []) /\
  fst (Cli.load_entries sample_data_file
         (with_file sample_data_file (bytes_of_string "{}") sample_world))
  = Raise ValueError /\
  fst (Visual.load_entries sample_dir sample_repr
         (with_file (Visual.DATA_FILE sample_dir) (bytes_of_string "42") sample_world))
  = Raise TypeError.
Proof. repeat split; vm_compute; reflexivity. Qed.


(** ** Selecting and removing a record *)

Lemma show_entries_world (entries : list Cli.Entry) (w : world) :
  snd (Cli.show_entries entries w) = w.
Proof.
  induction entries as [|entry rest IH]; [reflexivity|].
  cbn [Cli.show_entries]. unfold bindM, lift.
  destruct (Cli.getitem entry "site"); [|reflexivity].
  destruct (Cli.getitem entry "username"); [|reflexivity].
  apply IH.
Qed.



(** The loop of [choose_entry] never runs out of fuel: with more fuel than
    lines left to read, how much more does not matter. *)
Lemma chosen_index_world (entries : list Visual.Entry) (choice : str) (w : world) :
  snd (Visual.chosen_index entries choice w) = w.
Proof.
  unfold Visual.chosen_index. destruct (isdigit choice); [|reflexivity].
  unfold bindM, lift. destruct (int_of_str choice); [|reflexivity].
  cbv zeta. destruct (_ && _); reflexivity.
Qed.

(** One turn of the loop of [choose_entry]. *)
Lemma choose_loop_step (entries : list Visual.Entry) (fuel : nat) (choice : str)
    (f : gmap path bytes) (rest : list str) (o : list string) (t : nat) (c : nat -> str) :
  Visual.choose_loop (S fuel) entries (World f (choice :: rest) o t c)
  = match choice with
    | [] => (Ok None, World f rest o t c)
    | _ =>
        match Visual.chosen_index entries choice (World f rest o t c) with
        | (Ok (Some index), w1) => (Ok (Some index), w1)
        | (Ok None, w1) =>
            Visual.choose_loop fuel entries (reported "Selección inválida." w1)
        | (Raise e, w1) => (Raise e, w1)
        end
    end.
Proof.
  destruct choice as [|ch choice']; [reflexivity|].
  cbn [Visual.choose_loop]. unfold bindM at 1. unfold input at 1. cbn [stdin].
  unfold bindM at 1.
  destruct (Visual.chosen_index entries (ch :: choice') _) as [[[index|]|e] w1];
    reflexivity.
Qed.

Lemma choose_loop_fuel (entries : list Visual.Entry) :
  forall (fuel fuel' : nat) (w : world),
    (length (stdin w) < fuel)%nat -> (length (stdin w) < fuel')%nat ->
    Visual.choose_loop fuel entries w = Visual.choose_loop fuel' entries w.
Proof.
  induction fuel as [|fuel IH]; intros fuel' w Hf Hf'; [lia|].
  destruct fuel' as [|fuel']; [lia|].
  destruct w as [f i o t c]. cbn [stdin] in *.
  destruct i as [|choice rest]; [reflexivity|].
  cbn [length] in Hf, Hf'. rewrite !choose_loop_step.
  destruct choice as [|ch choice']; [reflexivity|].
  pose proof (chosen_index_world entries (ch :: choice') (World f rest o t c)) as Hw.
  destruct (Visual.chosen_index entries (ch :: choice') (World f rest o t c))
    as [[[index|]|e] w1]; cbn [snd] in Hw; subst w1; try reflexivity.
  apply IH; cbn [stdin reported]; lia.
Qed.








(** ** Listing *)

(** The loop of [list_entries] gives one row per record, whatever the
    decryption raises: the row of a record that cannot be decrypted shows the
    error in place of the password. *)
Lemma list_rows_total (iso_display : str -> result str) (filtered : list Cli.Entry)
    (admin_password : str) :
  (forall v e, iso_display v = Raise e -> e = ValueError) ->
  Forall (fun entry =>
            exists s u d, Cli.getitem entry "site" = Ok s /\
                          Cli.getitem entry "username" = Ok u /\
                          Cli.getitem entry "updated_at" = Ok (JStr d)) filtered ->
  forall idx, exists rows,
    Cli.list_rows iso_display idx filtered admin_password = Ok rows /\
    Forall2 (fun entry r =>
               Cli.row_password r =
               match Cli.decrypt_field entry admin_password with
               | Ok p => p
               | Raise _ => decryption_error
               end) filtered rows.
Proof.
  intros Hiso Hall. induction Hall as [|entry rest (s & u & d & Es & Eu & Ed) _ IH];
    intros idx.
  - exists []. split; [reflexivity | constructor].
  - destruct (IH (idx + 1)) as (rows & Er & Hr).
    cbn [Cli.list_rows]. rewrite Es, Eu, Ed. cbn [bind Cli.format_datetime].
    destruct (iso_display d) as [t|e] eqn:Ei.
    + cbn [bind]. rewrite Er. cbn [bind]. eexists. split; [reflexivity|].
      constructor; [reflexivity | exact Hr].
    + rewrite (Hiso d e Ei). cbn [bind]. rewrite Er. cbn [bind].
      eexists. split; [reflexivity|]. constructor; [reflexivity | exact Hr].
Qed.

(** The loop of [view_entries] has no such guard: a record that cannot be
    decrypted ends it with the exception, whatever the other records are. *)
Lemma view_rows_raises (iso_display : str -> result str) (ordered : list Visual.Entry)
    (admin_password : str) (entry : Visual.Entry) (e : exn) :
  In entry ordered ->
  decrypt_password (Visual.password_encrypted entry) admin_password = Raise e ->
  exists e', Visual.view_rows iso_display ordered admin_password = Raise e'.
Proof.
  intros Hin He. induction ordered as [|first rest IH]; [destruct Hin|].
  cbn [Visual.view_rows].
  destruct (decrypt_password (Visual.password_encrypted first) admin_password)
    as [p|e1] eqn:E1; cbn [bind]; [|eauto].
  destruct (iso_display (Visual.updated_at first)) as [t|e2]; cbn [bind]; [|eauto].
  destruct Hin as [-> | Hin]; [congruence|].
  destruct (IH Hin) as (e' & ->). cbn [bind]. eauto.
Qed.

(** C4 on the failing input.  The vault holds a record whose ciphertext is
    the single character [A] and a record that decrypts to [secreto].  The
    command line tool lists both, the first with the error in its password
    cell; in the dataclass tool the decryption raises and no row is made. *)
Theorem view_rows_aborts_where_list_rows_reports :
  rmap (map Cli.row_password)
       (Cli.list_rows sample_iso_display 1
          [dict_of_record broken_record; dict_of_record built_record] sample_secret)
  = Ok [decryption_error; bytes_of_string "secreto"] /\
  Visual.view_rows sample_iso_display [broken_record; built_record] sample_secret
  = Raise BinasciiError /\
  Visual.view_rows sample_iso_display [built_record] sample_secret
  = Ok [[bytes_of_string "correo"; bytes_of_string "ana"; bytes_of_string "secreto";
         bytes_of_string "2024-06-01T12:00"]].
Proof. repeat split; vm_compute; reflexivity. Qed.


(** ** Migration of the legacy file *)

Lemma strip_prefix_app (label value : str) : strip_prefix label (label ++ value) = Some value.
Proof.
  induction label as [|a label IH]; cbn [strip_prefix app].
  - destruct value; reflexivity.
  - rewrite Z.eqb_refl. exact IH.
Qed.

Lemma strip_prefix_Some (label s rest : str) :
  strip_prefix label s = Some rest -> s = label ++ rest.
Proof.
  revert s. induction label as [|a label IH]; intros s; cbn [strip_prefix].
  - destruct s; intros [= <-]; reflexivity.
  - destruct s as [|b s]; [discriminate|].
    destruct (Z.eqb_spec a b) as [->|]; [|discriminate].
    intros H. rewrite (IH _ H). reflexivity.
Qed.

Lemma label_free_tail (label : str) (c : Z) (value : str) :
  label_free label (c :: value) -> label_free label value.
Proof. intros H pre post ->. exact (H (c :: pre) post eq_refl). Qed.

(** A value without the label is left as it is by [replace]. *)
Lemma replace_from_label_free (label value : str) (fuel : nat) :
  label_free label value -> replace_from fuel label [] value = value.
Proof.
  revert value. induction fuel as [|fuel IH]; intros value Hfree; [reflexivity|].
  cbn [replace_from]. destruct value as [|c value]; [reflexivity|].
  destruct (strip_prefix label (c :: value)) as [rest|] eqn:E.
  - apply strip_prefix_Some in E. exfalso. exact (Hfree [] rest E).
  - rewrite (IH value (label_free_tail _ _ _ Hfree)). reflexivity.
Qed.

(** [replace] takes the label off a labelled line and leaves a bare one. *)
Lemma replace_labelled (label value line : str) :
  label <> [] -> labelled label value line -> replace line label [] = value.
Proof.
  intros Hne [[-> | ->] Hfree]; unfold replace.
  - destruct label as [|a label]; [congruence|].
    cbn [app length replace_from].
    change (a :: label ++ value) with ((a :: label) ++ value).
    rewrite strip_prefix_app. cbn [app].
    apply replace_from_label_free, Hfree.
  - apply replace_from_label_free, Hfree.
Qed.

Lemma encodable_app (a b : str) : encodable a -> encodable b -> encodable (a ++ b).
Proof. intros Ha Hb. apply Forall_app. split; assumption. Qed.

Lemma encodable_ascii (s : str) : Forall is_ascii s -> encodable s.
Proof.
  intros H. eapply Forall_impl; [exact H|].
  intros c Hc. unfold is_ascii in Hc. unfold scalarb.
  repeat zcase; reflexivity.
Qed.

Lemma encodable_lstrip (s : str) : encodable s -> encodable (lstrip s).
Proof.
  induction 1 as [|c s Hc Hs IH]; cbn [lstrip]; [constructor|].
  destruct (isspace c); [exact IH | constructor; assumption].
Qed.

Lemma encodable_rev (s : str) : encodable s -> encodable (List.rev s).
Proof. apply List.Forall_rev. Qed.

Lemma encodable_strip (s : str) : encodable s -> encodable (strip s).
Proof.
  intros H. unfold strip, rstrip.
  apply encodable_rev, encodable_lstrip, encodable_rev, encodable_lstrip, H.
Qed.

Lemma hex_digit_ascii (n : Z) : 0 <= n < 16 -> is_ascii (hex_digit n).
Proof. intros H. unfold hex_digit, is_ascii. zcase; lia. Qed.

Lemma hexdigest_ascii (d : bytes) : Forall is_byte d -> Forall is_ascii (hexdigest d).
Proof.
  unfold hexdigest. induction 1 as [|b d Hb _ IH]; cbn [flat_map]; [constructor|].
  unfold is_byte in Hb.
  constructor; [apply hex_digit_ascii; dlia|].
  constructor; [apply hex_digit_ascii; dlia|]. exact IH.
Qed.

Lemma hash_text_encodable (p h : str) : hash_text p = Ok h -> encodable h.
Proof.
  unfold hash_text. destruct (utf8_encode p) as [b|]; [|discriminate]. cbn [bind].
  intros H. assert (h = hexdigest (sha256 b)) as -> by congruence.
  apply encodable_ascii, hexdigest_ascii, sha256_bytes.
Qed.

Lemma utf8_decode_ascii_inv (s : bytes) (t : str) :
  Forall is_ascii s -> utf8_decode s = Ok t -> t = s.
Proof. intros H. rewrite (utf8_decode_ascii s H). congruence. Qed.

Lemma encrypt_password_encodable (p s c : str) :
  encrypt_password p s = Ok c -> encodable c.
Proof.
  unfold encrypt_password, _derive_xor_key.
  destruct (utf8_encode s) as [ks|] eqn:Es; [|discriminate]. cbn [bind].
  destruct (utf8_encode p) as [data|] eqn:Ep; [|discriminate]. cbn [bind].
  intros H.
  assert (Hb : Forall is_byte data).
  { destruct (utf8_encode_ok p (utf8_encode_encodable _ _ Ep)) as (b & Eb & Bb & _).
    congruence. }
  pose proof (urlsafe_b64encode_ascii _
                (xor_stream_bytes (sha256 ks) data 0 (sha256_bytes ks) Hb)) as Ha.
  rewrite (utf8_decode_ascii _ Ha) in H.
  assert (c = urlsafe_b64encode (xor_stream (sha256 ks) 0 data)) as -> by congruence.
  apply encodable_ascii, Ha.
Qed.

Lemma escape_char_encodable (c : Z) : scalarb c = true -> encodable (escape_char c).
Proof.
  intros Hc. pose proof (scalarb_range c Hc) as [Hr _]. unfold escape_char.
  repeat zcase; cbn [andb]; try (apply encodable_forallb; reflexivity).
  - apply encodable_ascii. unfold hex_lower, is_ascii.
    repeat constructor; try lia; repeat zcase; dlia.
  - constructor; [exact Hc | constructor].
Qed.

Lemma encode_basestring_encodable (s : str) : encodable s -> encodable (encode_basestring s).
Proof.
  intros H. unfold encode_basestring.
  apply encodable_app; [apply encodable_forallb; reflexivity|].
  apply encodable_app; [|apply encodable_forallb; reflexivity].
  induction H as [|c s Hc _ IH]; cbn [flat_map]; [constructor|].
  apply encodable_app; [apply escape_char_encodable, Hc | exact IH].
Qed.


Lemma encodable_newline_indent (level : nat) : encodable (newline_indent level).
Proof.
  unfold newline_indent. constructor; [reflexivity|].
  induction (2 * level)%nat; cbn [repeat]; constructor; [reflexivity | assumption].
Qed.

Lemma encodable_join (sep : str) (parts : list str) :
  encodable sep -> Forall encodable parts -> encodable (join sep parts).
Proof.
  intros Hs. induction 1 as [|x parts Hx Hp IH]; [constructor|].
  cbn [join]. destruct parts as [|y parts]; [exact Hx|].
  apply encodable_app; [exact Hx | apply encodable_app; [exact Hs | exact IH]].
Qed.

Lemma json_dumps_records_encodable (ds : list (list (str * json))) :
  Forall fields_encodable ds -> encodable (json_dumps (JList (map JDict ds))).
Proof.
  intros Hds. unfold json_dumps.
  assert (Hitems : Forall encodable (map (json_dumps_at 1) (map JDict ds))).
  { induction Hds as [|d ds Hd _ IH]; [constructor|].
    cbn [map]. constructor; [|exact IH].
    assert (Hf : Forall encodable
                   (map (fun kv => encode_basestring (fst kv) ++ [58; 32]
                                   ++ json_dumps_at 2 (snd kv)) d)).
    { induction Hd as [|[k v] d (Hk & s & Hv & Hs) _ IHd]; [constructor|].
      cbn [fst snd] in Hk, Hv. subst v.
      cbn [map fst snd json_dumps_at]. constructor; [|exact IHd].
      apply encodable_app; [apply encode_basestring_encodable, Hk|].
      apply encodable_app; [apply encodable_forallb; reflexivity|].
      apply encode_basestring_encodable, Hs. }
    destruct d as [|kv d]; [apply encodable_forallb; reflexivity|].
    cbn [json_dumps_at].
    apply encodable_app; [apply encodable_forallb; reflexivity|].
    apply encodable_app; [apply encodable_newline_indent|].
    apply encodable_app;
      [apply encodable_join; [constructor; [reflexivity | apply encodable_newline_indent] | exact Hf]|].
    apply encodable_app; [apply encodable_newline_indent | apply encodable_forallb; reflexivity]. }
  destruct ds as [|d ds]; [apply encodable_forallb; reflexivity|].
  cbn [map json_dumps_at] in *.
  apply encodable_app; [apply encodable_forallb; reflexivity|].
  apply encodable_app; [apply encodable_newline_indent|].
  apply encodable_app;
    [apply encodable_join; [constructor; [reflexivity | apply encodable_newline_indent] | exact Hitems]|].
  apply encodable_app; [apply encodable_newline_indent | apply encodable_forallb; reflexivity].
Qed.

Lemma write_text_ok (p : path) (text : str) (w : world) :
  encodable text ->
  exists raw, utf8_encode text = Ok raw /\
              write_text p text w = (Ok tt, set_files (<[p := raw]> (files w)) w).
Proof.
  intros H. destruct (utf8_encode_ok text H) as (raw & E & _).
  exists raw. split; [exact E|]. unfold write_text. rewrite E. reflexivity.
Qed.

(** The record [build_entry] returns is made of texts UTF-8 can encode. *)
Lemma built_fields_encodable (site username h c t : str) :
  encodable site -> encodable username -> encodable h -> encodable c -> encodable t ->
  fields_encodable
    [(bytes_of_string "site", JStr (strip site));
     (bytes_of_string "username", JStr (strip username));
     (bytes_of_string "password_hash", JStr h);
     (bytes_of_string "password_encrypted", JStr c);
     (bytes_of_string "created_at", JStr t);
     (bytes_of_string "updated_at", JStr t)].
Proof.
  intros Hs Hu Hh Hc Ht.
  repeat (constructor;
          [split; [apply encodable_forallb; reflexivity
                  | eexists; split; [reflexivity | try apply encodable_strip; assumption]] |]).
  constructor.
Qed.

Lemma elem_of_fromkeys_from {A} `{EqDecision A} (x : A) (items : list A) :
  forall seen, x ∈ fromkeys_from seen items -> x ∈ items.
Proof.
  induction items as [|y items IH]; intros seen; cbn [fromkeys_from]; [trivial|].
  destruct (bool_decide (y ∈ seen)).
  - intros H1. apply elem_of_cons. right. exact (IH _ H1).
  - rewrite !elem_of_cons. intros [->|H1]; [left; reflexivity | right; exact (IH _ H1)].
Qed.

Lemma find_legacy_suffix (DATA_FILE : path) (BASE_DIR CWD : string) (w : world) (legacy : path) :
  fst (Cli._find_legacy_file DATA_FILE BASE_DIR CWD w) = Ok (Some legacy) ->
  suffix legacy = ".txt"%string /\ is_Some (files w !! legacy).
Proof.
  intros H0.
  assert (H : List.find (fun candidate => bool_decide (is_Some (files w !! candidate)))
                        (Cli.LEGACY_FILE_CANDIDATES DATA_FILE BASE_DIR CWD) = Some legacy).
  { apply (f_equal (fun r => match r with Ok x => x | Raise _ => None end)) in H0.
    exact H0. }
  clear H0. apply List.find_some in H as [Hin Hp].
  split; [|apply bool_decide_eq_true in Hp; exact Hp].
  apply list_elem_of_In in Hin. unfold Cli.LEGACY_FILE_CANDIDATES, fromkeys in Hin.
  apply elem_of_fromkeys_from in Hin. unfold Cli._legacy_file_candidates in Hin.
  rewrite !elem_of_cons, elem_of_nil in Hin.
  destruct Hin as [-> | [-> | [-> | []]]]; reflexivity.
Qed.

Lemma find_legacy_run (DATA_FILE : path) (BASE_DIR CWD : string) (w : world) (legacy : path) :
  fst (Cli._find_legacy_file DATA_FILE BASE_DIR CWD w) = Ok (Some legacy) ->
  Cli._find_legacy_file DATA_FILE BASE_DIR CWD w = (Ok (Some legacy), w).
Proof.
  intros H. unfold Cli._find_legacy_file in *. unfold fst in H. rewrite H. reflexivity.
Qed.


(** ** The store file, written and read back *)

Lemma bindM_ok {A B} (m : M A) (k : A -> M B) (w w' : world) (a : A) :
  m w = (Ok a, w') -> bindM m k w = k a w'.
Proof. intros H. unfold bindM. rewrite H. reflexivity. Qed.

Lemma hex_lower_value (n : Z) : 0 <= n < 16 -> hex_value (hex_lower n) = Some n.
Proof.
  intros H. unfold hex_lower, hex_value.
  repeat zcase; cbn [andb]; f_equal; lia.
Qed.

Lemma hex4_control (c : Z) :
  0 <= c < 32 -> hex4 48 48 (hex_lower (c / 16)) (hex_lower (c mod 16)) = Some c.
Proof.
  intros H. unfold hex4. change (hex_value 48) with (Some 0).
  rewrite !hex_lower_value by dlia. f_equal. dlia.
Qed.

(** What [escape_char] writes for a character, [scanstring] reads as it. *)
Lemma scanstring_escape_char (c : Z) (r : str) :
  0 <= c ->
  scanstring (escape_char c ++ r) = cons_fst c (scanstring r).
Proof.
  intros Hc. unfold escape_char.
  repeat zcase; cbn [andb app]; try (subst c; reflexivity).
  - cbn [scanstring]. rewrite hex4_control by lia.
    repeat zcase; cbn [andb]; reflexivity.
  - cbn [scanstring]. repeat zcase; reflexivity.
Qed.

Lemma scanstring_escaped (s rest : str) :
  text_ok s -> scanstring (flat_map escape_char s ++ 34 :: rest) = Some (s, rest).
Proof.
  induction 1 as [|c s Hc _ IH]; [reflexivity|].
  cbn [flat_map]. rewrite <- app_assoc, (scanstring_escape_char c _ Hc), IH. reflexivity.
Qed.

Lemma skip_ws_indent (level : nat) (r : str) :
  skip_ws (newline_indent level ++ r) = skip_ws r.
Proof.
  unfold newline_indent. cbn [app skip_ws].
  change (is_ws 10) with true. cbv iota.
  induction (2 * level)%nat as [|n IH]; [reflexivity|].
  cbn [repeat app skip_ws]. change (is_ws 32) with true. exact IH.
Qed.

Lemma join_cons (sep x : str) (l : list str) :
  join sep (x :: l) = x ++ flat_map (fun y => sep ++ y) l.
Proof.
  revert x. induction l as [|y l IH]; intros x.
  - cbn [join flat_map]. rewrite app_nil_r. reflexivity.
  - change (join sep (x :: y :: l)) with (x ++ sep ++ join sep (y :: l)).
    rewrite (IH y). cbn [flat_map]. rewrite <- app_assoc. reflexivity.
Qed.

(** A string value, read back from its opening quote. *)
Lemma scan_once_string (fuel : nat) (s rest : str) :
  text_ok s ->
  scan_once (S fuel) (34 :: flat_map escape_char s ++ 34 :: rest) = Some (JStr s, rest).
Proof.
  intros Hs. cbn [scan_once]. change (34 =? 34) with true. cbv iota.
  rewrite (scanstring_escaped s rest Hs). reflexivity.
Qed.

Lemma member_text_app (level : nat) (k s cont : str) :
  member_text level (k, JStr s) ++ cont =
  34 :: flat_map escape_char k ++ 34 :: 58 :: 32 :: 34 :: flat_map escape_char s ++ 34 :: cont.
Proof.
  unfold member_text, encode_basestring. cbn [fst snd json_dumps_at].
  repeat first [rewrite <- app_assoc | progress cbn [app] | progress unfold encode_basestring]. reflexivity.
Qed.

Lemma skip_ws_cons (c : Z) (r : str) :
  skip_ws (c :: r) = if is_ws c then skip_ws r else c :: r.
Proof. reflexivity. Qed.

(** White space skipped before a known character. *)
Ltac skip :=
  repeat match goal with
         | |- context [skip_ws (?c :: ?r)] =>
             let b := eval vm_compute in (is_ws c) in
             match b with
             | true => change (skip_ws (c :: r)) with (skip_ws r)
             | false => change (skip_ws (c :: r)) with (c :: r)
             end; cbv beta iota
         end.

Lemma parse_object_eq (f : nat) (s : str) :
  parse_object (S f) s =
  match scanstring s with
  | None => None
  | Some (k, r) =>
      match skip_ws r with
      | 58 :: r1 =>
          match scan_once f (skip_ws r1) with
          | None => None
          | Some (v, r2) =>
              match skip_ws r2 with
              | 125 :: r3 => Some ([(k, v)], r3)
              | 44 :: r3 =>
                  match skip_ws r3 with
                  | 34 :: r4 =>
                      match parse_object f r4 with
                      | Some (d, r5) => Some ((k, v) :: d, r5)
                      | None => None
                      end
                  | _ => None
                  end
              | _ => None
              end
          end
      | _ => None
      end
  end.
Proof. reflexivity. Qed.

(** One member of an object, read from the character after the quote that
    opens its key. *)
Lemma parse_object_member (fuel : nat) (k s cont : str) :
  text_ok k -> text_ok s ->
  parse_object (S (S fuel))
    (flat_map escape_char k ++ 34 :: 58 :: 32 :: 34 :: flat_map escape_char s ++ 34 :: cont) =
  match skip_ws cont with
  | 125 :: r3 => Some ([(k, JStr s)], r3)
  | 44 :: r3 =>
      match skip_ws r3 with
      | 34 :: r4 =>
          match parse_object (S fuel) r4 with
          | Some (d, r5) => Some ((k, JStr s) :: d, r5)
          | None => None
          end
      | _ => None
      end
  | _ => None
  end.
Proof.
  intros Hk Hs. rewrite (parse_object_eq (S fuel)), (scanstring_escaped k _ Hk).
  skip. rewrite (scan_once_string fuel s cont Hs). reflexivity.
Qed.

(** The members of an object, read back up to its closing brace. *)
Lemma parse_object_members (level level' : nat) (rest : str) (d : list (str * json)) :
  forall (k s : str) (fuel : nat),
    text_ok k -> text_ok s ->
    Forall (fun kv => text_ok (fst kv) /\ exists s, snd kv = JStr s /\ text_ok s) d ->
    (length d + 1 < fuel)%nat ->
    parse_object fuel
      (flat_map escape_char k ++ 34 :: 58 :: 32 :: 34 :: flat_map escape_char s ++ 34 ::
       flat_map (fun y => (44 :: newline_indent level) ++ y) (map (member_text level) d)
       ++ newline_indent level' ++ 125 :: rest)
    = Some ((k, JStr s) :: d, rest).
Proof.
  induction d as [|[k' v'] d IH]; intros k s fuel Hk Hs Hd Hfuel;
    (destruct fuel as [|[|fuel]]; [cbn in Hfuel; lia | cbn in Hfuel; lia |]);
    rewrite (parse_object_member fuel k s _ Hk Hs).
  - cbn [map flat_map app]. rewrite skip_ws_indent. reflexivity.
  - apply Forall_cons_1 in Hd as [(Hk' & s' & Hv' & Hs') Hd]. cbn [fst snd] in *. subst v'.
    cbn [map flat_map]. rewrite <- !app_assoc. cbn [app]. skip.
    rewrite skip_ws_indent, member_text_app. skip.
    assert (E := IH k' s' (S fuel) Hk' Hs' Hd ltac:(cbn [length] in *; lia)).
    cbn [app] in E. rewrite E. reflexivity.
Qed.

Lemma dict_set_fresh (d : list (str * json)) (k : str) (v : json) :
  ~ In k (map fst d) -> dict_set d k v = d ++ [(k, v)].
Proof.
  induction d as [|[k0 v0] d IH]; intros Hn; cbn [dict_set app]; [reflexivity|].
  destruct (str_eqb k0 k) eqn:E.
  - apply str_eqb_eq in E. subst k0. exfalso. apply Hn. left. reflexivity.
  - rewrite IH; [reflexivity|]. intros Hin. apply Hn. right. exact Hin.
Qed.

Lemma dict_of_pairs_nodup (d : list (str * json)) :
  NoDup (map fst d) -> dict_of_pairs d = d.
Proof.
  unfold dict_of_pairs.
  assert (H : forall acc, NoDup (map fst (acc ++ d)) ->
                          fold_left (fun a kv => dict_set a (fst kv) (snd kv)) d acc = acc ++ d).
  { induction d as [|[k v] d IH]; intros acc Hnd; cbn [fold_left fst snd].
    - rewrite app_nil_r. reflexivity.
    - rewrite dict_set_fresh.
      + rewrite IH; rewrite <- app_assoc; [reflexivity | exact Hnd].
      + rewrite map_app in Hnd. apply NoDup_app in Hnd as (_ & Hnd & _).
        intros Hin. apply list_elem_of_In in Hin. apply (Hnd k Hin).
        cbn [map fst]. apply elem_of_cons. left. reflexivity. }
  intros Hnd. apply (H [] Hnd).
Qed.

Lemma scan_once_brace (f : nat) (r : str) :
  scan_once (S f) (123 :: r) =
  match skip_ws r with
  | 125 :: r' => Some (JDict [], r')
  | 34 :: r' =>
      match parse_object f r' with
      | Some (d, r'') => Some (JDict (dict_of_pairs d), r'')
      | None => None
      end
  | _ => None
  end.
Proof. reflexivity. Qed.

Lemma parse_array_eq (f : nat) (s : str) :
  parse_array (S f) s =
  match scan_once f s with
  | None => None
  | Some (v, r) =>
      match skip_ws r with
      | 93 :: r' => Some ([v], r')
      | 44 :: r' =>
          match parse_array f (skip_ws r') with
          | Some (vs, r'') => Some (v :: vs, r'')
          | None => None
          end
      | _ => None
      end
  end.
Proof. reflexivity. Qed.

Lemma json_dumps_record (level : nat) (kv : str * json) (d : list (str * json)) :
  json_dumps_at level (JDict (kv :: d)) =
  123 :: newline_indent (S level)
  ++ join (44 :: newline_indent (S level)) (map (member_text (S level)) (kv :: d))
  ++ newline_indent level ++ [125].
Proof. reflexivity. Qed.

Lemma json_dumps_list (level : nat) (v : json) (l : list json) :
  json_dumps_at level (JList (v :: l)) =
  91 :: newline_indent (S level)
  ++ join (44 :: newline_indent (S level)) (map (json_dumps_at (S level)) (v :: l))
  ++ newline_indent level ++ [93].
Proof. reflexivity. Qed.

(** A record with a member, read back from the text [json.dumps] gives it. *)
Lemma scan_once_record (level fuel : nat) (d : list (str * json)) (rest : str) :
  record_ok d -> d <> [] -> (length d + 2 < fuel)%nat ->
  scan_once fuel (json_dumps_at level (JDict d) ++ rest) = Some (JDict d, rest).
Proof.
  intros [Hd Hnd] Hne Hfuel. destruct d as [|[k v] d]; [congruence|].
  destruct fuel as [|fuel]; [lia|].
  pose proof Hd as Hd'. apply Forall_cons_1 in Hd' as [(Hk & s & Hv & Hs) Hd'].
  cbn [fst snd] in Hk, Hv. subst v.
  rewrite json_dumps_record. cbn [map]. rewrite join_cons.
  repeat first [rewrite <- app_assoc | progress cbn [app]].
  rewrite scan_once_brace, skip_ws_indent, member_text_app. skip.
  assert (E := parse_object_members (S level) level rest d k s fuel Hk Hs Hd'
                 ltac:(cbn [length] in Hfuel; lia)).
  cbn [app] in E. rewrite E, (dict_of_pairs_nodup _ Hnd). reflexivity.
Qed.

(** The items of an array of such records, read back up to its bracket. *)
Lemma parse_array_records (level level' : nat) (rest : str) (ds : list (list (str * json))) :
  forall (d : list (str * json)) (fuel : nat),
    Forall (fun d => record_ok d /\ d <> []) (d :: ds) ->
    (length (concat (d :: ds)) + length ds + 3 < fuel)%nat ->
    parse_array fuel
      (json_dumps_at level (JDict d)
       ++ flat_map (fun y => (44 :: newline_indent level) ++ y)
            (map (json_dumps_at level) (map JDict ds))
       ++ newline_indent level' ++ 93 :: rest)
    = Some (map JDict (d :: ds), rest).
Proof.
  induction ds as [|d' ds IH]; intros d fuel Hds Hfuel;
    apply Forall_cons_1 in Hds as [[Hd Hne] Hds];
    cbn [concat length] in Hfuel; rewrite length_app in Hfuel;
    (destruct fuel as [|fuel]; [lia|]);
    rewrite parse_array_eq, (scan_once_record level fuel d _ Hd Hne) by lia.
  - cbn [map flat_map app]. rewrite skip_ws_indent. skip. reflexivity.
  - cbn [map flat_map]. rewrite <- !app_assoc. cbn [app]. skip.
    rewrite skip_ws_indent.
    assert (E := IH d' fuel Hds ltac:(cbn [concat length]; lia)).
    cbn [app] in E.
    replace (skip_ws (json_dumps_at level (JDict d') ++
                      flat_map (fun y => 44 :: newline_indent level ++ y)
                        (map (json_dumps_at level) (map JDict ds)) ++
                      newline_indent level' ++ 93 :: rest))
      with (json_dumps_at level (JDict d') ++
            flat_map (fun y => 44 :: newline_indent level ++ y)
              (map (json_dumps_at level) (map JDict ds)) ++
            newline_indent level' ++ 93 :: rest).
    + rewrite E. reflexivity.
    + apply Forall_cons_1 in Hds as [[_ Hne'] _].
      destruct d' as [|kv d']; [congruence|]. rewrite json_dumps_record.
      cbn [app]. reflexivity.
Qed.

Lemma join_length (sep : str) (parts : list str) :
  (length (concat parts) <= length (join sep parts))%nat.
Proof.
  destruct parts as [|x parts]; [reflexivity|]. rewrite join_cons.
  cbn [concat]. rewrite !length_app. apply Nat.add_le_mono_l.
  induction parts as [|y parts IH]; [reflexivity|].
  cbn [concat flat_map]. rewrite !length_app. lia.
Qed.

Lemma record_text_length (level : nat) (d : list (str * json)) :
  (length d + 1 <= length (json_dumps_at level (JDict d)))%nat.
Proof.
  destruct d as [|kv d]; [cbn; lia|]. rewrite json_dumps_record.
  cbn [length]. rewrite !length_app.
  pose proof (join_length (44 :: newline_indent (S level))
                (map (member_text (S level)) (kv :: d))) as Hj.
  assert (Hc : forall l, (length l <= length (concat (map (member_text (S level)) l)))%nat).
  { induction l as [|x l IH]; [reflexivity|].
    cbn [map concat]. rewrite length_app. unfold member_text at 1, encode_basestring at 1.
    cbn [app length]. lia. }
  specialize (Hc (kv :: d)). cbn [length] in Hc. lia.
Qed.

Lemma records_text_length (level : nat) (sep : str) (ds : list (list (str * json))) :
  (length (concat ds) + length ds
   <= length (join sep (map (json_dumps_at level) (map JDict ds))))%nat.
Proof.
  etransitivity; [|apply join_length].
  induction ds as [|d ds IH]; [reflexivity|].
  cbn [map concat length]. rewrite !length_app.
  pose proof (record_text_length level d). lia.
Qed.

(** What [json.dumps] writes for a list of records, each with a member,
    [json.loads] reads back. *)
Lemma json_loads_dumps_records (ds : list (list (str * json))) :
  Forall (fun d => record_ok d /\ d <> []) ds ->
  json_loads (json_dumps (JList (map JDict ds))) = Ok (JList (map JDict ds)).
Proof.
  intros Hds. destruct ds as [|d ds]; [reflexivity|].
  unfold json_dumps. cbn [map]. rewrite json_dumps_list. cbn [map].
  pose proof (records_text_length 1 (44 :: newline_indent 1) (d :: ds)) as Hlen.
  cbn [map] in Hlen. revert Hlen. rewrite join_cons. intros Hlen.
  set (items := json_dumps_at 1 (JDict d)
                ++ flat_map (fun y => (44 :: newline_indent 1) ++ y)
                     (map (json_dumps_at 1) (map JDict ds))) in *.
  unfold json_loads.
  change (91 :: newline_indent 1 ++ items ++ newline_indent 0 ++ [93])
    with (91 :: (newline_indent 1 ++ items ++ newline_indent 0 ++ [93])).
  cbv iota. skip.
  set (text := newline_indent 1 ++ items ++ newline_indent 0 ++ [93]).
  assert (Hfuel : (length (concat (d :: ds)) + length ds + 3
                   < 2 * length (91%Z :: text) + 1)%nat).
  { subst text. cbn [length] in *. rewrite !length_app. lia. }
  replace (2 * length (91%Z :: text) + 2)%nat with (S (2 * length (91%Z :: text) + 1)) by lia.
  set (fuel := (2 * length (91%Z :: text) + 1)%nat) in *.
  assert (E : parse_array fuel (skip_ws text) = Some (map JDict (d :: ds), [])).
  { subst text. rewrite skip_ws_indent. subst items. rewrite <- app_assoc.
    apply Forall_cons_1 in Hds as Hds'. destruct Hds' as [[_ Hne] _].
    replace (skip_ws (json_dumps_at 1 (JDict d) ++
                      flat_map (fun y => (44 :: newline_indent 1) ++ y)
                        (map (json_dumps_at 1) (map JDict ds)) ++
                      newline_indent 0 ++ [93]))
      with (json_dumps_at 1 (JDict d) ++
            flat_map (fun y => (44 :: newline_indent 1) ++ y)
              (map (json_dumps_at 1) (map JDict ds)) ++
            newline_indent 0 ++ [93]).
    - apply (parse_array_records 1 0 [] ds d fuel Hds Hfuel).
    - destruct d as [|kv d]; [congruence|]. rewrite json_dumps_record. reflexivity. }
  assert (Hhead : exists c r, skip_ws text = c :: r /\ c = 123).
  { subst text. rewrite skip_ws_indent. subst items.
    apply Forall_cons_1 in Hds as Hds'. destruct Hds' as [[_ Hne] _].
    destruct d as [|kv d]; [congruence|]. rewrite json_dumps_record.
    cbn [app]. skip. eauto. }
  destruct Hhead as (c & r & Hsk & ->).
  change (scan_once (S fuel) (91 :: text))
    with (match skip_ws text with
          | 93 :: r' => Some (JList [], r')
          | r' =>
              match parse_array fuel r' with
              | Some (l, r'') => Some (JList l, r'')
              | None => None
              end
          end).
  rewrite Hsk in *. cbv iota. rewrite E. reflexivity.
Qed.


Lemma translate_newlines_no_cr (s : str) : no_cr s -> translate_newlines s = s.
Proof.
  induction 1 as [|c s Hc _ IH]; [reflexivity|].
  transitivity (c :: translate_newlines s); [|rewrite IH; reflexivity].
  destruct c as [|p|p]; try reflexivity.
  do 4 (destruct p as [p|p|]; try reflexivity). congruence.
Qed.

Lemma no_cr_app (a b : str) : no_cr a -> no_cr b -> no_cr (a ++ b).
Proof. intros Ha Hb. apply Forall_app. split; assumption. Qed.

Lemma no_cr_escape_char (c : Z) : no_cr (escape_char c).
Proof.
  unfold escape_char, hex_lower.
  repeat zcase; cbn [andb]; repeat constructor; try discriminate; try lia; dlia.
Qed.

Lemma no_cr_encode_basestring (s : str) : no_cr (encode_basestring s).
Proof.
  unfold encode_basestring. apply no_cr_app; [repeat constructor; discriminate|].
  apply no_cr_app; [|repeat constructor; discriminate].
  induction s as [|c s IH]; [constructor|].
  cbn [flat_map]. apply no_cr_app; [apply no_cr_escape_char | exact IH].
Qed.

Lemma no_cr_newline_indent (level : nat) : no_cr (newline_indent level).
Proof.
  unfold newline_indent. constructor; [discriminate|].
  induction (2 * level)%nat; cbn [repeat]; constructor; [discriminate | assumption].
Qed.

Lemma no_cr_join (sep : str) (parts : list str) :
  no_cr sep -> Forall no_cr parts -> no_cr (join sep parts).
Proof.
  intros Hs Hp. destruct Hp as [|x parts Hx Hp]; [constructor|].
  rewrite join_cons. apply no_cr_app; [exact Hx|].
  induction Hp as [|y parts Hy _ IH]; [constructor|].
  cbn [flat_map]. apply no_cr_app; [apply no_cr_app; assumption | exact IH].
Qed.

Lemma no_cr_record (level : nat) (d : list (str * json)) :
  record_ok d -> no_cr (json_dumps_at level (JDict d)).
Proof.
  intros [Hd _]. destruct d as [|kv d]; [repeat constructor; discriminate|].
  rewrite json_dumps_record. constructor; [discriminate|].
  apply no_cr_app; [apply no_cr_newline_indent|].
  apply no_cr_app;
    [|apply no_cr_app; [apply no_cr_newline_indent | repeat constructor; discriminate]].
  apply no_cr_join; [constructor; [discriminate | apply no_cr_newline_indent]|].
  induction Hd as [|[k v] l (_ & s & Hv & _) _ IH]; [constructor|].
  cbn [snd] in Hv. subst v. cbn [map]. constructor; [|exact IH].
  unfold member_text. cbn [fst snd json_dumps_at].
  apply no_cr_app; [apply no_cr_encode_basestring|].
  apply no_cr_app; [repeat constructor; discriminate | apply no_cr_encode_basestring].
Qed.

Lemma no_cr_records (ds : list (list (str * json))) :
  Forall (fun d => record_ok d /\ d <> []) ds ->
  no_cr (json_dumps (JList (map JDict ds))).
Proof.
  intros Hds. unfold json_dumps.
  destruct ds as [|d ds]; [repeat constructor; discriminate|].
  cbn [map]. rewrite json_dumps_list. constructor; [discriminate|].
  apply no_cr_app; [apply no_cr_newline_indent|].
  apply no_cr_app;
    [|apply no_cr_app; [apply no_cr_newline_indent | repeat constructor; discriminate]].
  apply no_cr_join; [constructor; [discriminate | apply no_cr_newline_indent]|].
  change (JDict d :: map JDict ds) with (map JDict (d :: ds)).
  induction Hds as [|d' l [Hd' _] _ IH]; [constructor|].
  cbn [map]. constructor; [apply no_cr_record, Hd' | exact IH].
Qed.

(** The store file [save_entries] writes for such records, read as text and
    parsed: the records. *)
Lemma store_reads_back (ds : list (list (str * json))) (store : bytes) :
  Forall (fun d => record_ok d /\ d <> []) ds ->
  utf8_encode (json_dumps (JList (map JDict ds))) = Ok store ->
  exists text, decode_text store = Ok text /\ json_loads text = Ok (JList (map JDict ds)).
Proof.
  intros Hds Hstore. exists (json_dumps (JList (map JDict ds))).
  split; [|apply json_loads_dumps_records, Hds].
  destruct (utf8_encode_ok _ (utf8_encode_encodable _ _ Hstore)) as (bs & E & _ & D).
  assert (bs = store) as -> by congruence.
  unfold decode_text. rewrite D. cbn [bind].
  rewrite (translate_newlines_no_cr _ (no_cr_records ds Hds)). reflexivity.
Qed.

Lemma encodable_text_ok (s : str) : encodable s -> text_ok s.
Proof.
  intros H. eapply Forall_impl; [exact H|].
  intros c Hc. apply scalarb_range in Hc. lia.
Qed.

Lemma records_of_dicts (ds : list (list (str * json))) : records (map JDict ds) = ds.
Proof.
  unfold records. induction ds as [|d ds IH]; [reflexivity|].
  cbn [map]. cbn [omap list_omap]. fold (@omap list _ json). rewrite IH. reflexivity.
Qed.

Lemma fields_record_ok (d : list (str * json)) :
  fields_encodable d -> NoDup (map fst d) -> record_ok d.
Proof.
  intros Hd Hnd. split; [|exact Hnd].
  eapply Forall_impl; [exact Hd|].
  intros [k v] (Hk & s & Hv & Hs). split; [apply encodable_text_ok, Hk|].
  exists s. split; [exact Hv | apply encodable_text_ok, Hs].
Qed.

(** [load_entries] of the command line tool on the store [save_entries]
    wrote: the records, and nothing else changes. *)
Lemma cli_load_stored (DATA_FILE : path) (w : world) (ds : list Cli.Entry) (store : bytes) :
  files w !! DATA_FILE = Some store ->
  Forall (fun d => record_ok d /\ d <> []) ds ->
  utf8_encode (json_dumps (JList (map JDict ds))) = Ok store ->
  Cli.load_entries DATA_FILE w = (Ok ds, w).
Proof.
  intros Hfile Hds Hstore.
  destruct (store_reads_back ds store Hds Hstore) as (text & Htext & Hloads).
  unfold Cli.load_entries.
  erewrite bindM_ok; [|eapply exists_present, Hfile]. cbn [negb]. cbv beta iota.
  unfold try_except.
  erewrite bindM_ok; [|unfold read_text; rewrite Hfile, Htext; reflexivity].
  erewrite bindM_ok; [|unfold lift; rewrite Hloads; reflexivity].
  cbv beta iota. unfold ret. fold (records (map JDict ds)).
  rewrite records_of_dicts. reflexivity.
Qed.

(** [from_dict] on what [to_dict] gave keeps the two password fields. *)
Lemma from_dicts_to_dict (py_repr : json -> str) (rs : list Visual.Entry) (w : world) :
  exists rs' w',
    Visual.from_dicts py_repr (map Visual.to_dict rs) w = (Ok rs', w') /\
    map Visual.password_encrypted rs' = map Visual.password_encrypted rs /\
    map Visual.password_hash rs' = map Visual.password_hash rs /\
    files w' = files w.
Proof.
  revert w. induction rs as [|r rs IH]; intros w.
  - exists [], w. repeat split.
  - destruct (IH (tick (tick w))) as (rs' & w' & E & Hc & Hh & Hf).
    eexists (_ :: rs'), w'. split; [|split; [|split]].
    + cbn [map Visual.to_dict Visual.from_dicts].
      erewrite bindM_ok; [|reflexivity].
      erewrite bindM_ok; [|exact E]. reflexivity.
    + cbn [map Visual.password_encrypted]. rewrite Hc. reflexivity.
    + cbn [map Visual.password_hash]. rewrite Hh. reflexivity.
    + exact Hf.
Qed.

(** [load_entries] of the dataclass tool on the store [save_entries] wrote:
    as many records, with the password fields they were saved with. *)
Lemma visual_load_stored (BASE_DIR : string) (py_repr : json -> str) (w : world)
    (rs : list Visual.Entry) (store : bytes) :
  files w !! Visual.DATA_FILE BASE_DIR = Some store ->
  Forall (fun r => record_ok (dict_of_record r)) rs ->
  utf8_encode (json_dumps (JList (map Visual.to_dict rs))) = Ok store ->
  exists rs' w',
    Visual.load_entries BASE_DIR py_repr w = (Ok rs', w') /\
    map Visual.password_encrypted rs' = map Visual.password_encrypted rs /\
    map Visual.password_hash rs' = map Visual.password_hash rs /\
    files w' = files w.
Proof.
  intros Hfile Hrs Hstore.
  assert (Hmap : map Visual.to_dict rs = map JDict (map dict_of_record rs)).
  { rewrite map_map. reflexivity. }
  assert (Hds : Forall (fun d => record_ok d /\ d <> []) (map dict_of_record rs)).
  { apply Forall_map. eapply Forall_impl; [exact Hrs|].
    intros r Hr. split; [exact Hr | discriminate]. }
  rewrite Hmap in Hstore.
  destruct (store_reads_back _ store Hds Hstore) as (text & Htext & Hloads).
  destruct (from_dicts_to_dict py_repr rs w) as (rs' & w' & E & Hc & Hh & Hf).
  exists rs', w'. split; [|auto].
  unfold Visual.load_entries.
  erewrite bindM_ok; [|eapply exists_present, Hfile]. cbn [negb]. cbv beta iota.
  erewrite bindM_ok.
  2: { unfold try_except.
       erewrite bindM_ok; [|unfold read_text; rewrite Hfile, Htext; reflexivity].
       erewrite bindM_ok; [|unfold lift; rewrite Hloads; reflexivity].
       reflexivity. }
  cbv beta iota. rewrite <- Hmap. exact E.
Qed.

(** The keys of a record of either tool are six, all different. *)
Lemma entry_keys_nodup :
  NoDup (map bytes_of_string
           ["site"; "username"; "password_hash"; "password_encrypted";
            "created_at"; "updated_at"]%string).
Proof. apply (bool_decide_unpack _). vm_compute. exact I. Qed.


(** ** The two tools on a legacy file *)

Lemma encrypt_ok (p s : str) :
  encodable p -> encodable s -> exists c, encrypt_password p s = Ok c.
Proof.
  intros Hp Hs.
  destruct (encrypt_password_ok p s Hp Hs) as (k & d & _ & _ & _ & _ & _ & E).
  eexists. exact E.
Qed.

Lemma decrypt_field_built (site username h c t secret p : str) :
  decrypt_password c secret = Ok p ->
  Cli.decrypt_field
    [(bytes_of_string "site", JStr site); (bytes_of_string "username", JStr username);
     (bytes_of_string "password_hash", JStr h);
     (bytes_of_string "password_encrypted", JStr c);
     (bytes_of_string "created_at", JStr t); (bytes_of_string "updated_at", JStr t)]
    secret = Ok p.
Proof. intros H. unfold Cli.decrypt_field. cbn. exact H. Qed.

(** The command line tool on a legacy file of two groups of three lines. *)
Lemma cli_migration (DATA_FILE : path) (BASE_DIR CWD : string) (w : world)
    (legacy : path) (raw : bytes) (text : str) (l0 l1 l2 l3 l4 l5 : str)
    (site1 username1 password1 site2 username2 password2 secret : str) :
  files w !! DATA_FILE = None ->
  fst (Cli._find_legacy_file DATA_FILE BASE_DIR CWD w) = Ok (Some legacy) ->
  files w !! legacy = Some raw -> decode_text raw = Ok text ->
  Cli.legacy_lines text = [l0; l1; l2; l3; l4; l5] ->
  labelled Cli.LABEL_SITE site1 l0 -> labelled Cli.LABEL_USERNAME username1 l1 ->
  labelled Cli.LABEL_PASSWORD password1 l2 ->
  labelled Cli.LABEL_SITE site2 l3 -> labelled Cli.LABEL_USERNAME username2 l4 ->
  labelled Cli.LABEL_PASSWORD password2 l5 ->
  Forall encodable [site1; username1; password1; site2; username2; password2; secret] ->
  (forall n, encodable (time_at w n)) ->
  with_suffix legacy ".bak" <> DATA_FILE ->
  exists e1 e2 w',
    Cli.ensure_storage DATA_FILE BASE_DIR CWD secret w = (Ok tt, w') /\
    Cli.load_entries DATA_FILE w' = (Ok [e1; e2], w') /\
    Cli.decrypt_field e1 secret = Ok password1 /\
    Cli.decrypt_field e2 secret = Ok password2 /\
    files w' !! legacy = None.
Proof.
  intros Hnone Hfind Hraw Hdec Hlines L0 L1 L2 L3 L4 L5 Henc Hclock Hbak.
  apply Forall_cons_1 in Henc as [Es1 Henc]. apply Forall_cons_1 in Henc as [Eu1 Henc].
  apply Forall_cons_1 in Henc as [Ep1 Henc]. apply Forall_cons_1 in Henc as [Es2 Henc].
  apply Forall_cons_1 in Henc as [Eu2 Henc]. apply Forall_cons_1 in Henc as [Ep2 Henc].
  apply Forall_cons_1 in Henc as [Esec _].
  destruct (hash_text_ok password1 Ep1) as (h1 & Eh1).
  destruct (hash_text_ok password2 Ep2) as (h2 & Eh2).
  destruct (encrypt_ok password1 secret Ep1 Esec) as (c1 & Ec1).
  destruct (encrypt_ok password2 secret Ep2 Esec) as (c2 & Ec2).
  destruct (find_legacy_suffix _ _ _ _ _ Hfind) as [Hsfx _].
  assert (Hld : legacy <> DATA_FILE) by (intros ->; congruence).
  assert (Hbl : with_suffix legacy ".bak" <> legacy).
  { destruct legacy as [d s x]. cbn in Hsfx. subst x. discriminate. }
  assert (Hlab : Cli.LABEL_SITE <> [] /\ Cli.LABEL_USERNAME <> [] /\ Cli.LABEL_PASSWORD <> []).
  { repeat split; intros H; vm_compute in H; discriminate. }
  destruct Hlab as (Hl1 & Hl2 & Hl3).
  set (e1 := [(bytes_of_string "site", JStr (strip site1));
              (bytes_of_string "username", JStr (strip username1));
              (bytes_of_string "password_hash", JStr h1);
              (bytes_of_string "password_encrypted", JStr c1);
              (bytes_of_string "created_at", JStr (now w));
              (bytes_of_string "updated_at", JStr (now w))]).
  set (e2 := [(bytes_of_string "site", JStr (strip site2));
              (bytes_of_string "username", JStr (strip username2));
              (bytes_of_string "password_hash", JStr h2);
              (bytes_of_string "password_encrypted", JStr c2);
              (bytes_of_string "created_at", JStr (now (tick w)));
              (bytes_of_string "updated_at", JStr (now (tick w)))]).
  assert (Hfields : Forall fields_encodable [e1; e2]).
  { constructor; [|constructor; [|constructor]];
      apply built_fields_encodable; try assumption;
      first [eapply hash_text_encodable; eassumption
            | eapply encrypt_password_encodable; eassumption
            | apply Hclock]. }
  assert (Hdump : encodable (json_dumps (JList (map JDict [e1; e2]))))
    by apply json_dumps_records_encodable, Hfields.
  assert (Hrecords : Forall (fun d => record_ok d /\ d <> []) [e1; e2]).
  { apply Forall_cons_1 in Hfields as [H1 Hfields].
    apply Forall_cons_1 in Hfields as [H2 _].
    constructor; [|constructor; [|constructor]];
      (split; [apply fields_record_ok; [assumption | exact entry_keys_nodup]
              | discriminate]). }
  destruct (write_text_ok DATA_FILE _ (tick (tick w)) Hdump) as (store & Estore & Ewrite).
  assert (Hmig : Cli.migrate [l0; l1; l2; l3; l4; l5] secret w = (Ok [e1; e2], tick (tick w))).
  { cbn [Cli.migrate].
    rewrite (replace_labelled _ _ _ Hl1 L0), (replace_labelled _ _ _ Hl2 L1),
      (replace_labelled _ _ _ Hl3 L2), (replace_labelled _ _ _ Hl1 L3),
      (replace_labelled _ _ _ Hl2 L4), (replace_labelled _ _ _ Hl3 L5).
    erewrite bindM_ok; [|apply build_entry_ok; eassumption].
    erewrite bindM_ok;
      [|erewrite bindM_ok; [|apply build_entry_ok; eassumption]; reflexivity].
    reflexivity. }
  eexists e1, e2, _. split; [|split; [|split; [|split]]].
  - unfold Cli.ensure_storage.
    erewrite bindM_ok; [|apply exists_absent, Hnone]. cbv beta iota.
    erewrite bindM_ok;
      [|apply find_legacy_run, Hfind].
    cbv beta iota.
    erewrite bindM_ok; [|unfold read_text; rewrite Hraw, Hdec; reflexivity].
    rewrite Hlines.
    erewrite bindM_ok; [|exact Hmig].
    erewrite bindM_ok; [|exact Ewrite].
    unfold try_except, rename. cbn [files set_files tick].
    rewrite lookup_insert_ne by congruence. rewrite Hraw. reflexivity.
  - apply (cli_load_stored _ _ _ store); [|exact Hrecords | exact Estore].
    cbn [files set_files tick].
    rewrite lookup_insert_ne by exact Hbak.
    rewrite lookup_delete_ne by exact Hld.
    apply lookup_insert_eq.
  - apply decrypt_field_built, decrypt_of_encrypt; assumption.
  - apply decrypt_field_built, decrypt_of_encrypt; assumption.
  - cbn [files set_files tick].
    rewrite lookup_insert_ne by exact Hbl.
    apply lookup_delete_eq.
Qed.


Lemma split1_colon (label rest : str) :
  ~ In 58 label -> split1 58 (label ++ 58 :: rest) = [label; rest].
Proof.
  induction label as [|c label IH]; intros Hn; cbn [app split1].
  - reflexivity.
  - destruct (Z.eqb_spec c 58) as [->|_]; [exfalso; apply Hn; left; reflexivity|].
    rewrite IH; [reflexivity|]. intros Hin. apply Hn. right. exact Hin.
Qed.

Lemma field_colon_labelled (value line : str) :
  colon_labelled value line -> Visual.field line = Some value.
Proof.
  intros (label & rest & Hn & -> & <-). unfold Visual.field.
  rewrite (split1_colon _ _ Hn). reflexivity.
Qed.

(** The dataclass tool on a legacy file of two groups, a line between. *)
Lemma visual_migration (BASE_DIR : string) (py_repr : json -> str) (v : world)
    (raw : bytes) (text : str)
    (l0 l1 l2 separator l3 l4 l5 : str) (trailing : list str)
    (site1 username1 password1 site2 username2 password2 secret : str) :
  files v !! Visual.DATA_FILE BASE_DIR = None ->
  files v !! Visual.LEGACY_FILE BASE_DIR = Some raw -> decode_text raw = Ok text ->
  splitlines text = [l0; l1; l2; separator; l3; l4; l5] ++ trailing ->
  (length trailing <= 1)%nat ->
  colon_labelled site1 l0 -> colon_labelled username1 l1 -> colon_labelled password1 l2 ->
  colon_labelled site2 l3 -> colon_labelled username2 l4 -> colon_labelled password2 l5 ->
  Forall encodable [site1; username1; password1; site2; username2; password2; secret] ->
  (forall n, encodable (time_at v n)) ->
  exists r1 r2 v' v'',
    Visual.ensure_storage BASE_DIR secret v = (Ok tt, v') /\
    Visual.load_entries BASE_DIR py_repr v' = (Ok [r1; r2], v'') /\
    decrypt_password (Visual.password_encrypted r1) secret = Ok password1 /\
    decrypt_password (Visual.password_encrypted r2) secret = Ok password2 /\
    files v' !! Visual.LEGACY_FILE BASE_DIR = None.
Proof.
  intros Hnone Hraw Hdec Hlines Htrail L0 L1 L2 L3 L4 L5 Henc Hclock.
  apply Forall_cons_1 in Henc as [Es1 Henc]. apply Forall_cons_1 in Henc as [Eu1 Henc].
  apply Forall_cons_1 in Henc as [Ep1 Henc]. apply Forall_cons_1 in Henc as [Es2 Henc].
  apply Forall_cons_1 in Henc as [Eu2 Henc]. apply Forall_cons_1 in Henc as [Ep2 Henc].
  apply Forall_cons_1 in Henc as [Esec _].
  destruct (hash_text_ok password1 Ep1) as (h1 & Eh1).
  destruct (hash_text_ok password2 Ep2) as (h2 & Eh2).
  destruct (encrypt_ok password1 secret Ep1 Esec) as (c1 & Ec1).
  destruct (encrypt_ok password2 secret Ep2 Esec) as (c2 & Ec2).
  set (r1 := Visual.mkEntry (strip site1) (strip username1) h1 c1 (now v) (now v)).
  set (r2 := Visual.mkEntry (strip site2) (strip username2) h2 c2
                            (now (tick v)) (now (tick v))).
  assert (Hfields : Forall fields_encodable [dict_of_record r1; dict_of_record r2]).
  { constructor; [|constructor; [|constructor]];
      apply built_fields_encodable; try assumption;
      first [eapply hash_text_encodable; eassumption
            | eapply encrypt_password_encodable; eassumption
            | apply Hclock]. }
  assert (Hdump : encodable (json_dumps (JList (map Visual.to_dict [r1; r2])))).
  { change (map Visual.to_dict [r1; r2])
      with (map JDict [dict_of_record r1; dict_of_record r2]).
    apply json_dumps_records_encodable, Hfields. }
  assert (Hrecords : Forall (fun r => record_ok (dict_of_record r)) [r1; r2]).
  { apply Forall_cons_1 in Hfields as [H1 Hfields].
    apply Forall_cons_1 in Hfields as [H2 _].
    constructor; [|constructor; [|constructor]];
      (apply fields_record_ok; [assumption | exact entry_keys_nodup]). }
  destruct (write_text_ok (Visual.DATA_FILE BASE_DIR) _ (tick (tick v)) Hdump)
    as (store & Estore & Ewrite).
  assert (Hmig : Visual.migrate ([l0; l1; l2; separator; l3; l4; l5] ++ trailing) secret v
                 = (Ok [r1; r2], tick (tick v))).
  { destruct trailing as [|last [|more trailing]]; [| |cbn [length] in Htrail; lia];
      cbn [app Visual.migrate]; unfold Visual.migrate_chunk;
      rewrite (field_colon_labelled _ _ L0), (field_colon_labelled _ _ L1),
        (field_colon_labelled _ _ L2), (field_colon_labelled _ _ L3),
        (field_colon_labelled _ _ L4), (field_colon_labelled _ _ L5).
    - erewrite bindM_ok;
        [|erewrite bindM_ok; [|apply build_ok; eassumption]; reflexivity].
      erewrite bindM_ok;
        [|erewrite bindM_ok; [|apply build_ok; eassumption]; reflexivity].
      reflexivity.
    - erewrite bindM_ok;
        [|erewrite bindM_ok; [|apply build_ok; eassumption]; reflexivity].
      erewrite bindM_ok.
      2: { erewrite bindM_ok;
             [|erewrite bindM_ok; [|apply build_ok; eassumption]; reflexivity].
           reflexivity. }
      reflexivity. }
  set (v' := set_files
               (<[with_suffix (Visual.LEGACY_FILE BASE_DIR) ".bak" := raw]>
                  (delete (Visual.LEGACY_FILE BASE_DIR)
                     (files (set_files (<[Visual.DATA_FILE BASE_DIR := store]>
                                          (files (tick (tick v))))
                               (tick (tick v))))))
               (set_files (<[Visual.DATA_FILE BASE_DIR := store]> (files (tick (tick v))))
                  (tick (tick v)))).
  assert (Hrun : Visual.ensure_storage BASE_DIR secret v = (Ok tt, v')).
  { unfold Visual.ensure_storage.
    erewrite bindM_ok; [|apply exists_absent, Hnone]. cbv beta iota.
    erewrite bindM_ok; [|eapply exists_present, Hraw]. cbn [negb]. cbv beta iota.
    erewrite bindM_ok; [|unfold read_text; rewrite Hraw, Hdec; reflexivity].
    rewrite Hlines.
    erewrite bindM_ok; [|exact Hmig].
    erewrite bindM_ok; [|exact Ewrite].
    unfold rename. cbn [files set_files tick].
    rewrite lookup_insert_ne by discriminate. rewrite Hraw. reflexivity. }
  assert (Hfile : files v' !! Visual.DATA_FILE BASE_DIR = Some store).
  { subst v'. cbn [files set_files tick].
    rewrite lookup_insert_ne by discriminate.
    rewrite lookup_delete_ne by discriminate.
    apply lookup_insert_eq. }
  destruct (visual_load_stored BASE_DIR py_repr v' [r1; r2] store Hfile Hrecords Estore)
    as (rs' & v'' & Hload & Hc & _ & _).
  destruct rs' as [|a [|b [|]]]; try discriminate Hc.
  injection Hc as Ha Hb.
  exists a, b, v', v''. split; [exact Hrun | split; [exact Hload | split; [|split]]].
  - rewrite Ha. apply decrypt_of_encrypt; assumption.
  - rewrite Hb. apply decrypt_of_encrypt; assumption.
  - subst v'. cbn [files set_files tick].
    rewrite lookup_insert_ne by discriminate.
    apply lookup_delete_eq.
Qed.

(** C2 as the code has it.  With no store file, [ensure_storage] of the
    command line tool on a legacy file whose lines, blank ones apart, are two
    groups of three (labelled or bare) writes a store from which
    [load_entries] reads exactly two records, whose passwords decrypt under
    the secret to the two legacy passwords, and the legacy file is gone from
    its path.  The dataclass tool does so on a legacy file whose groups stand
    four lines apart, with at most one line after the second, and whose
    lines all carry a label and a colon. *)
Theorem ensure_storage_migrates_two_groups
    (DATA_FILE : path) (BASE_DIR CWD : string) (py_repr : json -> str) (secret : str)
    (w : world) (legacy : path) (g1 g2 : str * str * str)
    (v : world) (k1 k2 : str * str * str) :
  cli_two_groups DATA_FILE BASE_DIR CWD w legacy g1 g2 ->
  texts_encodable g1 g2 secret w ->
  with_suffix legacy ".bak" <> DATA_FILE ->
  visual_two_groups BASE_DIR v k1 k2 ->
  texts_encodable k1 k2 secret v ->
  (exists e1 e2 w',
     Cli.ensure_storage DATA_FILE BASE_DIR CWD secret w = (Ok tt, w') /\
     Cli.load_entries DATA_FILE w' = (Ok [e1; e2], w') /\
     Cli.decrypt_field e1 secret = Ok g1.2 /\
     Cli.decrypt_field e2 secret = Ok g2.2 /\
     files w' !! legacy = None) /\
  (exists r1 r2 v' v'',
     Visual.ensure_storage BASE_DIR secret v = (Ok tt, v') /\
     Visual.load_entries BASE_DIR py_repr v' = (Ok [r1; r2], v'') /\
     decrypt_password (Visual.password_encrypted r1) secret = Ok k1.2 /\
     decrypt_password (Visual.password_encrypted r2) secret = Ok k2.2 /\
     files v' !! Visual.LEGACY_FILE BASE_DIR = None).
Proof.
  intros (Hnone & Hfind & raw & text & l0 & l1 & l2 & l3 & l4 & l5 & Hraw & Hdec & Hlines
          & L0 & L1 & L2 & L3 & L4 & L5) [Henc Hclock] Hbak
         (Vnone & vraw & vtext & m0 & m1 & m2 & separator & m3 & m4 & m5 & trailing
          & Vraw & Vdec & Vlines & Vtrail & M0 & M1 & M2 & M3 & M4 & M5) [Venc Vclock].
  split.
  - eapply cli_migration; eassumption.
  - eapply visual_migration; eassumption.
Qed.


Lemma label_free_short (label value : str) :
  (length value < length label)%nat -> label_free label value.
Proof.
  intros H pre post ->. rewrite !length_app in H. lia.
Qed.

Lemma split1_inv (line label rest : str) :
  split1 58 line = [label; rest] -> ~ In 58 label /\ line = label ++ 58 :: rest.
Proof.
  revert label. induction line as [|c line IH]; intros label; cbn [split1].
  - discriminate.
  - destruct (Z.eqb_spec c 58) as [->|Hc].
    + intros [= <- <-]. split; [intros [] | reflexivity].
    + destruct (split1 58 line) as [|h [|r [|]]] eqn:E; try discriminate.
      intros [= <- <-]. destruct (IH h eq_refl) as [Hn ->].
      split; [|reflexivity]. intros [Heq | Hin]; [congruence | exact (Hn Hin)].
Qed.

Lemma colon_labelled_field (value line : str) :
  Visual.field line = Some value -> colon_labelled value line.
Proof.
  unfold Visual.field.
  destruct (split1 58 line) as [|label [|rest [|]]] eqn:E; try discriminate.
  intros [= <-]. destruct (split1_inv _ _ _ E) as [Hn ->].
  exists label, rest. repeat split; [exact Hn].
Qed.

Lemma sample_clock_encodable (n : nat) : encodable (sample_clock n).
Proof.
  unfold sample_clock. apply encodable_app; [apply encodable_forallb; reflexivity|].
  constructor; [|constructor].
  pose proof (Nat.mod_upper_bound n 10 ltac:(lia)). unfold scalarb.
  repeat zcase; reflexivity.
Qed.

Lemma ensure_storage_migrates_two_groups_witness :
  cli_two_groups sample_data_file sample_dir "/tmp" legacy_world sample_legacy_file
                 group1 group2 /\
  texts_encodable group1 group2 sample_secret legacy_world /\
  with_suffix sample_legacy_file ".bak" <> sample_data_file /\
  visual_two_groups sample_dir legacy_world_spaced group1 group2 /\
  texts_encodable group1 group2 sample_secret legacy_world_spaced /\
  (exists e1 e2 w',
     Cli.ensure_storage sample_data_file sample_dir "/tmp" sample_secret legacy_world
       = (Ok tt, w') /\
     Cli.load_entries sample_data_file w' = (Ok [e1; e2], w') /\
     Cli.decrypt_field e1 sample_secret = Ok (bytes_of_string "p1") /\
     Cli.decrypt_field e2 sample_secret = Ok (bytes_of_string "p2") /\
     files w' !! sample_legacy_file = None) /\
  (exists r1 r2 v' v'',
     Visual.ensure_storage sample_dir sample_secret legacy_world_spaced = (Ok tt, v') /\
     Visual.load_entries sample_dir sample_repr v' = (Ok [r1; r2], v'') /\
     decrypt_password (Visual.password_encrypted r1) sample_secret
       = Ok (bytes_of_string "p1") /\
     decrypt_password (Visual.password_encrypted r2) sample_secret
       = Ok (bytes_of_string "p2") /\
     files v' !! Visual.LEGACY_FILE sample_dir = None).
Proof.
  assert (H1 : cli_two_groups sample_data_file sample_dir "/tmp" legacy_world
                 sample_legacy_file group1 group2).
  { split; [vm_compute; reflexivity|]. split; [vm_compute; reflexivity|].
    do 8 eexists.
    split; [vm_compute; reflexivity|]. split; [vm_compute; reflexivity|].
    split; [vm_compute; reflexivity|].
    repeat split; try (left; vm_compute; reflexivity);
      apply label_free_short; vm_compute; lia. }
  assert (H2 : forall w, time_at w = sample_clock ->
                         texts_encodable group1 group2 sample_secret w).
  { intros w Hw. split; [|intros n; rewrite Hw; apply sample_clock_encodable].
    repeat (constructor; [apply encodable_forallb; reflexivity|]). constructor. }
  assert (H3 : with_suffix sample_legacy_file ".bak" <> sample_data_file) by discriminate.
  assert (H4 : visual_two_groups sample_dir legacy_world_spaced group1 group2).
  { split; [vm_compute; reflexivity|].
    do 9 eexists. exists [].
    split; [vm_compute; reflexivity|]. split; [vm_compute; reflexivity|].
    split; [vm_compute; reflexivity|]. split; [cbn; lia|].
    repeat split; apply colon_labelled_field; vm_compute; reflexivity. }
  split; [exact H1 | split; [exact (H2 legacy_world eq_refl) | split; [exact H3 |]]].
  split; [exact H4 | split; [exact (H2 legacy_world_spaced eq_refl) |]].
  exact (ensure_storage_migrates_two_groups sample_data_file sample_dir "/tmp" sample_repr
           sample_secret legacy_world sample_legacy_file group1 group2
           legacy_world_spaced group1 group2
           H1 (H2 legacy_world eq_refl) H3 H4 (H2 legacy_world_spaced eq_refl)).
Defined.

(** C2 as stated fails: on a legacy file of two groups of three labelled
    lines with nothing between them, [ensure_storage] of the dataclass tool
    takes its second group from the fifth line on, finds it a line short and
    skips it: the store it writes has one record. *)
Lemma visual_ensure_storage_loses_second_group :
  length (splitlines legacy_text) = 6%nat /\
  fst (Visual.ensure_storage sample_dir sample_secret legacy_world) = Ok tt /\
  rmap (@length _)
       (fst (Visual.load_entries sample_dir sample_repr
               (snd (Visual.ensure_storage sample_dir sample_secret legacy_world))))
  = Ok 1%nat.
Proof. repeat split; vm_compute; reflexivity. Qed.

(** The stores written for the sample files, read back by [load_entries]:
    both passwords from the command line tool, and from the dataclass tool
    when a line stands between the groups. *)
Example migrated_stores_read_back :
  stored_passwords sample_data_file sample_secret
    (snd (Cli.ensure_storage sample_data_file sample_dir "/tmp" sample_secret legacy_world))
  = Ok [Ok (bytes_of_string "p1"); Ok (bytes_of_string "p2")] /\
  stored_passwords sample_data_file sample_secret
    (snd (Visual.ensure_storage sample_dir sample_secret legacy_world_spaced))
  = Ok [Ok (bytes_of_string "p1"); Ok (bytes_of_string "p2")].
Proof. split; vm_compute; reflexivity. Qed.


(** * Further properties *)

(** ** Hashes and ciphertexts *)

Lemma utf8_encode_raises (s : str) :
  ~ encodable s -> utf8_encode s = Raise UnicodeEncodeError.
Proof.
  induction s as [|c s IH]; intros Hn; [exfalso; apply Hn; constructor|].
  cbn [utf8_encode]. unfold utf8_encode_char at 1.
  destruct (scalarb c) eqn:Hc; cbn [negb]; [|reflexivity].
  assert (Hs : ~ encodable s) by (intros Hs; apply Hn; constructor; assumption).
  rewrite (IH Hs).
  destruct (utf8_encode_char_ok c Hc) as (bs & E & _).
  unfold utf8_encode_char in E. rewrite Hc in E. cbn [negb] in E. rewrite E. reflexivity.
Qed.

Lemma hex_digit_lower (n : Z) : 0 <= n < 16 -> is_hex_lower (hex_digit n).
Proof. intros H. unfold hex_digit, is_hex_lower. zcase; lia. Qed.

Lemma hexdigest_lower (d : bytes) :
  Forall is_byte d ->
  length (hexdigest d) = (2 * length d)%nat /\ Forall is_hex_lower (hexdigest d).
Proof.
  unfold hexdigest. induction 1 as [|b d Hb _ [IHl IHf]]; cbn [flat_map]; [split; [reflexivity | constructor]|].
  unfold is_byte in Hb. split.
  - cbn [app length]. rewrite IHl. lia.
  - constructor; [apply hex_digit_lower; dlia|].
    constructor; [apply hex_digit_lower; dlia|]. exact IHf.
Qed.

(** X1.  [hash_text] gives 64 lower-case hexadecimal digits for every text
    UTF-8 can encode, and raises [UnicodeEncodeError] for every other text
    (one that holds a lone surrogate). *)
Theorem hash_text_hexdigest (text : str) :
  (encodable text ->
   exists h, hash_text text = Ok h /\ length h = 64%nat /\ Forall is_hex_lower h) /\
  (~ encodable text -> hash_text text = Raise UnicodeEncodeError).
Proof.
  split; intros H; unfold hash_text.
  - destruct (utf8_encode_ok text H) as (b & E & _). rewrite E. cbn [bind].
    destruct (hexdigest_lower (sha256 b) (sha256_bytes b)) as [Hl Hf].
    eexists. split; [reflexivity|]. split; [|exact Hf].
    rewrite Hl, sha256_length. reflexivity.
  - rewrite (utf8_encode_raises text H). reflexivity.
Qed.

Lemma encrypt_password_inv (p s c : str) :
  encrypt_password p s = Ok c -> encodable p /\ encodable s.
Proof.
  unfold encrypt_password, _derive_xor_key. intros H.
  destruct (utf8_encode s) as [ks|] eqn:Es; [|discriminate]. cbn [bind] in H.
  destruct (utf8_encode p) as [data|] eqn:Ep; [|discriminate].
  split; eapply utf8_encode_encodable; eassumption.
Qed.

(** X2.  Under one secret no two passwords share a ciphertext. *)
Theorem encrypt_password_injective (p1 p2 s c : str) :
  encrypt_password p1 s = Ok c -> encrypt_password p2 s = Ok c -> p1 = p2.
Proof.
  intros H1 H2.
  destruct (encrypt_password_inv _ _ _ H1) as [E1 Es].
  destruct (encrypt_password_inv _ _ _ H2) as [E2 _].
  pose proof (decrypt_of_encrypt p1 s c E1 Es H1) as D1.
  pose proof (decrypt_of_encrypt p2 s c E2 Es H2) as D2.
  congruence.
Qed.

Lemma encrypt_password_injective_witness :
  encrypt_password (py "clave") (py "1234") = Ok (py "YMAGNHM=") /\ py "clave" = py "clave".
Proof.
  assert (H : encrypt_password (py "clave") (py "1234") = Ok (py "YMAGNHM="))
    by (vm_compute; reflexivity).
  split; [exact H|].
  exact (encrypt_password_injective (py "clave") (py "clave") (py "1234") (py "YMAGNHM=") H H).
Defined.


Lemma sextet_urlsafe (n : Z) :
  0 <= n < 64 -> is_urlsafe (urlsafe_encode_translation (table_b2a_base64 n)).
Proof.
  intros H. unfold urlsafe_encode_translation, table_b2a_base64, is_urlsafe.
  repeat zcase; lia.
Qed.

Lemma urlsafe_b64encode_alphabet (bs : bytes) :
  Forall is_byte bs -> Forall is_urlsafe (urlsafe_b64encode bs).
Proof.
  unfold urlsafe_b64encode.
  induction bs as [| b0 | b0 b1 | b0 b1 b2 r IH] using list_ind3; intros Hb.
  - constructor.
  - apply Forall_cons_1 in Hb as [H0 _]. unfold is_byte in H0.
    cbn [b2a_base64 map].
    repeat (constructor; [first [apply sextet_urlsafe; dlia | cbv; lia] |]).
    constructor.
  - apply Forall_cons_1 in Hb as [H0 Hb]. apply Forall_cons_1 in Hb as [H1 _].
    unfold is_byte in H0, H1.
    cbn [b2a_base64 map].
    repeat (constructor; [first [apply sextet_urlsafe; dlia | cbv; lia] |]).
    constructor.
  - apply Forall_cons_1 in Hb as [H0 Hb]. apply Forall_cons_1 in Hb as [H1 Hb].
    apply Forall_cons_1 in Hb as [H2 Hb].
    unfold is_byte in H0, H1, H2.
    cbn [b2a_base64 map].
    repeat (constructor; [apply sextet_urlsafe; dlia |]).
    apply IH, Hb.
Qed.

(** What [encrypt_password] returns, spelled out. *)
Lemma encrypt_password_shape (p s c : str) :
  encrypt_password p s = Ok c ->
  exists key data,
    _derive_xor_key s = Ok key /\ Forall is_byte key /\
    utf8_encode p = Ok data /\ Forall is_byte data /\
    c = urlsafe_b64encode (xor_stream key 0 data).
Proof.
  intros H. destruct (encrypt_password_inv _ _ _ H) as [Ep Es].
  destruct (encrypt_password_ok p s Ep Es) as (key & data & Ek & Bk & Ed & Bd & _ & E).
  exists key, data. repeat split; try assumption. congruence.
Qed.

(** X3.  A ciphertext is made of URL-safe base64 characters only: letters,
    digits, [-], [_] and the pad [=]. *)
Theorem ciphertext_alphabet (p s c : str) :
  encrypt_password p s = Ok c -> Forall is_urlsafe c.
Proof.
  intros H. destruct (encrypt_password_shape _ _ _ H) as (key & data & _ & Bk & _ & Bd & ->).
  apply urlsafe_b64encode_alphabet, xor_stream_bytes; assumption.
Qed.

Lemma ciphertext_alphabet_witness :
  encrypt_password (py "pässword €42") (py "1234") = Ok (py "c2_DMWWEji4SPgMnTmHC") /\
  Forall is_urlsafe (py "c2_DMWWEji4SPgMnTmHC").
Proof.
  assert (H : encrypt_password (py "pässword €42") (py "1234")
              = Ok (py "c2_DMWWEji4SPgMnTmHC")) by (vm_compute; reflexivity).
  split; [exact H | exact (ciphertext_alphabet _ _ _ H)].
Defined.

Lemma ciphertext_bytes_encrypted (key data : bytes) :
  Forall is_byte key -> Forall is_byte data ->
  ciphertext_bytes (urlsafe_b64encode (xor_stream key 0 data)) = Ok (xor_stream key 0 data).
Proof.
  intros Bk Bd. unfold ciphertext_bytes.
  pose proof (xor_stream_bytes key data 0 Bk Bd) as Bx.
  rewrite (utf8_encode_ascii _ (urlsafe_b64encode_ascii _ Bx)). cbn [bind].
  apply urlsafe_b64_roundtrip, Bx.
Qed.

Lemma lxor_cancel (a b k : Z) : Z.lxor (Z.lxor a k) (Z.lxor b k) = Z.lxor a b.
Proof.
  rewrite Z.lxor_assoc, (Z.lxor_comm b k), <- (Z.lxor_assoc k k b), Z.lxor_nilpotent,
    Z.lxor_0_l. reflexivity.
Qed.

Lemma xor_stream_cancel (key : bytes) (a : bytes) :
  forall (b : bytes) (i : nat),
    zip_with Z.lxor (xor_stream key i a) (xor_stream key i b) = zip_with Z.lxor a b.
Proof.
  induction a as [|x a IH]; intros b i; [reflexivity|].
  destruct b as [|y b]; [reflexivity|].
  cbn [xor_stream zip_with]. rewrite lxor_cancel, IH. reflexivity.
Qed.

(** X4.  The key stream depends on the secret alone: of two passwords encrypted
    under one secret, the bytes of the two ciphertexts differ exactly where
    and how the bytes of the two passwords differ. *)
Theorem keystream_reuse (p1 p2 s c1 c2 : str) :
  encrypt_password p1 s = Ok c1 -> encrypt_password p2 s = Ok c2 ->
  exists data1 data2 raw1 raw2,
    utf8_encode p1 = Ok data1 /\ utf8_encode p2 = Ok data2 /\
    ciphertext_bytes c1 = Ok raw1 /\ ciphertext_bytes c2 = Ok raw2 /\
    zip_with Z.lxor raw1 raw2 = zip_with Z.lxor data1 data2.
Proof.
  intros H1 H2.
  destruct (encrypt_password_shape _ _ _ H1) as (key & data1 & Ek & Bk & E1 & B1 & ->).
  destruct (encrypt_password_shape _ _ _ H2) as (key' & data2 & Ek' & _ & E2 & B2 & ->).
  assert (key' = key) as -> by congruence.
  exists data1, data2, (xor_stream key 0 data1), (xor_stream key 0 data2).
  split; [exact E1 | split; [exact E2|]].
  split; [apply ciphertext_bytes_encrypted; assumption|].
  split; [apply ciphertext_bytes_encrypted; assumption|].
  apply xor_stream_cancel.
Qed.

Lemma keystream_reuse_witness :
  encrypt_password (py "clave") (py "1234") = Ok (py "YMAGNHM=") /\
  encrypt_password (py "llave") (py "1234") = Ok (py "b8AGNHM=") /\
  exists data1 data2 raw1 raw2,
    utf8_encode (py "clave") = Ok data1 /\ utf8_encode (py "llave") = Ok data2 /\
    ciphertext_bytes (py "YMAGNHM=") = Ok raw1 /\ ciphertext_bytes (py "b8AGNHM=") = Ok raw2 /\
    zip_with Z.lxor raw1 raw2 = zip_with Z.lxor data1 data2.
Proof.
  assert (H1 : encrypt_password (py "clave") (py "1234") = Ok (py "YMAGNHM="))
    by (vm_compute; reflexivity).
  assert (H2 : encrypt_password (py "llave") (py "1234") = Ok (py "b8AGNHM="))
    by (vm_compute; reflexivity).
  split; [exact H1 | split; [exact H2 | exact (keystream_reuse _ _ _ _ _ H1 H2)]].
Defined.


(** ** The store file, saved and loaded *)

Lemma storable_record_ok (d : list (str * json)) :
  storable d -> record_ok d /\ d <> [].
Proof.
  intros (Hf & Hn & He). split; [apply fields_record_ok; assumption | exact He].
Qed.

Lemma storable_records (ds : list (list (str * json))) :
  Forall storable ds -> Forall (fun d => record_ok d /\ d <> []) ds.
Proof.
  intros H. eapply Forall_impl; [exact H|]. intros d Hd. apply storable_record_ok, Hd.
Qed.

Lemma storable_fields (ds : list (list (str * json))) :
  Forall storable ds -> Forall fields_encodable ds.
Proof.
  intros H. eapply Forall_impl; [exact H|]. intros d (Hd & _). exact Hd.
Qed.

(** [save_entries] of the command line tool on storable records, then
    [load_entries]. *)
Lemma cli_save_load (DATA_FILE : path) (entries : list Cli.Entry) (w : world) :
  Forall storable entries ->
  exists raw,
    utf8_encode (json_dumps (JList (map JDict entries))) = Ok raw /\
    Cli.save_entries DATA_FILE entries w = (Ok tt, with_file DATA_FILE raw w) /\
    Cli.load_entries DATA_FILE (with_file DATA_FILE raw w)
    = (Ok entries, with_file DATA_FILE raw w).
Proof.
  intros H.
  pose proof (json_dumps_records_encodable entries (storable_fields _ H)) as Hd.
  destruct (write_text_ok DATA_FILE _ w Hd) as (raw & E & Hw).
  exists raw. split; [exact E | split; [exact Hw|]].
  apply (cli_load_stored DATA_FILE _ entries raw); [|apply storable_records, H | exact E].
  unfold with_file. cbn [files set_files]. apply lookup_insert_eq.
Qed.

(** X5.  What [save_entries] of the command line tool writes, [load_entries]
    reads back: the same records in the same order, when every record is
    storable. *)
Theorem save_entries_load_entries (DATA_FILE : path) (entries : list Cli.Entry) (w : world) :
  Forall storable entries ->
  exists w',
    Cli.save_entries DATA_FILE entries w = (Ok tt, w') /\
    Cli.load_entries DATA_FILE w' = (Ok entries, w') /\
    stdin w' = stdin w /\ stdout w' = stdout w.
Proof.
  intros H. destruct (cli_save_load DATA_FILE entries w H) as (raw & _ & Hs & Hl).
  exists (with_file DATA_FILE raw w). repeat split; assumption.
Qed.


Lemma lstrip_idempotent (s : str) : lstrip (lstrip s) = lstrip s.
Proof.
  induction s as [|c s IH]; [reflexivity|].
  cbn [lstrip]. destruct (isspace c) eqn:E; [exact IH|].
  cbn [lstrip]. rewrite E. reflexivity.
Qed.

Lemma lstrip_head (s : str) :
  lstrip s = [] \/ exists c r, lstrip s = c :: r /\ isspace c = false.
Proof.
  induction s as [|c s IH]; [left; reflexivity|].
  cbn [lstrip]. destruct (isspace c) eqn:E; [exact IH|]. right. eauto.
Qed.

Lemma lstrip_snoc (l : str) (c : Z) :
  isspace c = false -> lstrip (l ++ [c]) = lstrip l ++ [c].
Proof.
  intros Hc. induction l as [|x l IH]; cbn [app lstrip].
  - rewrite Hc. reflexivity.
  - destruct (isspace x); [exact IH | reflexivity].
Qed.

Lemma rstrip_idempotent (s : str) : rstrip (rstrip s) = rstrip s.
Proof. unfold rstrip. rewrite rev_involutive, lstrip_idempotent. reflexivity. Qed.

Lemma lstrip_rstrip_lstrip (s : str) : lstrip (rstrip (lstrip s)) = rstrip (lstrip s).
Proof.
  destruct (lstrip_head s) as [-> | (c & r & -> & Hc)]; [reflexivity|].
  unfold rstrip. cbn [rev]. rewrite (lstrip_snoc _ _ Hc), rev_app_distr.
  cbn [rev app lstrip]. rewrite Hc. reflexivity.
Qed.

(** Trimming a trimmed text changes nothing. *)
Lemma strip_idempotent (s : str) : strip (strip s) = strip s.
Proof. unfold strip. rewrite lstrip_rstrip_lstrip, rstrip_idempotent. reflexivity. Qed.

Lemma reloaded_idempotent (r : Visual.Entry) : reloaded (reloaded r) = reloaded r.
Proof.
  unfold reloaded.
  cbn [Visual.site Visual.username Visual.password_hash Visual.password_encrypted
       Visual.created_at Visual.updated_at].
  rewrite !strip_idempotent. reflexivity.
Qed.

(** [from_dict] on what [to_dict] gave, record by record. *)
Lemma from_dicts_reloaded (py_repr : json -> str) (rs : list Visual.Entry) :
  forall w,
    Visual.from_dicts py_repr (map Visual.to_dict rs) w
    = (Ok (map reloaded rs), ticked (2 * length rs) w).
Proof.
  induction rs as [|r rs IH]; intros w.
  - destruct w. reflexivity.
  - cbn [map Visual.to_dict Visual.from_dicts].
    erewrite bindM_ok; [|reflexivity].
    erewrite bindM_ok; [|apply IH].
    unfold ret. f_equal.
    change (tick (tick w)) with
      (World (files w) (stdin w) (stdout w) (S (S (ticks w))) (time_at w)).
    unfold ticked. cbn [files stdin stdout ticks time_at length]. f_equal. lia.
Qed.

Lemma record_encodable_fields (r : Visual.Entry) :
  record_encodable r -> fields_encodable (dict_of_record r).
Proof.
  intros H. unfold record_encodable in H.
  apply Forall_cons_1 in H as [H1 H]. apply Forall_cons_1 in H as [H2 H].
  apply Forall_cons_1 in H as [H3 H]. apply Forall_cons_1 in H as [H4 H].
  apply Forall_cons_1 in H as [H5 H]. apply Forall_cons_1 in H as [H6 _].
  repeat (constructor;
          [split; [apply encodable_forallb; reflexivity
                  | eexists; split; [reflexivity | assumption]] |]).
  constructor.
Qed.

Lemma record_encodable_storable (r : Visual.Entry) :
  record_encodable r -> storable (dict_of_record r).
Proof.
  intros H. split; [apply record_encodable_fields, H|].
  split; [exact entry_keys_nodup | discriminate].
Qed.

Lemma to_dict_dict_of_record (rs : list Visual.Entry) :
  map Visual.to_dict rs = map JDict (map dict_of_record rs).
Proof. rewrite map_map. reflexivity. Qed.

(** [save_entries] of the dataclass tool, then [load_entries]. *)
Lemma visual_save_load (BASE_DIR : string) (py_repr : json -> str)
    (rs : list Visual.Entry) (w : world) :
  Forall record_encodable rs ->
  exists raw,
    utf8_encode (json_dumps (JList (map Visual.to_dict rs))) = Ok raw /\
    Visual.save_entries BASE_DIR rs w = (Ok tt, with_file (Visual.DATA_FILE BASE_DIR) raw w) /\
    Visual.load_entries BASE_DIR py_repr (with_file (Visual.DATA_FILE BASE_DIR) raw w)
    = (Ok (map reloaded rs),
       ticked (2 * length rs) (with_file (Visual.DATA_FILE BASE_DIR) raw w)).
Proof.
  intros H.
  assert (Hs : Forall storable (map dict_of_record rs)).
  { apply Forall_map. eapply Forall_impl; [exact H|].
    intros r Hr. apply record_encodable_storable, Hr. }
  pose proof (json_dumps_records_encodable _ (storable_fields _ Hs)) as Hd.
  rewrite <- to_dict_dict_of_record in Hd.
  destruct (write_text_ok (Visual.DATA_FILE BASE_DIR) _ w Hd) as (raw & E & Hw).
  exists raw. split; [exact E | split; [exact Hw|]].
  set (w' := with_file (Visual.DATA_FILE BASE_DIR) raw w).
  assert (Hfile : files w' !! Visual.DATA_FILE BASE_DIR = Some raw).
  { subst w'. unfold with_file. cbn [files set_files]. apply lookup_insert_eq. }
  rewrite to_dict_dict_of_record in E.
  destruct (store_reads_back _ raw (storable_records _ Hs) E) as (text & Htext & Hloads).
  unfold Visual.load_entries.
  erewrite bindM_ok; [|eapply exists_present, Hfile]. cbn [negb]. cbv beta iota.
  erewrite bindM_ok.
  2: { unfold try_except.
       erewrite bindM_ok; [|unfold read_text; rewrite Hfile, Htext; reflexivity].
       erewrite bindM_ok; [|unfold lift; rewrite Hloads; reflexivity].
       reflexivity. }
  cbv beta iota. rewrite <- to_dict_dict_of_record. apply from_dicts_reloaded.
Qed.

(** X6.  What [save_entries] of the dataclass tool writes, [load_entries] reads
    back record by record, the site and the user name trimmed once more;
    saved and loaded again, the records stay as they are. *)
Theorem visual_save_entries_load_entries (BASE_DIR : string) (py_repr : json -> str)
    (rs : list Visual.Entry) (w : world) :
  Forall record_encodable rs ->
  exists w' w'',
    Visual.save_entries BASE_DIR rs w = (Ok tt, w') /\
    Visual.load_entries BASE_DIR py_repr w' = (Ok (map reloaded rs), w'') /\
    files w'' = files w' /\
    map reloaded (map reloaded rs) = map reloaded rs.
Proof.
  intros H. destruct (visual_save_load BASE_DIR py_repr rs w H) as (raw & _ & Hs & Hl).
  eexists _, _. split; [exact Hs | split; [exact Hl | split; [reflexivity|]]].
  rewrite map_map. apply map_ext. intros r. apply reloaded_idempotent.
Qed.


(** ** Adding a record *)

(** [load_entries] of the command line tool, by what the store file holds. *)
Lemma cli_load_entries_eq (DATA_FILE : path) (w : world) :
  Cli.load_entries DATA_FILE w =
  match files w !! DATA_FILE with
  | None => (Ok [], w)
  | Some raw =>
      match decode_text raw with
      | Raise JSONDecodeError => (Ok [], reported "Error al leer el archivo de datos." w)
      | Raise e => (Raise e, w)
      | Ok text =>
          match json_loads text with
          | Raise _ => (Ok [], reported "Error al leer el archivo de datos." w)
          | Ok (JList items) => (Ok (records items), w)
          | Ok _ => (Raise ValueError, w)
          end
      end
  end.
Proof.
  unfold Cli.load_entries, bindM.
  destruct (files w !! DATA_FILE) as [raw|] eqn:E.
  2: { rewrite (exists_absent _ _ E). reflexivity. }
  rewrite (exists_present _ _ _ E). cbn [negb].
  unfold try_except, bindM, read_text, lift, raise, ret, report. rewrite E.
  destruct (decode_text raw) as [text|e]; cbn; [|destruct e; reflexivity].
  destruct (json_loads text) as [v|e] eqn:J; cbn.
  - destruct v; reflexivity.
  - rewrite (json_loads_raises _ _ J). reflexivity.
Qed.

Lemma reported_neq (text : string) (w : world) : reported text w <> w.
Proof.
  intros H. apply (f_equal stdout) in H. unfold reported in H. cbn [stdout] in H.
  apply (f_equal (@length string)) in H. rewrite length_app in H. cbn [length] in H. lia.
Qed.

(** Reading the store does not depend on the terminal or the clock. *)
Lemma cli_load_entries_files (DATA_FILE : path) (w w2 : world) (entries : list Cli.Entry) :
  files w2 = files w ->
  Cli.load_entries DATA_FILE w = (Ok entries, w) ->
  Cli.load_entries DATA_FILE w2 = (Ok entries, w2).
Proof.
  intros Hf. rewrite !cli_load_entries_eq, Hf.
  destruct (files w !! DATA_FILE) as [raw|]; [|intros [= <-]; reflexivity].
  destruct (decode_text raw) as [text|e].
  - destruct (json_loads text) as [v|e].
    + destruct v; try discriminate. intros [= <-]. reflexivity.
    + intros [= _ H]. exfalso. exact (reported_neq _ _ H).
  - destruct e; try discriminate. intros [= _ H]. exfalso. exact (reported_neq _ _ H).
Qed.

Lemma built_entry_storable (site username h c t : str) :
  encodable site -> encodable username -> encodable h -> encodable c -> encodable t ->
  storable
    [(bytes_of_string "site", JStr (strip site));
     (bytes_of_string "username", JStr (strip username));
     (bytes_of_string "password_hash", JStr h);
     (bytes_of_string "password_encrypted", JStr c);
     (bytes_of_string "created_at", JStr t);
     (bytes_of_string "updated_at", JStr t)].
Proof.
  intros. split; [apply built_fields_encodable; assumption|].
  split; [exact entry_keys_nodup | discriminate].
Qed.

(** [add_entry] of the command line tool from the point where the three
    fields are typed and found filled: the records read, [loaded] and the
    world [w1] the reading leaves. *)
Lemma cli_add_entry_run (DATA_FILE : path) (secret site username password enter : str)
    (rest : list str) (loaded : list Cli.Entry) (w w1 : world) :
  stdin w = site :: username :: password :: enter :: rest ->
  strip site <> [] -> strip username <> [] -> password <> [] ->
  Forall encodable [site; username; password; secret] ->
  (forall n, encodable (time_at w n)) ->
  Cli.load_entries DATA_FILE
    (World (files w) (enter :: rest) (stdout w) (ticks w) (time_at w)) = (Ok loaded, w1) ->
  Forall storable loaded ->
  exists entry w',
    Cli.add_entry DATA_FILE secret w = (Ok tt, w') /\
    Cli.load_entries DATA_FILE w' = (Ok (loaded ++ [entry]), w') /\
    Cli.getitem entry "site" = Ok (JStr (strip site)) /\
    Cli.getitem entry "username" = Ok (JStr (strip username)) /\
    Cli.decrypt_field entry secret = Ok password /\
    stdin w' = rest /\
    stdout w' = stdout w1 ++ ["Credencial almacenada correctamente."].
Proof.
  intros Hin Hs Hu Hp Henc Hclock Hload Hst.
  apply Forall_cons_1 in Henc as [Es Henc]. apply Forall_cons_1 in Henc as [Eu Henc].
  apply Forall_cons_1 in Henc as [Ep Henc]. apply Forall_cons_1 in Henc as [Esec _].
  destruct (hash_text_ok password Ep) as (h & Eh).
  destruct (encrypt_ok password secret Ep Esec) as (c & Ec).
  destruct w as [f i o t clock]. cbn [files stdin stdout ticks time_at] in *. subst i.
  set (w0 := World f (enter :: rest) o t clock) in *.
  assert (Hw1 : files w1 = f /\ stdin w1 = enter :: rest /\ ticks w1 = t /\ time_at w1 = clock).
  { rewrite cli_load_entries_eq in Hload. subst w0. cbn [files] in Hload.
    destruct (f !! DATA_FILE) as [raw|]; [|injection Hload as _ <-; repeat split].
    destruct (decode_text raw) as [text|e].
    - destruct (json_loads text) as [v|e]; [destruct v; try discriminate|];
        injection Hload as _ <-; repeat split.
    - destruct e; try discriminate; injection Hload as _ <-; repeat split. }
  destruct Hw1 as (Hf1 & Hi1 & Ht1 & Hc1).
  destruct w1 as [f1 i1 o1 t1 c1]. cbn [files stdin stdout ticks time_at] in *. subst f1 i1 t1 c1.
  set (entry := [(bytes_of_string "site", JStr (strip (strip site)));
                 (bytes_of_string "username", JStr (strip (strip username)));
                 (bytes_of_string "password_hash", JStr h);
                 (bytes_of_string "password_encrypted", JStr c);
                 (bytes_of_string "created_at", JStr (clock t));
                 (bytes_of_string "updated_at", JStr (clock t))]).
  assert (Hentry : storable entry).
  { apply built_entry_storable; try apply encodable_strip; try assumption.
    - eapply hash_text_encodable; eassumption.
    - eapply encrypt_password_encodable; eassumption.
    - apply Hclock. }
  assert (Hall : Forall storable (loaded ++ [entry])).
  { apply Forall_app. split; [exact Hst | constructor; [exact Hentry | constructor]]. }
  destruct (cli_save_load DATA_FILE (loaded ++ [entry])
              (World f (enter :: rest) o1 (S t) clock) Hall) as (raw & Eraw & Hsave & _).
  exists entry. eexists. split; [|split].
  - unfold Cli.add_entry.
    erewrite bindM_ok; [|reflexivity]. cbv beta zeta.
    erewrite bindM_ok; [|reflexivity]. cbv beta zeta.
    erewrite bindM_ok; [|reflexivity].
    assert (Hne : str_eqb (strip site) [] || str_eqb (strip username) [] || str_eqb password []
                  = false).
    { unfold str_eqb. rewrite !bool_decide_eq_false_2 by assumption. reflexivity. }
    rewrite Hne.
    erewrite bindM_ok; [|exact Hload].
    erewrite bindM_ok; [|apply build_entry_ok; eassumption].
    erewrite bindM_ok; [|exact Hsave].
    erewrite bindM_ok; [|reflexivity].
    unfold Cli.pause. erewrite bindM_ok; [|reflexivity]. reflexivity.
  - apply (cli_load_stored DATA_FILE _ (loaded ++ [entry]) raw);
      [|apply storable_records, Hall | exact Eraw].
    cbn [files with_file set_files]. apply lookup_insert_eq.
  - subst entry. rewrite !strip_idempotent.
    split; [reflexivity | split; [reflexivity|]].
    split; [apply decrypt_field_built, decrypt_of_encrypt; assumption|].
    split; reflexivity.
Qed.


(** X7.  [add_entry] of the command line tool with the three fields filled, on
    a store within the limits of the decoder that holds storable records,
    when the texts typed, the secret and the dates of the clock are texts
    UTF-8 can encode: the store then holds the records it held, in their
    order, and after them one new record with the trimmed site and user
    name, whose password decrypts under the secret to the password typed;
    the success is reported and the lines after the pause are left to
    read. *)
Theorem add_entry_appends (DATA_FILE : path)
    (secret site username password enter : str) (rest : list str)
    (entries : list Cli.Entry) (w : world) :
  store_within_limits DATA_FILE w ->
  Cli.load_entries DATA_FILE w = (Ok entries, w) ->
  Forall storable entries ->
  stdin w = site :: username :: password :: enter :: rest ->
  strip site <> [] -> strip username <> [] -> password <> [] ->
  Forall encodable [site; username; password; secret] ->
  (forall n, encodable (time_at w n)) ->
  exists entry w',
    Cli.add_entry DATA_FILE secret w = (Ok tt, w') /\
    Cli.load_entries DATA_FILE w' = (Ok (entries ++ [entry]), w') /\
    Cli.getitem entry "site" = Ok (JStr (strip site)) /\
    Cli.getitem entry "username" = Ok (JStr (strip username)) /\
    Cli.decrypt_field entry secret = Ok password /\
    stdin w' = rest /\
    stdout w' = stdout w ++ ["Credencial almacenada correctamente."].
Proof.
  intros _ Hload Hst Hin Hs Hu Hp Henc Hclock.
  apply (cli_add_entry_run DATA_FILE secret site username password enter rest entries w
           (World (files w) (enter :: rest) (stdout w) (ticks w) (time_at w)));
    try assumption.
  apply (cli_load_entries_files DATA_FILE w); [reflexivity | exact Hload].
Qed.

Lemma built_entry_is_storable : storable built_entry.
Proof.
  split; [|split; [exact entry_keys_nodup | discriminate]].
  repeat (constructor;
          [split; [apply encodable_forallb; reflexivity
                  | eexists; split; [reflexivity | apply encodable_forallb; reflexivity]] |]).
  constructor.
Qed.

(** X8.  A store file of UTF-8 text that is not JSON, within the limits of the
    decoder, does not stop [add_entry] of the command line tool with the
    three fields filled, when the texts typed, the secret and the dates of
    the clock are texts UTF-8 can encode: [load_entries] reports the error
    and gives no record, and the file is written anew with the one record
    added; what it held is gone. *)
Theorem add_entry_replaces_unreadable_store (DATA_FILE : path)
    (secret site username password enter : str) (rest : list str)
    (raw : bytes) (text : str) (e : exn) (w : world) :
  files w !! DATA_FILE = Some raw -> decode_text raw = Ok text ->
  within_decoder_limits text = true ->
  json_loads text = Raise e ->
  stdin w = site :: username :: password :: enter :: rest ->
  strip site <> [] -> strip username <> [] -> password <> [] ->
  Forall encodable [site; username; password; secret] ->
  (forall n, encodable (time_at w n)) ->
  exists entry w',
    Cli.add_entry DATA_FILE secret w = (Ok tt, w') /\
    Cli.load_entries DATA_FILE w' = (Ok [entry], w') /\
    Cli.decrypt_field entry secret = Ok password /\
    stdout w' = stdout w ++ ["Error al leer el archivo de datos.";
                             "Credencial almacenada correctamente."].
Proof.
  intros Hfile Hdec _ Hjson Hin Hs Hu Hp Henc Hclock.
  destruct (cli_add_entry_run DATA_FILE secret site username password enter rest [] w
              (reported "Error al leer el archivo de datos."
                 (World (files w) (enter :: rest) (stdout w) (ticks w) (time_at w)))
              Hin Hs Hu Hp Henc Hclock)
    as (entry & w' & Hrun & Hload & _ & _ & Hd & _ & Hout).
  - rewrite cli_load_entries_eq. cbn [files]. rewrite Hfile, Hdec, Hjson. reflexivity.
  - constructor.
  - exists entry, w'. split; [exact Hrun | split; [exact Hload | split; [exact Hd|]]].
    rewrite Hout. cbn [reported stdout]. rewrite <- app_assoc. reflexivity.
Qed.


(** ** Choosing a record *)

Lemma show_entries_ok (entries : list Cli.Entry) (w : world) :
  Forall listed entries -> Cli.show_entries entries w = (Ok tt, w).
Proof.
  induction 1 as [|entry rest (s & u & Hs & Hu) _ IH]; [reflexivity|].
  cbn [Cli.show_entries].
  erewrite bindM_ok; [|unfold lift; rewrite Hs; reflexivity].
  erewrite bindM_ok; [|unfold lift; rewrite Hu; reflexivity].
  exact IH.
Qed.

(** [select_entry] gives a position only for a number typed, and the
    position is the number less one, inside the list. *)
Lemma select_entry_chosen (entries : list Cli.Entry) (w w' : world) (i : nat) :
  Cli.select_entry entries w = (Ok (Some i), w') ->
  (i < length entries)%nat /\
  exists line, stdin w = line :: stdin w' /\ int_of_str line = Ok (Z.of_nat i + 1).
Proof.
  unfold Cli.select_entry. destruct entries as [|e0 es].
  - unfold Cli.pause, bindM, report, input, ret. cbn.
    destruct (stdin w); intros H; discriminate H.
  - set (entries := e0 :: es). unfold bindM at 1.
    pose proof (show_entries_world entries w) as Hw.
    destruct (Cli.show_entries entries w) as [[[]|e] w0]; cbn [fst snd] in Hw; subst w0;
      [|discriminate].
    assert (Hlen : Z.of_nat (length entries) = Z.of_nat (length entries)) by reflexivity.
    revert Hlen. generalize (Z.of_nat (length entries)) at 1 3. intros n Hlen.
    destruct w as [f inp o t c]. unfold Cli.pause. run.
    destruct inp as [|line rest]; cbn; [discriminate|].
    destruct (int_of_str line) as [selection|e] eqn:Hint; cbn.
    2: { destruct e; cbn; try discriminate. destruct rest; cbn; discriminate. }
    destruct (Z.eqb_spec selection 0) as [->|Hne]; cbn; [discriminate|].
    destruct (Z.leb_spec 1 selection); cbn.
    2: { destruct rest; cbn; discriminate. }
    destruct (Z.leb_spec selection n); cbn.
    2: { destruct rest; cbn; discriminate. }
    intros [= <- <-]. cbn [stdin]. subst entries. cbn [length] in Hlen. split; [lia|].
    exists line. split; [reflexivity|]. rewrite Hint. f_equal. lia.
Qed.

Lemma chosen_index_chosen (entries : list Visual.Entry) (choice : str) (j : nat)
    (w w' : world) :
  Visual.chosen_index entries choice w = (Ok (Some j), w') -> (j < length entries)%nat.
Proof.
  unfold Visual.chosen_index. destruct (isdigit choice); [|discriminate].
  unfold bindM, lift. destruct (int_of_str choice) as [value|e]; [|discriminate].
  cbv zeta.
  destruct (Z.leb_spec 0 (value - 1)); [|discriminate].
  destruct (Z.ltb_spec (value - 1) (Z.of_nat (length entries))); [|discriminate].
  intros [= <- _]. lia.
Qed.

Lemma choose_loop_chosen (entries : list Visual.Entry) (j : nat) :
  forall (fuel : nat) (w w' : world),
    Visual.choose_loop fuel entries w = (Ok (Some j), w') -> (j < length entries)%nat.
Proof.
  induction fuel as [|fuel IH]; intros w w'; [discriminate|].
  destruct w as [f i o t c]. destruct i as [|choice rest]; [discriminate|].
  rewrite choose_loop_step.
  destruct choice as [|ch choice']; [discriminate|].
  destruct (Visual.chosen_index entries (ch :: choice') (World f rest o t c))
    as [[[index|]|e] w1] eqn:E; [|apply IH|discriminate].
  intros [= <- _]. exact (chosen_index_chosen _ _ _ _ _ E).
Qed.

(** X9.  The position [select_entry] and [choose_entry] hand to [edit_entry] and
    [delete_entry] is always one of the list: [entries[index]] and
    [entries.pop(index)] are never out of range.  In the command line tool
    it is the number typed less one. *)
Theorem chosen_position_in_range
    (entries : list Cli.Entry) (w w' : world) (i : nat)
    (records : list Visual.Entry) (v v' : world) (j : nat) :
  (Cli.select_entry entries w = (Ok (Some i), w') ->
   is_Some (entries !! i) /\
   exists line, stdin w = line :: stdin w' /\ int_of_str line = Ok (Z.of_nat i + 1)) /\
  (Visual.choose_entry records v = (Ok (Some j), v') -> is_Some (records !! j)).
Proof.
  split.
  - intros H. destruct (select_entry_chosen _ _ _ _ H) as [Hi Hl].
    split; [apply lookup_lt_is_Some_2, Hi | exact Hl].
  - unfold Visual.choose_entry. destruct records as [|r rs].
    + unfold Visual.pause, bindM, report, input, ret. cbn.
      destruct (stdin v); intros H; discriminate H.
    + intros H. apply lookup_lt_is_Some_2. eapply choose_loop_chosen, H.
Qed.


(** ** Removing a record *)

(** [select_entry] on a number of the list. *)
Lemma select_entry_in_range (entries : list Cli.Entry) (w : world)
    (line : str) (rest : list str) (selection : Z) :
  Forall listed entries ->
  stdin w = line :: rest -> int_of_str line = Ok selection ->
  1 <= selection <= Z.of_nat (length entries) ->
  Cli.select_entry entries w
  = (Ok (Some (Z.to_nat (selection - 1))),
     World (files w) rest (stdout w) (ticks w) (time_at w)).
Proof.
  intros Hl Hin Hint Hr. unfold Cli.select_entry.
  destruct entries as [|e0 es]; [cbn [length] in Hr; lia|].
  set (entries := e0 :: es) in *.
  erewrite bindM_ok; [|apply show_entries_ok, Hl].
  destruct w as [f inp o t c]. cbn [stdin files stdout ticks time_at] in *. subst inp.
  erewrite bindM_ok.
  2: { unfold try_except. erewrite bindM_ok; [|reflexivity].
       erewrite bindM_ok; [|unfold lift; rewrite Hint; reflexivity]. reflexivity. }
  cbv beta iota.
  destruct (Z.eqb_spec selection 0) as [->|_]; [lia|].
  destruct (Z.leb_spec 1 selection); [|lia].
  destruct (Z.leb_spec selection (Z.of_nat (length entries))); [|lia].
  reflexivity.
Qed.

Lemma storable_delete (entries : list Cli.Entry) (i : nat) :
  Forall storable entries -> Forall storable (delete i entries).
Proof.
  intros H. apply Forall_forall. intros d Hd.
  rewrite Forall_forall in H. apply H.
  eapply elem_of_sublist; [exact Hd | apply sublist_delete].
Qed.

(** X10.  [delete_entry] of the command line tool on a store within the limits
    of the decoder that holds storable records with a site and a user name,
    when the line typed is one [int] reads as a number of the list and a
    line for the pause follows: the store then holds the other records, in
    their order, the lines typed after the pause are left to read, and one
    report, of the removal, is printed. *)
Theorem delete_entry_removes_selected (DATA_FILE : path)
    (entries : list Cli.Entry) (line enter : str) (rest : list str)
    (selection : Z) (w : world) :
  store_within_limits DATA_FILE w ->
  Cli.load_entries DATA_FILE w = (Ok entries, w) ->
  Forall storable entries -> Forall listed entries ->
  stdin w = line :: enter :: rest -> int_of_str line = Ok selection ->
  1 <= selection <= Z.of_nat (length entries) ->
  exists w',
    Cli.delete_entry DATA_FILE w = (Ok tt, w') /\
    Cli.load_entries DATA_FILE w' = (Ok (delete (Z.to_nat (selection - 1)) entries), w') /\
    stdin w' = rest /\
    exists removal, stdout w' = stdout w ++ [removal].
Proof.
  intros _ Hload Hst Hl Hin Hint Hr.
  set (i := Z.to_nat (selection - 1)).
  assert (Hi : (i < length entries)%nat) by (subst i; lia).
  destruct (lookup_lt_is_Some_2 entries i Hi) as (entry & He).
  assert (Hle : listed entry).
  { rewrite Forall_forall in Hl. apply Hl. eapply list_elem_of_lookup_2, He. }
  destruct Hle as (s & u & Hs & Hu).
  set (w1 := World (files w) (enter :: rest) (stdout w) (ticks w) (time_at w)).
  destruct (cli_save_load DATA_FILE (delete i entries) w1 (storable_delete _ i Hst))
    as (raw & Eraw & Hsave & _).
  eexists. split; [|split].
  - unfold Cli.delete_entry.
    erewrite bindM_ok; [|exact Hload].
    erewrite bindM_ok; [|apply (select_entry_in_range entries w line (enter :: rest) selection);
                         assumption].
    cbv beta iota. fold i. fold w1. rewrite He.
    erewrite bindM_ok; [|exact Hsave].
    erewrite bindM_ok; [|unfold lift; rewrite Hs; reflexivity].
    erewrite bindM_ok; [|unfold lift; rewrite Hu; reflexivity].
    erewrite bindM_ok; [|reflexivity].
    unfold Cli.pause. erewrite bindM_ok; [|reflexivity]. reflexivity.
  - apply (cli_load_stored DATA_FILE _ (delete i entries) raw);
      [|apply storable_records, storable_delete, Hst | exact Eraw].
    cbn [files with_file set_files]. apply lookup_insert_eq.
  - split; [reflexivity | eexists; reflexivity].
Qed.

Lemma chosen_index_in_range (records : list Visual.Entry) (choice : str) (value : Z)
    (w : world) :
  isdigit choice = true -> int_of_str choice = Ok value ->
  0 <= value - 1 < Z.of_nat (length records) ->
  Visual.chosen_index records choice w = (Ok (Some (Z.to_nat (value - 1))), w).
Proof.
  intros Hd Hv Hr. unfold Visual.chosen_index. rewrite Hd.
  unfold bindM, lift. rewrite Hv. cbv zeta.
  destruct (Z.leb_spec 0 (value - 1)); [|lia].
  destruct (Z.ltb_spec (value - 1) (Z.of_nat (length records))); [|lia].
  reflexivity.
Qed.

Lemma choose_loop_in_range (records : list Visual.Entry) (fuel : nat) (w : world)
    (choice : str) (value : Z) (rest : list str) :
  stdin w = choice :: rest -> isdigit choice = true -> int_of_str choice = Ok value ->
  0 <= value - 1 < Z.of_nat (length records) ->
  Visual.choose_loop (S fuel) records w
  = (Ok (Some (Z.to_nat (value - 1))),
     World (files w) rest (stdout w) (ticks w) (time_at w)).
Proof.
  intros Hin Hd Hv Hr. destruct w as [f i o t c]. cbn [stdin] in Hin. subst i.
  rewrite choose_loop_step.
  destruct choice as [|ch choice']; [discriminate Hd|].
  rewrite (chosen_index_in_range _ _ _ _ Hd Hv Hr). reflexivity.
Qed.

(** [choose_entry] on the number of a record. *)
Lemma choose_entry_in_range (records : list Visual.Entry) (w : world)
    (choice : str) (value : Z) (rest : list str) :
  stdin w = choice :: rest -> isdigit choice = true -> int_of_str choice = Ok value ->
  0 <= value - 1 < Z.of_nat (length records) ->
  Visual.choose_entry records w
  = (Ok (Some (Z.to_nat (value - 1))),
     World (files w) rest (stdout w) (ticks w) (time_at w)).
Proof.
  intros Hin Hd Hv Hr. unfold Visual.choose_entry.
  destruct records as [|r0 rs]; [cbn [length] in Hr; lia|].
  apply (choose_loop_in_range _ _ _ choice); assumption.
Qed.

Lemma list_remove_sublist (r : Visual.Entry) (records : list Visual.Entry) :
  Visual.list_remove r records `sublist_of` records.
Proof.
  induction records as [|e rest IH]; cbn [Visual.list_remove]; [constructor|].
  destruct (bool_decide (e = r)); [apply sublist_cons, reflexivity|].
  apply sublist_skip, IH.
Qed.

Lemma list_remove_length (r : Visual.Entry) (records : list Visual.Entry) :
  r ∈ records -> (length (Visual.list_remove r records) + 1 = length records)%nat.
Proof.
  induction records as [|e rest IH]; intros Hin; [apply elem_of_nil in Hin as []|].
  cbn [Visual.list_remove length].
  destruct (bool_decide (e = r)) eqn:E; [lia|].
  apply bool_decide_eq_false in E. apply elem_of_cons in Hin as [->|Hin]; [congruence|].
  cbn [length]. specialize (IH Hin). lia.
Qed.

(** Among records that are all different, [entries.remove(entry)] removes
    the position chosen. *)
Lemma list_remove_NoDup (records : list Visual.Entry) :
  NoDup records ->
  forall (i : nat) (r : Visual.Entry),
    records !! i = Some r -> Visual.list_remove r records = delete i records.
Proof.
  induction 1 as [|e rest Hn _ IH]; intros i r Hi; [discriminate|].
  cbn [Visual.list_remove]. destruct i as [|i]; cbn in Hi.
  - injection Hi as ->. rewrite bool_decide_eq_true_2 by reflexivity. reflexivity.
  - rewrite bool_decide_eq_false_2.
    + cbn [delete list_delete]. f_equal. apply IH, Hi.
    + intros ->. apply Hn. eapply list_elem_of_lookup_2, Hi.
Qed.


(** X12.  [delete_entry] of the dataclass tool on records whose texts UTF-8 can
    encode, when the choice typed is of digits that [int] reads as the
    number of a record, after the answer [s] or [S] and a line for the
    pause: the store then holds the records without the first one equal to
    the record chosen, one record less; when the records are all different
    these are the records without the position chosen; the removal is
    reported. *)
Theorem visual_delete_entry_confirmed (BASE_DIR : string) (py_repr : json -> str)
    (records : list Visual.Entry) (choice confirmation enter : str) (rest : list str)
    (chosen : Visual.Entry) (value : Z) (w : world) :
  stdin w = choice :: confirmation :: enter :: rest ->
  isdigit choice = true -> int_of_str choice = Ok value ->
  records !! Z.to_nat (value - 1) = Some chosen ->
  0 <= value - 1 ->
  strip confirmation = bytes_of_string "s" \/ strip confirmation = bytes_of_string "S" ->
  Forall record_encodable records ->
  exists w' w'',
    Visual.delete_entry BASE_DIR records w = (Ok tt, w') /\
    Visual.load_entries BASE_DIR py_repr w'
    = (Ok (map reloaded (Visual.list_remove chosen records)), w'') /\
    (length (Visual.list_remove chosen records) + 1 = length records)%nat /\
    (NoDup records ->
     Visual.list_remove chosen records
     = delete (Z.to_nat (value - 1)) records) /\
    stdout w' = stdout w ++ ["Registro eliminado."].
Proof.
  intros Hin Hd Hv Hlook H0 Hconf Henc.
  assert (Hr : 0 <= value - 1 < Z.of_nat (length records)).
  { apply lookup_lt_Some in Hlook. lia. }
  set (w1 := World (files w) (enter :: rest) (stdout w) (ticks w) (time_at w)).
  assert (Hkept : Forall record_encodable (Visual.list_remove chosen records)).
  { apply Forall_forall. intros r Hin'. rewrite Forall_forall in Henc. apply Henc.
    eapply elem_of_sublist; [exact Hin' | apply list_remove_sublist]. }
  destruct (visual_save_load BASE_DIR py_repr _ w1 Hkept) as (raw & _ & Hsave & Hload).
  eexists _, _. split; [|split; [|split; [|split]]].
  - unfold Visual.delete_entry.
    erewrite bindM_ok; [|apply (choose_entry_in_range records w choice value _ Hin Hd Hv Hr)].
    cbv beta iota. rewrite Hlook.
    erewrite bindM_ok; [|reflexivity]. cbv beta zeta.
    assert (Hc : str_eqb (strip confirmation) (bytes_of_string "s")
                 || str_eqb (strip confirmation) (bytes_of_string "S") = true).
    { destruct Hconf as [-> | ->]; reflexivity. }
    rewrite Hc.
    erewrite bindM_ok.
    2: { erewrite bindM_ok; [|exact Hsave]. reflexivity. }
    unfold Visual.pause. erewrite bindM_ok; [|reflexivity]. reflexivity.
  - cbn [with_file set_files files stdin stdout ticks time_at w1] in *.
    match goal with
    | |- Visual.load_entries _ _ ?a = _ =>
        replace a with (with_file (Visual.DATA_FILE BASE_DIR) raw
                          (World (files w) rest (stdout w ++ ["Registro eliminado."])
                                 (ticks w) (time_at w))) by reflexivity
    end.
    destruct (visual_save_load BASE_DIR py_repr _
                (World (files w) rest (stdout w ++ ["Registro eliminado."])
                       (ticks w) (time_at w)) Hkept) as (raw' & E' & Hsave' & Hload').
    assert (raw' = raw) as ->.
    { destruct (visual_save_load BASE_DIR py_repr _ w1 Hkept) as (raw2 & E2 & Hsave2 & _).
      rewrite Hsave in Hsave2. injection Hsave2 as Hm.
      apply (f_equal (fun m => m !! Visual.DATA_FILE BASE_DIR)) in Hm.
      rewrite !lookup_insert_eq in Hm. congruence. }
    exact Hload'.
  - apply list_remove_length. eapply list_elem_of_lookup_2, Hlook.
  - intros Hn. apply list_remove_NoDup; assumption.
  - reflexivity.
Qed.


(** ** Editing a record *)

Lemma record_encodable_insert (records : list Visual.Entry) (i : nat) (r : Visual.Entry) :
  Forall record_encodable records -> record_encodable r ->
  Forall record_encodable (<[i := r]> records).
Proof. intros H Hr. apply Forall_insert; assumption. Qed.

(** X13.  [edit_entry] of the dataclass tool on records whose texts UTF-8 can
    encode, when the choice typed is of digits that [int] reads as the
    number of a record, a new site is typed and no new password, a line for
    the pause follows, and the new site, the new user name and the dates of
    the clock are texts UTF-8 can encode: the record chosen gets the trimmed new site, the trimmed new
    user name if one is typed, and the current time in [updated_at]; the
    store then holds the records with this one in its place.  Nothing checks
    that the new site is filled, as [add_entry] does: a site typed as white
    space only leaves the record with an empty site. *)
Theorem visual_edit_entry_site (BASE_DIR : string) (py_repr : json -> str)
    (records : list Visual.Entry) (chosen : Visual.Entry)
    (choice new_site new_username enter secret : str) (rest : list str)
    (value : Z) (w : world) :
  stdin w = choice :: new_site :: new_username :: [] :: enter :: rest ->
  isdigit choice = true -> int_of_str choice = Ok value -> 0 <= value - 1 ->
  records !! Z.to_nat (value - 1) = Some chosen ->
  new_site <> [] ->
  Forall record_encodable records ->
  encodable new_site -> encodable new_username ->
  (forall n, encodable (time_at w n)) ->
  exists edited w' w'',
    Visual.edit_entry BASE_DIR records secret w = (Ok tt, w') /\
    Visual.load_entries BASE_DIR py_repr w'
    = (Ok (map reloaded (<[Z.to_nat (value - 1) := edited]> records)), w'') /\
    Visual.site edited = strip new_site /\
    Visual.username edited
    = (if str_eqb new_username [] then Visual.username chosen else strip new_username) /\
    Visual.password_hash edited = Visual.password_hash chosen /\
    Visual.password_encrypted edited = Visual.password_encrypted chosen /\
    Visual.created_at edited = Visual.created_at chosen /\
    Visual.updated_at edited = now w /\
    (strip new_site = [] -> Visual.site edited = []) /\
    stdout w' = stdout w ++ ["Registro actualizado correctamente."].
Proof.
  intros Hin Hd Hv H0 Hlook Hsite Henc Es Eu Hclock.
  assert (Hr : 0 <= value - 1 < Z.of_nat (length records)).
  { apply lookup_lt_Some in Hlook. lia. }
  set (i := Z.to_nat (value - 1)) in *.
  set (edited := Visual.mkEntry (strip new_site)
                   (if str_eqb new_username [] then Visual.username chosen
                    else strip new_username)
                   (Visual.password_hash chosen) (Visual.password_encrypted chosen)
                   (Visual.created_at chosen) (now w)).
  assert (Hchosen : record_encodable chosen).
  { rewrite Forall_forall in Henc. apply Henc. eapply list_elem_of_lookup_2, Hlook. }
  assert (Hedited : record_encodable edited).
  { unfold record_encodable in *. subst edited. cbn.
    apply Forall_cons_1 in Hchosen as [H1 H]. apply Forall_cons_1 in H as [H2 H].
    apply Forall_cons_1 in H as [H3 H]. apply Forall_cons_1 in H as [H4 H].
    apply Forall_cons_1 in H as [H5 H]. apply Forall_cons_1 in H as [H6 _].
    constructor; [apply encodable_strip, Es|].
    constructor; [destruct (str_eqb new_username []); [exact H2 | apply encodable_strip, Eu]|].
    repeat (constructor; [assumption|]).
    constructor; [apply Hclock | constructor]. }
  pose proof (record_encodable_insert records i edited Henc Hedited) as Hall.
  set (w1 := World (files w) (enter :: rest) (stdout w) (S (ticks w)) (time_at w)).
  destruct (visual_save_load BASE_DIR py_repr _ w1 Hall) as (raw & Eraw & Hsave & _).
  set (w2 := World (files w) rest (stdout w ++ ["Registro actualizado correctamente."])
                   (S (ticks w)) (time_at w)).
  destruct (visual_save_load BASE_DIR py_repr _ w2 Hall) as (raw' & Eraw' & _ & Hload).
  assert (raw' = raw) as -> by congruence.
  exists edited. eexists _, _. split; [|split].
  - unfold Visual.edit_entry.
    erewrite bindM_ok; [|apply (choose_entry_in_range records w choice value _ Hin Hd Hv Hr)].
    cbv beta iota. fold i. rewrite Hlook.
    erewrite bindM_ok; [|reflexivity].
    erewrite bindM_ok; [|reflexivity].
    erewrite bindM_ok; [|reflexivity].
    erewrite (bindM_ok _ _ _ w1 edited).
    2: { subst edited w1. destruct new_site as [|c0 s0]; [congruence|].
         destruct new_username; reflexivity. }
    erewrite bindM_ok; [|reflexivity].
    erewrite bindM_ok; [|exact Hsave].
    erewrite bindM_ok; [|reflexivity].
    unfold Visual.pause. erewrite bindM_ok; [|reflexivity]. reflexivity.
  - exact Hload.
  - subst edited. cbn. repeat split; try reflexivity. intros ->. reflexivity.
Qed.


(** ** Setting up the store *)

Lemma cli_migrate_files (lines : list str) (secret : str) :
  forall w, files (snd (Cli.migrate lines secret w)) = files w.
Proof.
  induction lines as [| l0 | l0 l1 | l0 l1 l2 rest IH] using list_ind3; intros w;
    try reflexivity.
  cbn [Cli.migrate]. unfold bindM at 1.
  unfold Cli.build_entry at 1. unfold bindM at 1. unfold utcnow at 1.
  unfold bindM at 1. unfold lift at 1.
  destruct (hash_text _) as [h|e]; [|reflexivity].
  unfold bindM at 1. unfold lift at 1.
  destruct (encrypt_password _ _) as [c|e]; [|reflexivity].
  unfold ret at 1. unfold bindM at 1.
  match goal with |- context [Cli.migrate rest secret ?w1] =>
    specialize (IH w1); destruct (Cli.migrate rest secret w1) as [[es|e] w2] end;
    cbn [snd] in *; exact IH.
Qed.

Lemma visual_migrate_chunk_files (l0 l1 l2 secret : str) (w : world) :
  files (snd (Visual.migrate_chunk l0 l1 l2 secret w)) = files w.
Proof.
  unfold Visual.migrate_chunk.
  destruct (Visual.field l0); [|reflexivity].
  destruct (Visual.field l1); [|reflexivity].
  destruct (Visual.field l2); [|reflexivity].
  unfold bindM, Visual.build, bindM, utcnow, lift, ret.
  destruct (hash_text _); [|reflexivity].
  destruct (encrypt_password _ _); reflexivity.
Qed.

Lemma visual_migrate_files (secret : str) (n : nat) :
  forall (lines : list str) (w : world),
    (length lines <= n)%nat -> files (snd (Visual.migrate lines secret w)) = files w.
Proof.
  induction n as [|n IH]; intros lines w Hn.
  - destruct lines; [reflexivity | cbn [length] in Hn; lia].
  - destruct lines as [|l0 [|l1 [|l2 [|l3 rest]]]]; try reflexivity.
    + apply visual_migrate_chunk_files.
    + cbn [Visual.migrate]. unfold bindM at 1.
      pose proof (visual_migrate_chunk_files l0 l1 l2 secret w) as Hc.
      destruct (Visual.migrate_chunk l0 l1 l2 secret w) as [[chunk|e] w1];
        cbn [snd] in *; [|exact Hc].
      unfold bindM at 1.
      pose proof (IH rest w1 ltac:(cbn [length] in Hn; lia)) as Hr.
      destruct (Visual.migrate rest secret w1) as [[es|e] w2]; unfold ret;
        cbn [snd] in *; congruence.
Qed.

Lemma write_text_Ok (p : path) (text : str) (w w' : world) :
  write_text p text w = (Ok tt, w') ->
  exists raw, w' = with_file p raw w.
Proof.
  unfold write_text. destruct (utf8_encode text) as [raw|e]; [|discriminate].
  intros [= <-]. exists raw. reflexivity.
Qed.

(** After [ensure_storage] of the command line tool returns, the store file
    is there. *)
Lemma cli_ensure_storage_present (DATA_FILE : path) (BASE_DIR CWD : string)
    (secret : str) (w w' : world) :
  Cli.ensure_storage DATA_FILE BASE_DIR CWD secret w = (Ok tt, w') ->
  is_Some (files w' !! DATA_FILE).
Proof.
  unfold Cli.ensure_storage. unfold bindM at 1. unfold exists_ at 1.
  destruct (files w !! DATA_FILE) as [raw0|] eqn:E.
  { rewrite bool_decide_eq_true_2 by eauto. intros [= <-]. rewrite E. eauto. }
  rewrite bool_decide_eq_false_2 by (intros [? ?]; discriminate).
  unfold bindM at 1. unfold Cli._find_legacy_file at 1.
  destruct (List.find _ _) as [legacy|] eqn:Ef.
  - apply List.find_some in Ef as [_ Hex]. apply bool_decide_eq_true in Hex.
    destruct Hex as (rawl & Hl).
    assert (Hne : legacy <> DATA_FILE) by (intros ->; congruence).
    unfold bindM at 1. unfold read_text at 1. rewrite Hl.
    destruct (decode_text rawl) as [text|e]; [|discriminate].
    unfold bindM at 1.
    pose proof (cli_migrate_files (Cli.legacy_lines text) secret w) as Hm.
    destruct (Cli.migrate (Cli.legacy_lines text) secret w) as [[es|e] w1];
      [|discriminate].
    cbn [snd] in Hm. unfold bindM at 1. unfold Cli.save_entries at 1.
    destruct (write_text DATA_FILE _ w1) as [[[]|e] w2] eqn:Ew; [|discriminate].
    destruct (write_text_Ok _ _ _ _ Ew) as (raw & ->).
    unfold try_except, rename. cbn [files with_file set_files].
    rewrite lookup_insert_ne by congruence. rewrite Hm, Hl.
    intros [= <-]. cbn [files set_files].
    destruct (decide (with_suffix legacy ".bak" = DATA_FILE)) as [->|Hb].
    + rewrite lookup_insert_eq. eauto.
    + rewrite lookup_insert_ne by exact Hb. rewrite lookup_delete_ne by exact Hne.
      rewrite lookup_insert_eq. eauto.
  - unfold Cli.save_entries. intros Hw.
    destruct (write_text_Ok _ _ _ _ Hw) as (raw & ->).
    cbn [files with_file set_files]. rewrite lookup_insert_eq. eauto.
Qed.

Lemma visual_ensure_storage_present (BASE_DIR : string) (secret : str) (w w' : world) :
  Visual.ensure_storage BASE_DIR secret w = (Ok tt, w') ->
  is_Some (files w' !! Visual.DATA_FILE BASE_DIR).
Proof.
  unfold Visual.ensure_storage. unfold bindM at 1. unfold exists_ at 1.
  destruct (files w !! Visual.DATA_FILE BASE_DIR) as [raw0|] eqn:E.
  { rewrite bool_decide_eq_true_2 by eauto. intros [= <-]. rewrite E. eauto. }
  rewrite bool_decide_eq_false_2 by (intros [? ?]; discriminate).
  unfold bindM at 1. unfold exists_ at 1.
  destruct (files w !! Visual.LEGACY_FILE BASE_DIR) as [rawl|] eqn:Hl.
  - rewrite bool_decide_eq_true_2 by eauto. cbn [negb].
    unfold bindM at 1. unfold read_text at 1. rewrite Hl.
    destruct (decode_text rawl) as [text|e]; [|discriminate].
    unfold bindM at 1.
    pose proof (visual_migrate_files secret _ (splitlines text) w (Nat.le_refl _)) as Hm.
    destruct (Visual.migrate (splitlines text) secret w) as [[es|e] w1]; [|discriminate].
    cbn [snd] in Hm. unfold bindM at 1. unfold Visual.save_entries at 1.
    destruct (write_text (Visual.DATA_FILE BASE_DIR) _ w1) as [[[]|e] w2] eqn:Ew;
      [|discriminate].
    destruct (write_text_Ok _ _ _ _ Ew) as (raw & ->).
    unfold rename. cbn [files with_file set_files].
    rewrite lookup_insert_ne by discriminate. rewrite Hm, Hl.
    intros [= <-]. cbn [files set_files].
    rewrite lookup_insert_ne by discriminate. rewrite lookup_delete_ne by discriminate.
    rewrite lookup_insert_eq. eauto.
  - rewrite bool_decide_eq_false_2 by (intros [? ?]; discriminate). cbn [negb].
    unfold Visual.save_entries. intros Hw.
    destruct (write_text_Ok _ _ _ _ Hw) as (raw & ->).
    cbn [files with_file set_files]. rewrite lookup_insert_eq. eauto.
Qed.

(** X14.  [ensure_storage] run again after it has returned finds the store file
    and does nothing, in both tools and whatever the secret. *)
Theorem ensure_storage_idempotent (DATA_FILE : path) (BASE_DIR CWD : string)
    (secret secret' : str) (w w' v v' : world) :
  (Cli.ensure_storage DATA_FILE BASE_DIR CWD secret w = (Ok tt, w') ->
   Cli.ensure_storage DATA_FILE BASE_DIR CWD secret' w' = (Ok tt, w')) /\
  (Visual.ensure_storage BASE_DIR secret v = (Ok tt, v') ->
   Visual.ensure_storage BASE_DIR secret' v' = (Ok tt, v')).
Proof.
  split; intros H.
  - destruct (cli_ensure_storage_present _ _ _ _ _ _ H) as (raw & Hraw).
    unfold Cli.ensure_storage. erewrite bindM_ok; [|eapply exists_present, Hraw].
    reflexivity.
  - destruct (visual_ensure_storage_present _ _ _ _ H) as (raw & Hraw).
    unfold Visual.ensure_storage. erewrite bindM_ok; [|eapply exists_present, Hraw].
    reflexivity.
Qed.


Lemma find_none (DATA_FILE : path) (BASE_DIR CWD : string) (w : world) :
  Forall (fun candidate => files w !! candidate = None)
         (Cli.LEGACY_FILE_CANDIDATES DATA_FILE BASE_DIR CWD) ->
  Cli._find_legacy_file DATA_FILE BASE_DIR CWD w = (Ok None, w).
Proof.
  intros H. unfold Cli._find_legacy_file. f_equal. f_equal.
  induction H as [|c cs Hc _ IH]; [reflexivity|].
  cbn [List.find]. rewrite Hc.
  rewrite bool_decide_eq_false_2 by (intros [? ?]; discriminate). exact IH.
Qed.

Lemma visual_fresh_store (BASE_DIR : string) (py_repr : json -> str) (secret : str)
    (v : world) :
  files v !! Visual.DATA_FILE BASE_DIR = None ->
  files v !! Visual.LEGACY_FILE BASE_DIR = None ->
  Visual.ensure_storage BASE_DIR secret v
  = (Ok tt, with_file (Visual.DATA_FILE BASE_DIR) (bytes_of_string "[]") v) /\
  Visual.load_entries BASE_DIR py_repr
    (with_file (Visual.DATA_FILE BASE_DIR) (bytes_of_string "[]") v)
  = (Ok [], with_file (Visual.DATA_FILE BASE_DIR) (bytes_of_string "[]") v).
Proof.
  intros Hv Hl. split.
  - unfold Visual.ensure_storage.
    erewrite bindM_ok; [|apply exists_absent, Hv]. cbv beta iota.
    erewrite bindM_ok; [|apply exists_absent, Hl]. reflexivity.
  - unfold Visual.load_entries.
    erewrite bindM_ok;
      [|eapply exists_present; unfold with_file; cbn [files set_files];
        apply lookup_insert_eq].
    cbn [negb]. cbv beta iota.
    erewrite bindM_ok.
    2: { unfold try_except, read_text, bindM. unfold with_file.
         cbn [files set_files]. rewrite lookup_insert_eq. reflexivity. }
    reflexivity.
Qed.

(** X15.  With no store file and no legacy file, [ensure_storage] writes a store
    that holds the empty list, and [load_entries] then reads no record, in
    both tools. *)
Theorem ensure_storage_creates_empty_store (DATA_FILE : path) (BASE_DIR CWD : string)
    (py_repr : json -> str) (secret : str) (w v : world) :
  files w !! DATA_FILE = None ->
  Forall (fun candidate => files w !! candidate = None)
         (Cli.LEGACY_FILE_CANDIDATES DATA_FILE BASE_DIR CWD) ->
  files v !! Visual.DATA_FILE BASE_DIR = None ->
  files v !! Visual.LEGACY_FILE BASE_DIR = None ->
  let w' := with_file DATA_FILE (bytes_of_string "[]") w in
  let v' := with_file (Visual.DATA_FILE BASE_DIR) (bytes_of_string "[]") v in
  Cli.ensure_storage DATA_FILE BASE_DIR CWD secret w = (Ok tt, w') /\
  Cli.load_entries DATA_FILE w' = (Ok [], w') /\
  Visual.ensure_storage BASE_DIR secret v = (Ok tt, v') /\
  Visual.load_entries BASE_DIR py_repr v' = (Ok [], v').
Proof.
  intros Hw Hc Hv Hl w' v'. split; [|split; [|split]].
  - unfold Cli.ensure_storage.
    erewrite bindM_ok; [|apply exists_absent, Hw]. cbv beta iota.
    erewrite bindM_ok; [|apply find_none, Hc]. reflexivity.
  - rewrite cli_load_entries_eq. subst w'. unfold with_file. cbn [files set_files].
    rewrite lookup_insert_eq. reflexivity.
  - apply (visual_fresh_store BASE_DIR py_repr secret v Hv Hl).
  - apply (visual_fresh_store BASE_DIR py_repr secret v Hv Hl).
Qed.

(** X16.  When the store path ends in [.bak] and the legacy file found is the
    store path with [.txt], the last step of the migration, the renaming of
    the legacy file to [.bak], replaces the store just written: the store
    file then holds the bytes of the legacy file, passwords in clear, and not
    the migrated records.  ([rename] replaces an existing file, as it does
    on POSIX.) *)
Theorem ensure_storage_overwrites_bak_store (DATA_FILE : path) (BASE_DIR CWD : string)
    (secret : str) (raw : bytes) (w w' : world) :
  suffix DATA_FILE = ".bak"%string ->
  files w !! DATA_FILE = None ->
  fst (Cli._find_legacy_file DATA_FILE BASE_DIR CWD w)
  = Ok (Some (with_suffix DATA_FILE ".txt")) ->
  files w !! with_suffix DATA_FILE ".txt" = Some raw ->
  Cli.ensure_storage DATA_FILE BASE_DIR CWD secret w = (Ok tt, w') ->
  files w' !! DATA_FILE = Some raw /\ files w' !! with_suffix DATA_FILE ".txt" = None.
Proof.
  intros Hsfx Hnone Hfind Hl. unfold Cli.ensure_storage.
  erewrite bindM_ok; [|apply exists_absent, Hnone]. cbv beta iota.
  erewrite bindM_ok;
    [|apply find_legacy_run, Hfind].
  cbv beta iota.
  set (legacy := with_suffix DATA_FILE ".txt") in *.
  assert (Hbak : with_suffix legacy ".bak" = DATA_FILE).
  { subst legacy. destruct DATA_FILE as [d s x]. cbn in Hsfx. subst x. reflexivity. }
  assert (Hne : legacy <> DATA_FILE) by (intros E; rewrite E in Hl; congruence).
  unfold bindM at 1. unfold read_text at 1. rewrite Hl.
  destruct (decode_text raw) as [text|e]; [|discriminate].
  unfold bindM at 1.
  pose proof (cli_migrate_files (Cli.legacy_lines text) secret w) as Hm.
  destruct (Cli.migrate (Cli.legacy_lines text) secret w) as [[es|e] w1]; [|discriminate].
  cbn [snd] in Hm. unfold bindM at 1. unfold Cli.save_entries at 1.
  destruct (write_text DATA_FILE _ w1) as [[[]|e] w2] eqn:Ew; [|discriminate].
  destruct (write_text_Ok _ _ _ _ Ew) as (stored & ->).
  unfold try_except, rename. cbn [files with_file set_files].
  rewrite lookup_insert_ne by congruence. rewrite Hm, Hl, Hbak.
  intros [= <-]. cbn [files set_files]. split.
  - apply lookup_insert_eq.
  - rewrite lookup_insert_ne by congruence. apply lookup_delete_eq.
Qed.


Lemma encodable_replace_from (old : str) (fuel : nat) :
  forall s, encodable s -> encodable (replace_from fuel old [] s).
Proof.
  induction fuel as [|fuel IH]; intros s Hs; [exact Hs|].
  cbn [replace_from]. destruct s as [|c r]; [constructor|].
  destruct (strip_prefix old (c :: r)) as [rest|] eqn:E.
  - cbn [app]. apply IH. apply strip_prefix_Some in E. rewrite E in Hs.
    apply Forall_app in Hs as [_ Hs]. exact Hs.
  - apply Forall_cons_1 in Hs as [Hc Hr]. constructor; [exact Hc | apply IH, Hr].
Qed.

Lemma encodable_replace (s old : str) : encodable s -> encodable (replace s old []).
Proof. apply encodable_replace_from. Qed.

(** The loop of [ensure_storage] of the command line tool on lines UTF-8
    can encode: one record for every three lines, a last group that lacks a
    line left out. *)
Lemma cli_migrate_ok (secret : str) (lines : list str) :
  Forall encodable lines -> encodable secret ->
  forall w, (forall n, encodable (time_at w n)) ->
    exists entries w',
      Cli.migrate lines secret w = (Ok entries, w') /\
      Forall storable entries /\
      length entries = (length lines / 3)%nat /\
      files w' = files w /\ stdin w' = stdin w /\ stdout w' = stdout w.
Proof.
  intros Hl Hs.
  induction lines as [| l0 | l0 l1 | l0 l1 l2 rest IH] using list_ind3; intros w Hclock;
    try (exists [], w; repeat split; constructor).
  apply Forall_cons_1 in Hl as [H0 Hl]. apply Forall_cons_1 in Hl as [H1 Hl].
  apply Forall_cons_1 in Hl as [H2 Hl].
  pose proof (encodable_replace l0 Cli.LABEL_SITE H0) as E0.
  pose proof (encodable_replace l1 Cli.LABEL_USERNAME H1) as E1.
  pose proof (encodable_replace l2 Cli.LABEL_PASSWORD H2) as E2.
  destruct (hash_text_ok _ E2) as (h & Eh).
  destruct (encrypt_ok _ secret E2 Hs) as (c & Ec).
  destruct (IH Hl (tick w) Hclock) as (entries & w' & Hm & Hst & Hlen & Hf & Hi & Ho).
  eexists (_ :: entries), w'. split; [|split; [|split]].
  - cbn [Cli.migrate].
    erewrite bindM_ok; [|apply build_entry_ok; eassumption].
    erewrite bindM_ok; [|exact Hm]. reflexivity.
  - constructor; [|exact Hst].
    apply built_entry_storable; try assumption.
    + eapply hash_text_encodable; eassumption.
    + eapply encrypt_password_encodable; eassumption.
    + apply Hclock.
  - cbn [length]. rewrite Hlen.
    change (S (S (S (length rest)))) with (1 * 3 + length rest)%nat.
    rewrite Nat.div_add_l by lia. reflexivity.
  - repeat split; assumption.
Qed.

(** X17.  [ensure_storage] of the command line tool migrates every full group of
    three lines of the legacy file: the store then holds as many records as
    a third of the lines that are not blank, rounded down, and the legacy
    file is gone from its path. *)
Theorem ensure_storage_migrates_groups_of_three
    (DATA_FILE : path) (BASE_DIR CWD : string) (secret : str)
    (legacy : path) (raw : bytes) (text : str) (w : world) :
  files w !! DATA_FILE = None ->
  fst (Cli._find_legacy_file DATA_FILE BASE_DIR CWD w) = Ok (Some legacy) ->
  files w !! legacy = Some raw -> decode_text raw = Ok text ->
  Forall encodable (Cli.legacy_lines text) -> encodable secret ->
  (forall n, encodable (time_at w n)) ->
  with_suffix legacy ".bak" <> DATA_FILE ->
  exists entries w',
    Cli.ensure_storage DATA_FILE BASE_DIR CWD secret w = (Ok tt, w') /\
    Cli.load_entries DATA_FILE w' = (Ok entries, w') /\
    length entries = (length (Cli.legacy_lines text) / 3)%nat /\
    files w' !! legacy = None.
Proof.
  intros Hnone Hfind Hraw Hdec Hl Hs Hclock Hbak.
  destruct (find_legacy_suffix _ _ _ _ _ Hfind) as [Hsfx _].
  assert (Hld : legacy <> DATA_FILE) by (intros ->; congruence).
  assert (Hbl : with_suffix legacy ".bak" <> legacy).
  { destruct legacy as [d s x]. cbn in Hsfx. subst x. discriminate. }
  destruct (cli_migrate_ok secret _ Hl Hs w Hclock)
    as (entries & w1 & Hm & Hst & Hlen & Hf & _ & _).
  destruct (cli_save_load DATA_FILE entries w1 Hst) as (stored & Estored & Hsave & _).
  exists entries. eexists. split; [|split; [|split; [exact Hlen|]]].
  - unfold Cli.ensure_storage.
    erewrite bindM_ok; [|apply exists_absent, Hnone]. cbv beta iota.
    erewrite bindM_ok;
      [|apply find_legacy_run, Hfind].
    cbv beta iota.
    erewrite bindM_ok; [|unfold read_text; rewrite Hraw, Hdec; reflexivity].
    erewrite bindM_ok; [|exact Hm].
    erewrite bindM_ok; [|exact Hsave].
    unfold try_except, rename. cbn [files with_file set_files].
    rewrite lookup_insert_ne by congruence. rewrite Hf, Hraw. reflexivity.
  - apply (cli_load_stored DATA_FILE _ entries stored);
      [|apply storable_records, Hst | exact Estored].
    cbn [files set_files with_file].
    rewrite lookup_insert_ne by exact Hbak.
    rewrite lookup_delete_ne by exact Hld.
    apply lookup_insert_eq.
  - cbn [files set_files with_file].
    rewrite lookup_insert_ne by exact Hbl.
    apply lookup_delete_eq.
Qed.


(** ** Reading the store *)

Lemma from_dicts_files (py_repr : json -> str) (items : list json) :
  forall w r w',
    Visual.from_dicts py_repr items w = (r, w') ->
    files w' = files w /\ stdin w' = stdin w /\ stdout w' = stdout w.
Proof.
  induction items as [|item items IH]; intros w r w'.
  - intros [= _ <-]. repeat split.
  - destruct item; cbn [Visual.from_dicts]; try apply IH.
    unfold bindM at 1. unfold Visual.from_dict at 1. unfold bindM, utcnow, ret.
    match goal with |- context [Visual.from_dicts py_repr items ?w1] =>
      specialize (IH w1); destruct (Visual.from_dicts py_repr items w1) as [[es|e] w2] end;
      intros [= _ <-]; exact (IH _ _ eq_refl).
Qed.

(** [load_entries] of the dataclass tool, by what the store file holds. *)
Lemma visual_load_entries_eq (BASE_DIR : string) (py_repr : json -> str) (v : world) :
  Visual.load_entries BASE_DIR py_repr v =
  match files v !! Visual.DATA_FILE BASE_DIR with
  | None => (Ok [], v)
  | Some raw =>
      match decode_text raw with
      | Raise JSONDecodeError =>
          (Ok [], reported "⚠️  Error al interpretar el archivo de datos." v)
      | Raise e => (Raise e, v)
      | Ok text =>
          match json_loads text with
          | Raise _ => (Ok [], reported "⚠️  Error al interpretar el archivo de datos." v)
          | Ok (JList items) => Visual.from_dicts py_repr items v
          | Ok (JDict _) => (Ok [], v)
          | Ok (JStr _) => (Ok [], v)
          | Ok _ => (Raise TypeError, v)
          end
      end
  end.
Proof.
  unfold Visual.load_entries, bindM at 1. unfold exists_ at 1.
  destruct (files v !! Visual.DATA_FILE BASE_DIR) as [raw|] eqn:E.
  2: { rewrite bool_decide_eq_false_2 by (intros [? ?]; discriminate). reflexivity. }
  rewrite bool_decide_eq_true_2 by eauto. cbn [negb].
  unfold bindM at 1. unfold try_except, bindM at 1, read_text at 1. rewrite E.
  destruct (decode_text raw) as [text|e]; [|destruct e; reflexivity].
  unfold bindM, lift, ret, report.
  destruct (json_loads text) as [data|e] eqn:J.
  - destruct data; reflexivity.
  - rewrite (json_loads_raises _ _ J). reflexivity.
Qed.

(** X18.  [load_entries] only reads: whatever the store file holds, and whether
    it returns or raises, the files and the lines still to be typed are
    afterwards what they were, in both tools. *)
Theorem load_entries_reads_only (DATA_FILE : path) (BASE_DIR : string)
    (py_repr : json -> str) (w v : world) :
  (files (snd (Cli.load_entries DATA_FILE w)) = files w /\
   stdin (snd (Cli.load_entries DATA_FILE w)) = stdin w) /\
  (files (snd (Visual.load_entries BASE_DIR py_repr v)) = files v /\
   stdin (snd (Visual.load_entries BASE_DIR py_repr v)) = stdin v).
Proof.
  split.
  - rewrite cli_load_entries_eq.
    destruct (files w !! DATA_FILE) as [raw|]; [|split; reflexivity].
    destruct (decode_text raw) as [text|e]; [|destruct e; split; reflexivity].
    destruct (json_loads text) as [data|e]; [destruct data|]; split; reflexivity.
  - rewrite visual_load_entries_eq.
    destruct (files v !! Visual.DATA_FILE BASE_DIR) as [raw|]; [|split; reflexivity].
    destruct (decode_text raw) as [text|e]; [|destruct e; split; reflexivity].
    destruct (json_loads text) as [data|e]; [|split; reflexivity].
    destruct data; try (split; reflexivity).
    destruct (Visual.from_dicts py_repr l v) as [r v'] eqn:Ed.
    destruct (from_dicts_files py_repr l v r v' Ed) as (Hf & Hi & _).
    split; assumption.
Qed.


(** ** Banners and tables *)

Lemma str_mul_char (c : Z) (n : nat) : str_mul [c] n = repeat c n.
Proof.
  unfold str_mul. induction n as [|n IH]; [reflexivity|].
  cbn [repeat concat app]. rewrite IH. reflexivity.
Qed.

Lemma str_mul_length (s : str) (n : nat) : length (str_mul s n) = (n * length s)%nat.
Proof.
  unfold str_mul. induction n as [|n IH]; [reflexivity|].
  cbn [repeat concat]. rewrite length_app, IH. lia.
Qed.

(** X19.  [banner_line] frames every text the same way: three lines of 68
    characters between the colour and the reset, the text cut at 66
    characters and centred in the second, with at most one space more on its
    right than on its left. *)
Theorem banner_line_width (text colour : str) :
  exists top middle bottom left right,
    Visual.banner_line text colour
    = Visual.highlight top colour false ++ [10]
      ++ Visual.highlight middle colour false ++ [10]
      ++ Visual.highlight bottom colour false /\
    length top = 68%nat /\ length middle = 68%nat /\ length bottom = 68%nat /\
    middle = py "║" ++ repeat 32 left ++ firstn 66 text ++ repeat 32 right ++ py "║" /\
    (left <= right <= left + 1)%nat.
Proof.
  unfold Visual.banner_line. cbv zeta.
  change (Z.to_nat (68 - 2)) with 66%nat. change (68 - 2) with 66.
  set (message := firstn 66 text).
  assert (Hm : (length message <= 66)%nat) by (subst message; rewrite length_firstn; lia).
  set (n := Z.of_nat (length message)).
  set (padding := Z.max ((66 - n) / 2) 0).
  rewrite !str_mul_char.
  eexists _, _, _, (Z.to_nat padding), (Z.to_nat (66 - padding - n)).
  split; [reflexivity|].
  change (py "╔") with [9556]. change (py "╗") with [9559].
  change (py "║") with [9553]. change (py "╚") with [9562]. change (py "╝") with [9565].
  rewrite !length_app, !str_mul_length, !repeat_length. change (py "═") with [9552].
  cbn [length]. subst padding. fold n.
  assert (Hn : 0 <= n <= 66) by (subst n; lia).
  repeat split; try reflexivity; dlia.
Qed.


Lemma list_sum_cons (a : nat) (l : list nat) : list_sum (a :: l) = (a + list_sum l)%nat.
Proof. reflexivity. Qed.

(** The lengths of the parts and of the separators between them. *)
Lemma join_length_eq (sep : str) (parts : list str) :
  length (join sep parts)
  = (list_sum (map (@length Z) parts) + (length parts - 1) * length sep)%nat.
Proof.
  destruct parts as [|x parts]; [reflexivity|]. rewrite join_cons, length_app.
  assert (H : length (flat_map (fun y => sep ++ y) parts)
              = (list_sum (map (@length Z) parts) + length parts * length sep)%nat).
  { induction parts as [|y parts IH]; [reflexivity|].
    cbn [flat_map map length Nat.mul]. rewrite list_sum_cons, !length_app, IH. lia. }
  rewrite H. cbn [map length Nat.sub]. rewrite list_sum_cons, Nat.sub_0_r. lia.
Qed.

Lemma ljust_length (s : str) (width : nat) :
  length (ljust s width) = Nat.max (length s) width.
Proof. unfold ljust. rewrite length_app, repeat_length. lia. Qed.

(** A row fits the widths: cell by cell it is no longer than its column. *)
Lemma widen_spec (row : list str) :
  forall (widths : list nat) (idx : nat),
    (idx + length row <= length widths)%nat ->
    exists widths',
      Cli.widen widths idx row = Ok widths' /\
      length widths' = length widths /\
      (forall i w, widths !! i = Some w -> exists w', widths' !! i = Some w' /\ (w <= w')%nat) /\
      (forall k cell, row !! k = Some cell ->
         exists w', widths' !! (idx + k)%nat = Some w' /\ (length cell <= w')%nat).
Proof.
  induction row as [|cell rest IH]; intros widths idx Hlen.
  - exists widths. split; [reflexivity|]. split; [reflexivity|].
    split; [intros i w Hi; eauto | intros k cell Hk; discriminate].
  - cbn [length] in Hlen. cbn [Cli.widen].
    destruct (lookup_lt_is_Some_2 widths idx ltac:(lia)) as (width & Hw). rewrite Hw.
    set (widths1 := <[idx := Nat.max width (length cell)]> widths).
    destruct (IH widths1 (S idx)) as (widths' & E & Hl & Hmono & Hcells).
    { subst widths1. rewrite length_insert. lia. }
    exists widths'. split; [exact E|].
    split; [rewrite Hl; subst widths1; apply length_insert|].
    assert (Hstep : forall i w, widths !! i = Some w ->
                      exists w1, widths1 !! i = Some w1 /\ (w <= w1)%nat).
    { intros i w Hi. subst widths1. destruct (decide (i = idx)) as [->|Hne].
      - rewrite list_lookup_insert_eq by (eapply lookup_lt_Some; eassumption).
        eexists. split; [reflexivity|]. assert (w = width) by congruence. lia.
      - rewrite list_lookup_insert_ne by congruence. eauto. }
    split.
    + intros i w Hi. destruct (Hstep i w Hi) as (w1 & H1 & Hle).
      destruct (Hmono i w1 H1) as (w' & H' & Hle'). exists w'. split; [exact H' | lia].
    + intros k c Hk. destruct k as [|k]; cbn in Hk.
      * injection Hk as <-.
        assert (H1 : widths1 !! idx = Some (Nat.max width (length cell))).
        { subst widths1. apply list_lookup_insert_eq. eapply lookup_lt_Some, Hw. }
        destruct (Hmono idx _ H1) as (w' & H' & Hle').
        exists w'. rewrite Nat.add_0_r. split; [exact H' | lia].
      * destruct (Hcells k c Hk) as (w' & H' & Hle').
        exists w'. replace (idx + S k)%nat with (S idx + k)%nat by lia. eauto.
Qed.

Lemma widen_too_long (row : list str) :
  forall (widths : list nat) (idx : nat),
    (idx <= length widths)%nat -> (length widths < idx + length row)%nat ->
    Cli.widen widths idx row = Raise IndexError.
Proof.
  induction row as [|cell rest IH]; intros widths idx Hidx Hlen;
    [cbn [length] in Hlen; lia|].
  cbn [length] in Hlen. cbn [Cli.widen].
  destruct (widths !! idx) as [width|] eqn:Hw; [|reflexivity].
  apply lookup_lt_Some in Hw. apply IH; rewrite length_insert; lia.
Qed.

(** The widths after all the rows: as many as before, none narrower, and
    every row fits them. *)
Lemma widen_rows_spec (rows : list (list str)) :
  forall (widths : list nat),
    Forall (fun row => (length row <= length widths)%nat) rows ->
    exists widths',
      Cli.widen_rows widths rows = Ok widths' /\
      length widths' = length widths /\
      (forall i w, widths !! i = Some w -> exists w', widths' !! i = Some w' /\ (w <= w')%nat) /\
      Forall (fun row => forall k cell, row !! k = Some cell ->
                exists w', widths' !! k = Some w' /\ (length cell <= w')%nat) rows.
Proof.
  induction rows as [|row rows IH]; intros widths Hrows.
  - exists widths. split; [reflexivity|]. split; [reflexivity|].
    split; [eauto | constructor].
  - apply Forall_cons_1 in Hrows as [Hrow Hrows]. cbn [Cli.widen_rows].
    destruct (widen_spec row widths 0 ltac:(lia)) as (w1 & E1 & L1 & M1 & C1).
    rewrite E1. cbn [bind].
    destruct (IH w1) as (w2 & E2 & L2 & M2 & C2).
    { eapply Forall_impl; [exact Hrows|]. intros r Hr. cbv beta in *. lia. }
    exists w2. split; [exact E2|]. split; [lia|]. split.
    + intros i w Hi. destruct (M1 i w Hi) as (wa & Ha & Hla).
      destruct (M2 i wa Ha) as (wb & Hb & Hlb). exists wb. split; [exact Hb | lia].
    + constructor; [|exact C2].
      intros k cell Hk. destruct (C1 k cell Hk) as (wa & Ha & Hla).
      cbn [Nat.add] in Ha. destruct (M2 k wa Ha) as (wb & Hb & Hlb).
      exists wb. split; [exact Hb | lia].
Qed.

Lemma widen_rows_too_long (rows : list (list str)) :
  forall (widths : list nat),
    Exists (fun row => (length widths < length row)%nat) rows ->
    Cli.widen_rows widths rows = Raise IndexError.
Proof.
  induction rows as [|row rows IH]; intros widths Hex; [inversion Hex|].
  cbn [Cli.widen_rows].
  destruct (decide (length widths < length row)%nat) as [Hlong|Hfit].
  - rewrite (widen_too_long row widths 0) by lia. reflexivity.
  - destruct (widen_spec row widths 0 ltac:(lia)) as (w1 & E1 & L1 & _).
    rewrite E1. cbn [bind]. apply IH.
    apply Exists_cons in Hex as [Hex|Hex]; [contradiction|].
    eapply Exists_impl; [exact Hex|]. intros r Hr. cbv beta in *. lia.
Qed.



Lemma padded_cells_length (widths : list nat) :
  forall (row : list str),
    length row = length widths ->
    (forall k cell, row !! k = Some cell ->
       exists w', widths !! k = Some w' /\ (length cell <= w')%nat) ->
    list_sum (map (@length Z)
                (map (fun cw => [32] ++ ljust (fst cw) (snd cw) ++ [32])
                     (List.combine row widths)))
    = list_sum (map (fun w => (w + 2)%nat) widths).
Proof.
  induction widths as [|w widths IH]; intros row Hlen Hfit.
  - destruct row; [reflexivity | discriminate].
  - destruct row as [|cell row]; [discriminate|].
    cbn [List.combine map fst snd]. rewrite !list_sum_cons.
    destruct (Hfit 0%nat cell eq_refl) as (w' & Hw & Hle). injection Hw as <-.
    rewrite !length_app, ljust_length. cbn [length].
    rewrite (IH row); [lia | cbn [length] in Hlen; lia|].
    intros k c Hk. apply (Hfit (S k) c Hk).
Qed.






Lemma visual_widen_rows (widths : list nat) (rows : list (list str)) :
  Visual.widen_rows widths rows = Cli.widen_rows widths rows.
Proof. reflexivity. Qed.

Lemma format_cells_ok (widths : list nat) (parts : list str) :
  forall (idx : nat),
    (idx + length parts <= length widths)%nat ->
    Visual.format_cells widths idx parts
    = Ok (map (fun cw => [32] ++ ljust (fst cw) (snd cw) ++ [32])
              (List.combine parts (drop idx widths))).
Proof.
  induction parts as [|part rest IH]; intros idx Hlen; [reflexivity|].
  cbn [length] in Hlen. cbn [Visual.format_cells].
  destruct (lookup_lt_is_Some_2 widths idx ltac:(lia)) as (width & Hw). rewrite Hw.
  rewrite (IH (S idx)) by lia. cbn [bind].
  rewrite (drop_S _ _ _ Hw). reflexivity.
Qed.

Lemma visual_format_row_length (widths : list nat) (left sep right : str)
    (row : list str) :
  length row = length widths ->
  (forall k cell, row !! k = Some cell ->
     exists w', widths !! k = Some w' /\ (length cell <= w')%nat) ->
  length left = 1%nat -> length sep = 1%nat -> length right = 1%nat ->
  exists line,
    Visual.format_row widths row left sep right = Ok line /\
    length line = line_width widths.
Proof.
  intros Hlen Hfit Hl Hs Hr. unfold Visual.format_row.
  rewrite (format_cells_ok widths row 0) by (rewrite Hlen; lia).
  rewrite drop_0. cbn [bind].
  eexists. split; [reflexivity|]. unfold line_width.
  rewrite !length_app, join_length_eq, (padded_cells_length widths row Hlen Hfit).
  rewrite !length_map, length_combine, Hlen, Nat.min_id, Hl, Hs, Hr. lia.
Qed.

Lemma format_rows_ok (widths : list nat) (rows : list (list str)) :
  Forall (fun row => length row = length widths) rows ->
  Forall (fun row => forall k cell, row !! k = Some cell ->
            exists w', widths !! k = Some w' /\ (length cell <= w')%nat) rows ->
  exists body,
    Visual.format_rows widths rows = Ok body /\
    length body = length rows /\
    Forall (fun line => length line = line_width widths) body.
Proof.
  induction rows as [|row rows IH]; intros Hlen Hfit.
  - exists []. repeat split; constructor.
  - apply Forall_cons_1 in Hlen as [Hl Hlen]. apply Forall_cons_1 in Hfit as [Hf Hfit].
    destruct (IH Hlen Hfit) as (body & E & Lb & Fb).
    destruct (visual_format_row_length widths (py "│") (py "│") (py "│") row Hl Hf)
      as (line & El & Ll); try reflexivity.
    exists (line :: body). cbn [Visual.format_rows]. rewrite El. cbn [bind].
    rewrite E. cbn [bind]. split; [reflexivity|].
    split; [cbn [length]; lia | constructor; assumption].
Qed.

Lemma rules_fit (widths : list nat) :
  forall k cell, map (fun width => str_mul (py "─") width) widths !! k = Some cell ->
    exists w', widths !! k = Some w' /\ (length cell <= w')%nat.
Proof.
  intros k cell Hk. rewrite list_lookup_fmap in Hk.
  destruct (widths !! k) as [w|]; [|discriminate]. injection Hk as <-.
  exists w. split; [reflexivity|]. rewrite str_mul_length.
  change (length (py "─")) with 1%nat. lia.
Qed.

Lemma format_table_lines (rows : list (list str)) (headers : list str) :
  rows <> [] -> Forall (fun row => length row = length headers) rows ->
  exists top header middle body bottom widths,
    Visual.format_table rows headers
    = Ok (join [10]
            ([Visual.highlight top Visual.DIM false;
              Visual.highlight header Visual.MAGENTA true;
              Visual.highlight middle Visual.DIM false]
             ++ body ++ [Visual.highlight bottom Visual.DIM false])) /\
    length body = length rows /\
    length widths = length headers /\
    Forall (fun line => length line = line_width widths)
           (top :: header :: middle :: bottom :: body).
Proof.
  intros Hne Hrows.
  destruct (widen_rows_spec rows (map (@length Z) headers)) as (widths & E & L & Mono & Fit).
  { eapply Forall_impl; [exact Hrows|]. intros r Hr. cbv beta in *.
    rewrite length_map. apply Nat.eq_le_incl, Hr. }
  rewrite length_map in L.
  assert (Hh : forall k cell, headers !! k = Some cell ->
                 exists w', widths !! k = Some w' /\ (length cell <= w')%nat).
  { intros k cell Hk.
    assert (Hk' : map (@length Z) headers !! k = Some (length cell))
      by (unfold str in *; rewrite list_lookup_fmap, Hk; reflexivity).
    apply (Mono k _ Hk'). }
  assert (Hrl : length (map (fun width => str_mul (py "─") width) widths) = length widths)
    by apply length_map.
  destruct (visual_format_row_length widths (py "╭") (py "┬") (py "╮") headers
              (eq_sym L) Hh) as (top & Et & Lt); try reflexivity.
  destruct (visual_format_row_length widths (py "├") (py "┼") (py "┤") _
              Hrl (rules_fit widths)) as (middle & Em & Lm); try reflexivity.
  destruct (visual_format_row_length widths (py "╰") (py "┴") (py "╯") _
              Hrl (rules_fit widths)) as (bottom & Eb & Lb); try reflexivity.
  destruct (visual_format_row_length widths (py "│") (py "│") (py "│") headers
              (eq_sym L) Hh) as (header & Eh & Lh); try reflexivity.
  destruct (format_rows_ok widths rows) as (body & Ebody & Lbody & Fbody).
  { eapply Forall_impl; [exact Hrows|]. intros r Hr. cbv beta in *. rewrite L. exact Hr. }
  { exact Fit. }
  exists top, header, middle, body, bottom, widths.
  split; [|split; [exact Lbody | split; [exact L|]]].
  - unfold Visual.format_table. destruct rows as [|row0 rows']; [congruence|].
    unfold Visual.table_lines. rewrite visual_widen_rows, E. cbn [bind].
    rewrite Et. cbn [bind]. rewrite Em. cbn [bind]. rewrite Eb. cbn [bind].
    rewrite Eh. cbn [bind]. rewrite Ebody. cbn [bind]. reflexivity.
  - repeat (constructor; [assumption|]). exact Fbody.
Qed.


(** X21.  [format_table] on rows that have a cell for every header gives, joined
    by newlines, a top line, the headers, a rule, a line for every row and a
    bottom line, which between their colour codes are all of one width.  A
    row with more cells than there are headers raises [IndexError]. *)
Theorem format_table_aligned (rows : list (list str)) (headers : list str) :
  (rows <> [] -> Forall (fun row => length row = length headers) rows ->
   exists top header middle body bottom widths,
     Visual.format_table rows headers
     = Ok (join [10]
             ([Visual.highlight top Visual.DIM false;
               Visual.highlight header Visual.MAGENTA true;
               Visual.highlight middle Visual.DIM false]
              ++ body ++ [Visual.highlight bottom Visual.DIM false])) /\
     length body = length rows /\
     length widths = length headers /\
     Forall (fun line => length line = line_width widths)
            (top :: header :: middle :: bottom :: body)) /\
  (Exists (fun row => (length headers < length row)%nat) rows ->
   Visual.format_table rows headers = Raise IndexError).
Proof.
  split; [apply format_table_lines|].
  intros Hex. unfold Visual.format_table.
  destruct rows as [|row0 rows']; [inversion Hex|].
  unfold Visual.table_lines. rewrite visual_widen_rows, widen_rows_too_long; [reflexivity|].
  eapply Exists_impl; [exact Hex|]. intros r Hr. cbv beta in *.
  rewrite length_map. exact Hr.
Qed.


(** ** Menus *)

(** One turn of the loop of [prompt_choice]. *)
Lemma prompt_loop_step (options : list str) (fuel : nat) (choice : str)
    (f : gmap path bytes) (rest : list str) (o : list string) (t : nat) (c : nat -> str) :
  Visual.prompt_loop (S fuel) options (World f (choice :: rest) o t c)
  = match Visual.chosen_value options choice (World f rest o t c) with
    | (Ok (Some value), w1) => (Ok value, w1)
    | (Ok None, w1) =>
        Visual.prompt_loop fuel options (reported "Opción inválida, inténtelo de nuevo." w1)
    | (Raise e, w1) => (Raise e, w1)
    end.
Proof.
  cbn [Visual.prompt_loop]. unfold bindM at 1. unfold input at 1. cbn [stdin].
  unfold bindM at 1.
  destruct (Visual.chosen_value options choice _) as [[[value|]|e] w1]; reflexivity.
Qed.

Lemma chosen_value_valid (options : list str) (choice : str) (value : Z) (w : world) :
  option_line options choice value ->
  Visual.chosen_value options choice w = (Ok (Some value), w).
Proof.
  intros (Hd & Hv & Hr). unfold Visual.chosen_value. rewrite Hd.
  unfold bindM, lift. rewrite Hv.
  destruct (Z.leb_spec 0 value); [|lia].
  destruct (Z.leb_spec value (Z.of_nat (length options))); [reflexivity | lia].
Qed.

Lemma chosen_value_invalid (options : list str) (choice : str) (w : world) :
  invalid_option options choice -> Visual.chosen_value options choice w = (Ok None, w).
Proof.
  intros [Hd|(value & Hv & Hout)]; unfold Visual.chosen_value.
  - rewrite Hd. reflexivity.
  - destruct (isdigit choice); [|reflexivity].
    unfold bindM, lift. rewrite Hv.
    destruct (Z.leb_spec 0 value); [|reflexivity].
    destruct (Z.leb_spec value (Z.of_nat (length options))); [lia | reflexivity].
Qed.

Lemma prompt_loop_skips (options : list str) (line : str) (value : Z) (rest : list str) :
  option_line options line value ->
  forall (skipped : list str) (fuel : nat) (w : world),
    stdin w = skipped ++ line :: rest ->
    Forall (invalid_option options) skipped ->
    (length skipped < fuel)%nat ->
    Visual.prompt_loop fuel options w
    = (Ok value,
       with_stdin rest (reported_all
                     (repeat "Opción inválida, inténtelo de nuevo." (length skipped)) w)).
Proof.
  intros Hline. induction skipped as [|bad skipped IH]; intros fuel w Hin Hbad Hfuel.
  - destruct fuel as [|fuel]; [cbn in Hfuel; lia|].
    destruct w as [f inp o t c]. cbn [stdin app] in Hin. subst inp.
    rewrite prompt_loop_step, (chosen_value_valid _ _ _ _ Hline).
    unfold with_stdin, reported_all. cbn [length repeat files stdout ticks time_at].
    rewrite app_nil_r. reflexivity.
  - destruct fuel as [|fuel]; [cbn in Hfuel; lia|].
    destruct w as [f inp o t c]. cbn [stdin app] in Hin. subst inp.
    apply Forall_cons_1 in Hbad as [Hb Hbad].
    rewrite prompt_loop_step, (chosen_value_invalid _ _ _ Hb).
    erewrite IH; [|reflexivity | exact Hbad | cbn [length] in Hfuel; lia].
    unfold with_stdin, reported_all, reported.
    cbn [length repeat files stdout ticks time_at].
    rewrite <- app_assoc. reflexivity.
Qed.

Lemma prompt_loop_exhausted (options : list str) :
  forall (lines : list str) (fuel : nat) (w : world),
    stdin w = lines ->
    Forall (invalid_option options) lines ->
    (length lines < fuel)%nat ->
    Visual.prompt_loop fuel options w
    = (Raise EOFError,
       with_stdin [] (reported_all
                   (repeat "Opción inválida, inténtelo de nuevo." (length lines)) w)).
Proof.
  induction lines as [|bad lines IH]; intros fuel w Hin Hbad Hfuel.
  - destruct fuel as [|fuel]; [cbn in Hfuel; lia|]. cbn [Visual.prompt_loop].
    destruct w as [f inp o t c]. cbn [stdin] in Hin. subst inp.
    unfold bindM at 1. unfold input at 1. cbn [stdin].
    unfold with_stdin, reported_all. cbn [length repeat files stdout ticks time_at].
    rewrite app_nil_r. reflexivity.
  - destruct fuel as [|fuel]; [cbn in Hfuel; lia|].
    destruct w as [f inp o t c]. cbn [stdin] in Hin. subst inp.
    apply Forall_cons_1 in Hbad as [Hb Hbad].
    rewrite prompt_loop_step, (chosen_value_invalid _ _ _ Hb).
    erewrite IH; [|reflexivity | exact Hbad | cbn [length] in Hfuel; lia].
    unfold with_stdin, reported_all, reported.
    cbn [length repeat files stdout ticks time_at].
    rewrite <- app_assoc. reflexivity.
Qed.

(** X22.  [prompt_choice] asks until a line typed is of digits that [int] reads
    as a number from 0 to the number of options, when every line before it
    is not of digits only or is digits that [int] reads as a number above
    the number of options: it returns the number, having reported every
    line before it as invalid once, and leaves the lines after it unread.
    It writes no file. *)
Theorem prompt_choice_first_valid
    (options : list str) (exit_label : str) (skipped : list str) (line : str)
    (value : Z) (rest : list str) (w : world) :
  stdin w = skipped ++ line :: rest ->
  Forall (invalid_option options) skipped ->
  option_line options line value ->
  Visual.prompt_choice options exit_label w
  = (Ok value,
     with_stdin rest (reported_all
                   (repeat "Opción inválida, inténtelo de nuevo." (length skipped)) w)).
Proof.
  intros Hin Hbad Hline. unfold Visual.prompt_choice.
  apply (prompt_loop_skips options line value rest Hline skipped _ w Hin Hbad).
  rewrite Hin, length_app. cbn [length]. lia.
Qed.

(** X23.  When every line left to read is not of digits only, or is digits that
    [int] reads as a number above the number of options, [prompt_choice]
    reports each of them as invalid and ends with the [EOFError] of
    [input]. *)
Theorem prompt_choice_end_of_input
    (options : list str) (exit_label : str) (w : world) :
  Forall (invalid_option options) (stdin w) ->
  Visual.prompt_choice options exit_label w
  = (Raise EOFError,
     with_stdin [] (reported_all
                 (repeat "Opción inválida, inténtelo de nuevo." (length (stdin w))) w)).
Proof.
  intros Hbad. unfold Visual.prompt_choice.
  apply (prompt_loop_exhausted options (stdin w) _ w eq_refl Hbad). lia.
Qed.


(** ** Logging in *)

Lemma cli_authenticate_true (username password : str) :
  Cli.authenticate username password = Ok true ->
  username = Cli.ADMIN_USERNAME /\ Crypto.hash_text password = Cli.ADMIN_PASSWORD_HASH.
Proof.
  unfold Cli.authenticate.
  destruct (str_eqb username Cli.ADMIN_USERNAME) eqn:Eu; [|discriminate].
  apply str_eqb_eq in Eu.
  destruct (Crypto.hash_text password) as [h|e]; [|discriminate]. cbn [bind].
  destruct Cli.ADMIN_PASSWORD_HASH as [expected|e]; [|discriminate]. cbn [bind].
  intros [= Eh]. apply str_eqb_eq in Eh. subst. split; reflexivity.
Qed.

Lemma login_attempts_granted :
  forall (attempt : nat) (w w' : world) (password : str),
    Cli.login_attempts attempt w = (Ok (Some password), w') ->
    exists failed username enter,
      stdin w = failed ++ username :: password :: enter :: stdin w' /\
      (length failed + 2 <= 2 * attempt)%nat /\
      strip username = Cli.ADMIN_USERNAME /\
      Crypto.hash_text password = Cli.ADMIN_PASSWORD_HASH /\
      files w' = files w.
Proof.
  induction attempt as [|remaining IH]; intros w w' password.
  - cbn [Cli.login_attempts]. unfold Cli.pause. run. destruct (stdin w); discriminate.
  - cbn [Cli.login_attempts]. destruct w as [f inp o t c].
    unfold bindM at 1. unfold input at 1. cbn [stdin].
    destruct inp as [|username inp]; [discriminate|].
    unfold bindM at 1. unfold getpass, input at 1. cbn [stdin files stdout ticks time_at].
    destruct inp as [|typed inp]; [discriminate|].
    unfold bindM at 1. unfold lift at 1.
    destruct (Cli.authenticate (strip username) typed) as [[|]|e] eqn:Ea; [| |discriminate].
    + apply cli_authenticate_true in Ea as [Eu Eh].
      unfold Cli.pause. run. destruct inp as [|enter inp]; [discriminate|].
      intros [= <- <-]. cbn [stdin files].
      exists [], username, enter. repeat split; try assumption. cbn [length]. lia.
    + unfold bindM at 1. unfold report at 1. cbn [files stdin stdout ticks time_at].
      unfold bindM at 1.
      destruct remaining as [|remaining'].
      * unfold ret at 1. intros H. apply IH in H. 
        destruct H as (failed & _ & _ & _ & Hlen & _). lia.
      * unfold report at 1. cbn [files stdin stdout ticks time_at]. intros H.
        apply IH in H. cbn [stdin files] in H.
        destruct H as (failed & u & enter & Hin & Hlen & Hu & Hh & Hf).
        exists (username :: typed :: failed), u, enter. cbn [app length].
        rewrite Hin. repeat split; try assumption. lia.
Qed.

(** X24.  [prompt_admin_login] returns a password only when it was typed after
    the user name [admin], white space around the name apart, and has the
    hash of the administrator's; at most two pairs of credentials were
    refused before it, and no file is written. *)
Theorem prompt_admin_login_granted (w w' : world) (password : str) :
  Cli.prompt_admin_login w = (Ok (Some password), w') ->
  exists failed username enter,
    stdin w = failed ++ username :: password :: enter :: stdin w' /\
    (length failed <= 4)%nat /\
    strip username = Cli.ADMIN_USERNAME /\
    Crypto.hash_text password = Cli.ADMIN_PASSWORD_HASH /\
    files w' = files w.
Proof.
  unfold Cli.prompt_admin_login. unfold bindM at 1. unfold report at 1.
  intros H. apply login_attempts_granted in H. cbn [stdin files] in H.
  destruct H as (failed & u & enter & Hin & Hlen & Hu & Hh & Hf).
  exists failed, u, enter. repeat split; try assumption. lia.
Qed.

(** X25.  After three pairs of credentials that [authenticate] refuses,
    [prompt_admin_login] reads no fourth: it reports the attempts left
    after the first and the second, waits for Enter and returns [None]. *)
Theorem prompt_admin_login_locked_out
    (u1 p1 u2 p2 u3 p3 enter : str) (rest : list str) (w : world) :
  stdin w = u1 :: p1 :: u2 :: p2 :: u3 :: p3 :: enter :: rest ->
  Cli.authenticate (strip u1) p1 = Ok false ->
  Cli.authenticate (strip u2) p2 = Ok false ->
  Cli.authenticate (strip u3) p3 = Ok false ->
  Cli.prompt_admin_login w
  = (Ok None,
     with_stdin rest
       (reported_all ["Se requiere iniciar sesión para continuar.
";
                      "Credenciales incorrectas."; "Intentos restantes: 2";
                      "Credenciales incorrectas."; "Intentos restantes: 1";
                      "Credenciales incorrectas.";
                      "Se agotaron los intentos. Saliendo..."] w)).
Proof.
  intros Hin H1 H2 H3. destruct w as [f inp o t c]. cbn [stdin] in Hin. subst inp.
  unfold Cli.prompt_admin_login. cbn [Cli.login_attempts].
  unfold Cli.pause, getpass, bindM, input, lift, report, ret.
  cbn [stdin files stdout ticks time_at].
  rewrite H1. cbn [stdin files stdout ticks time_at].
  rewrite H2. cbn [stdin files stdout ticks time_at].
  rewrite H3. cbn [stdin files stdout ticks time_at].
  unfold with_stdin, reported_all. cbn [stdin files stdout ticks time_at].
  rewrite <- !app_assoc. reflexivity.
Qed.

Lemma authenticate_loop_granted :
  forall (attempts : nat) (w w' : world) (password : str),
    Visual.authenticate_loop attempts w = (Ok (Visual.Granted password), w') ->
    exists failed username enter,
      stdin w = failed ++ username :: password :: enter :: stdin w' /\
      (length failed + 2 <= 2 * attempts)%nat /\
      strip username = Visual.ADMIN_USERNAME /\
      Crypto.hash_text password = Visual.ADMIN_PASSWORD_HASH /\
      files w' = files w.
Proof.
  induction attempts as [|attempts' IH]; intros w w' password.
  - cbn [Visual.authenticate_loop]. run. discriminate.
  - cbn [Visual.authenticate_loop]. destruct w as [f inp o t c].
    unfold bindM at 1. unfold input at 1. cbn [stdin].
    destruct inp as [|username inp]; [discriminate|].
    unfold bindM at 1. unfold getpass, input at 1. cbn [stdin files stdout ticks time_at].
    destruct inp as [|typed inp]; [discriminate|].
    unfold bindM at 1. unfold lift at 1.
    destruct (str_eqb (strip username) Visual.ADMIN_USERNAME) eqn:Eu.
    + apply str_eqb_eq in Eu.
      destruct (Crypto.hash_text typed) as [h|e] eqn:Eh; [|discriminate]. cbn [bind].
      destruct Visual.ADMIN_PASSWORD_HASH as [expected|e] eqn:Ee; [|discriminate]. cbn [bind].
      destruct (str_eqb h expected) eqn:Ehe.
      * apply str_eqb_eq in Ehe. subst expected.
        unfold Visual.pause. run. destruct inp as [|enter inp]; [discriminate|].
        intros [= <- <-]. cbn [stdin files].
        exists [], username, enter. repeat split; try assumption. cbn [length]. lia.
      * unfold bindM at 1. unfold report at 1. cbn [files stdin stdout ticks time_at].
        intros H. apply IH in H. cbn [stdin files] in H.
        destruct H as (failed & u & enter & Hin & Hlen & Hu & Hh & Hf).
        exists (username :: typed :: failed), u, enter. cbn [app length].
        rewrite Hin. repeat split; try assumption. lia.
    + unfold bindM at 1. unfold report at 1. cbn [files stdin stdout ticks time_at].
      intros H. apply IH in H. cbn [stdin files] in H.
      destruct H as (failed & u & enter & Hin & Hlen & Hu & Hh & Hf).
      exists (username :: typed :: failed), u, enter. cbn [app length].
      rewrite Hin. repeat split; try assumption. lia.
Qed.

Lemma refused_check (username password : str) :
  refused username password ->
  (if str_eqb (strip username) Visual.ADMIN_USERNAME then
     h <- Crypto.hash_text password ;;
     expected <- Visual.ADMIN_PASSWORD_HASH ;;
     Ok (str_eqb h expected)
   else Ok false) = Ok false.
Proof.
  intros [Hu|(h & Hh & Hne)].
  - destruct (str_eqb (strip username) Visual.ADMIN_USERNAME) eqn:E; [|reflexivity].
    apply str_eqb_eq in E. contradiction.
  - destruct (str_eqb (strip username) Visual.ADMIN_USERNAME); [|reflexivity].
    rewrite Hh. cbn [bind].
    destruct Visual.ADMIN_PASSWORD_HASH as [expected|e] eqn:Ee;
      [|vm_compute in Ee; discriminate].
    cbn [bind].
    destruct (str_eqb h expected) eqn:E; [|reflexivity].
    apply str_eqb_eq in E. subst. contradiction.
Qed.

(** X26.  [authenticate] of the dataclass tool returns a password only when it
    was typed after the user name [admin], white space around the name
    apart, and has the hash of the administrator's; at most two pairs of
    credentials were refused before it, and no file is written. *)
Theorem visual_authenticate_granted (w w' : world) (password : str) :
  Visual.authenticate w = (Ok (Visual.Granted password), w') ->
  exists failed username enter,
    stdin w = failed ++ username :: password :: enter :: stdin w' /\
    (length failed <= 4)%nat /\
    strip username = Visual.ADMIN_USERNAME /\
    Crypto.hash_text password = Visual.ADMIN_PASSWORD_HASH /\
    files w' = files w.
Proof.
  intros H. apply authenticate_loop_granted in H.
  destruct H as (failed & u & enter & Hin & Hlen & Hu & Hh & Hf).
  exists failed, u, enter. repeat split; try assumption. lia.
Qed.

Lemma authenticate_refused_thrice
    (u1 p1 u2 p2 u3 p3 : str) (rest : list str) (w : world) :
  stdin w = u1 :: p1 :: u2 :: p2 :: u3 :: p3 :: rest ->
  refused u1 p1 -> refused u2 p2 -> refused u3 p3 ->
  Visual.authenticate w
  = (Ok (Visual.Exit 1),
     with_stdin rest
       (reported_all ["Credenciales incorrectas. Intentos restantes: 2";
                      "Credenciales incorrectas. Intentos restantes: 1";
                      "Credenciales incorrectas. Intentos restantes: 0";
                      "Demasiados intentos fallidos. Cerrando..."] w)).
Proof.
  intros Hin H1 H2 H3. destruct w as [f inp o t c]. cbn [stdin] in Hin. subst inp.
  apply refused_check in H1, H2, H3.
  unfold Visual.authenticate. cbn [Visual.authenticate_loop].
  unfold getpass, bindM, input, lift, report, ret.
  cbn [stdin files stdout ticks time_at].
  rewrite H1. cbn [stdin files stdout ticks time_at].
  rewrite H2. cbn [stdin files stdout ticks time_at].
  rewrite H3. cbn [stdin files stdout ticks time_at].
  unfold with_stdin, reported_all. cbn [stdin files stdout ticks time_at].
  rewrite <- !app_assoc. reflexivity.
Qed.

Lemma authenticate_first_attempt (username password enter : str) (rest : list str)
    (w : world) :
  stdin w = username :: password :: enter :: rest ->
  strip username = Visual.ADMIN_USERNAME ->
  Crypto.hash_text password = Visual.ADMIN_PASSWORD_HASH ->
  Visual.authenticate w
  = (Ok (Visual.Granted password), with_stdin rest (reported "✔ Acceso concedido" w)).
Proof.
  intros Hin Hu Hh. destruct w as [f inp o t c]. cbn [stdin] in Hin. subst inp.
  unfold Visual.authenticate. cbn [Visual.authenticate_loop].
  unfold Visual.pause, getpass, bindM, input, lift, report, ret.
  cbn [stdin files stdout ticks time_at].
  rewrite Hu, str_eqb_refl, Hh.
  destruct Visual.ADMIN_PASSWORD_HASH as [expected|e] eqn:Ee;
    [|vm_compute in Ee; discriminate].
  cbn [bind]. rewrite str_eqb_refl. reflexivity.
Qed.

(** X27.  After three pairs of credentials it refuses, [authenticate] of the
    dataclass tool reads nothing more: it has reported after each how many
    attempts are left, down to 0, and exits with status 1. *)
Theorem visual_authenticate_locked_out
    (u1 p1 u2 p2 u3 p3 : str) (rest : list str) (w : world) :
  stdin w = u1 :: p1 :: u2 :: p2 :: u3 :: p3 :: rest ->
  refused u1 p1 -> refused u2 p2 -> refused u3 p3 ->
  Visual.authenticate w
  = (Ok (Visual.Exit 1),
     with_stdin rest
       (reported_all ["Credenciales incorrectas. Intentos restantes: 2";
                      "Credenciales incorrectas. Intentos restantes: 1";
                      "Credenciales incorrectas. Intentos restantes: 0";
                      "Demasiados intentos fallidos. Cerrando..."] w)).
Proof. apply authenticate_refused_thrice. Qed.


(** ** Sorting *)






Section Sorting.

Context {A : Type} (key : A -> str).














End Sorting.


(** ** Viewing the records *)





(** ** A session of the dataclass tool *)

(** X29.  [main] of the dataclass tool, after three pairs of credentials that
    are refused, ends with the exit status 1: it has not looked for a
    store, written no file, and read nothing after the third pair. *)
Theorem main_locked_out
    (BASE_DIR : string) (py_repr : json -> str) (iso_display : str -> result str)
    (lower : str -> str) (u1 p1 u2 p2 u3 p3 : str) (rest : list str) (w : world) :
  stdin w = u1 :: p1 :: u2 :: p2 :: u3 :: p3 :: rest ->
  refused u1 p1 -> refused u2 p2 -> refused u3 p3 ->
  Visual.main BASE_DIR py_repr iso_display lower w
  = (Ok (Some 1),
     with_stdin rest
       (reported_all ["Credenciales incorrectas. Intentos restantes: 2";
                      "Credenciales incorrectas. Intentos restantes: 1";
                      "Credenciales incorrectas. Intentos restantes: 0";
                      "Demasiados intentos fallidos. Cerrando..."] w)).
Proof.
  intros Hin H1 H2 H3. unfold Visual.main.
  erewrite bindM_ok; [|apply (authenticate_refused_thrice _ _ _ _ _ _ _ _ Hin H1 H2 H3)].
  reflexivity.
Qed.

(** X30.  A first session of the dataclass tool: the administrator logs in at
    the first attempt, there is neither a store nor a legacy file, and the
    answer to the menu is 0.  [main] creates the store with the empty list,
    takes its leave and returns; the lines typed after the 0 are not read. *)
Theorem main_first_session
    (BASE_DIR : string) (py_repr : json -> str) (iso_display : str -> result str)
    (lower : str -> str) (username password enter : str) (rest : list str) (w : world) :
  stdin w = username :: password :: enter :: py "0" :: rest ->
  strip username = Visual.ADMIN_USERNAME ->
  Crypto.hash_text password = Visual.ADMIN_PASSWORD_HASH ->
  files w !! Visual.DATA_FILE BASE_DIR = None ->
  files w !! Visual.LEGACY_FILE BASE_DIR = None ->
  Visual.main BASE_DIR py_repr iso_display lower w
  = (Ok None,
     with_stdin rest
       (reported_all ["✔ Acceso concedido";
                      "Gracias por utilizar el gestor. ¡Hasta pronto!"]
          (with_file (Visual.DATA_FILE BASE_DIR) (bytes_of_string "[]") w))).
Proof.
  intros Hin Hu Hh Hd Hl. unfold Visual.main.
  erewrite bindM_ok; [|apply (authenticate_first_attempt _ _ _ _ _ Hin Hu Hh)].
  cbv beta iota.
  set (w1 := with_stdin (py "0" :: rest) (reported "✔ Acceso concedido" w)).
  destruct (visual_fresh_store BASE_DIR py_repr password w1 Hd Hl) as [He Hload].
  erewrite bindM_ok; [|exact He].
  erewrite bindM_ok; [|exact Hload].
  erewrite bindM_ok; [reflexivity|].
  cbn [stdin with_file set_files w1 with_stdin length Visual.main_loop].
  erewrite bindM_ok.
  2: { unfold Visual.prompt_choice.
       apply (prompt_loop_skips _ (py "0") 0 rest) with (skipped := []);
         [split; [reflexivity | split; [vm_compute; reflexivity | cbn [length]; lia]]
         | reflexivity | constructor | cbn; lia]. }
  cbv beta iota. change (0 =? 0) with true. cbv iota.
  subst w1. unfold report, with_stdin, reported_all, reported, with_file, set_files.
  cbn [files stdin stdout ticks time_at length repeat].
  rewrite app_nil_r, <- app_assoc. reflexivity.
Qed.


(** ** Instances *)

(** Closes a comparison or an equation between numbers and texts of the
    samples by evaluating it. *)
Ltac evaluated := vm_compute; repeat split; first [reflexivity | discriminate].

Lemma built_record_encodable : record_encodable built_record.
Proof. repeat (constructor; [apply encodable_forallb; reflexivity|]). constructor. Qed.

Lemma built_entry_listed : listed built_entry.
Proof. do 2 eexists. split; reflexivity. Qed.

Lemma save_entries_load_entries_witness :
  Forall storable [built_entry] /\
  exists w',
    Cli.save_entries sample_data_file [built_entry] sample_world = (Ok tt, w') /\
    Cli.load_entries sample_data_file w' = (Ok [built_entry], w') /\
    stdin w' = stdin sample_world /\ stdout w' = stdout sample_world.
Proof.
  assert (H : Forall storable [built_entry])
    by (constructor; [exact built_entry_is_storable | constructor]).
  split; [exact H|].
  exact (save_entries_load_entries sample_data_file [built_entry] sample_world H).
Defined.

Lemma visual_save_entries_load_entries_witness :
  Forall record_encodable [built_record] /\
  exists w' w'',
    Visual.save_entries sample_dir [built_record] sample_world = (Ok tt, w') /\
    Visual.load_entries sample_dir sample_repr w' = (Ok (map reloaded [built_record]), w'') /\
    files w'' = files w' /\
    map reloaded (map reloaded [built_record]) = map reloaded [built_record].
Proof.
  assert (H : Forall record_encodable [built_record])
    by (constructor; [exact built_record_encodable | constructor]).
  split; [exact H|].
  exact (visual_save_entries_load_entries sample_dir sample_repr [built_record]
           sample_world H).
Defined.

Lemma add_entry_appends_witness :
  store_within_limits sample_data_file adding_world /\
  Cli.load_entries sample_data_file adding_world = (Ok [built_entry], adding_world) /\
  strip (py " banco ") <> [] /\ strip (py "luis") <> [] /\ py "clave" <> [] /\
  exists entry w',
    Cli.add_entry sample_data_file sample_secret adding_world = (Ok tt, w') /\
    Cli.load_entries sample_data_file w' = (Ok ([built_entry] ++ [entry]), w') /\
    Cli.getitem entry "site" = Ok (JStr (strip (py " banco "))) /\
    Cli.getitem entry "username" = Ok (JStr (strip (py "luis"))) /\
    Cli.decrypt_field entry sample_secret = Ok (py "clave") /\
    stdin w' = [py "2"] /\
    stdout w' = stdout adding_world ++ ["Credencial almacenada correctamente."].
Proof.
  assert (H0 : store_within_limits sample_data_file adding_world)
    by (vm_compute; reflexivity).
  assert (H1 : Cli.load_entries sample_data_file adding_world
               = (Ok [built_entry], adding_world)) by (vm_compute; reflexivity).
  assert (H2 : strip (py " banco ") <> []) by (vm_compute; discriminate).
  assert (H3 : strip (py "luis") <> []) by (vm_compute; discriminate).
  assert (H4 : py "clave" <> []) by (vm_compute; discriminate).
  split; [exact H0 | split; [exact H1 | split; [exact H2 | split; [exact H3 |
    split; [exact H4|]]]]].
  apply (add_entry_appends sample_data_file sample_secret (py " banco ") (py "luis")
           (py "clave") [] [py "2"] [built_entry] adding_world H0 H1); try assumption.
  - constructor; [exact built_entry_is_storable | constructor].
  - reflexivity.
  - repeat (constructor; [apply encodable_forallb; reflexivity|]). constructor.
  - apply sample_clock_encodable.
Defined.

Lemma add_entry_replaces_unreadable_store_witness :
  files unreadable_world !! sample_data_file = Some (bytes_of_string "[{]") /\
  within_decoder_limits (bytes_of_string "[{]") = true /\
  json_loads (bytes_of_string "[{]") = Raise JSONDecodeError /\
  exists entry w',
    Cli.add_entry sample_data_file sample_secret unreadable_world = (Ok tt, w') /\
    Cli.load_entries sample_data_file w' = (Ok [entry], w') /\
    Cli.decrypt_field entry sample_secret = Ok (py "clave") /\
    stdout w' = stdout unreadable_world ++ ["Error al leer el archivo de datos.";
                                            "Credencial almacenada correctamente."].
Proof.
  assert (H1 : files unreadable_world !! sample_data_file = Some (bytes_of_string "[{]"))
    by (vm_compute; reflexivity).
  assert (H2 : decode_text (bytes_of_string "[{]") = Ok (bytes_of_string "[{]"))
    by (vm_compute; reflexivity).
  assert (H3 : json_loads (bytes_of_string "[{]") = Raise JSONDecodeError)
    by (vm_compute; reflexivity).
  assert (H4 : within_decoder_limits (bytes_of_string "[{]") = true)
    by (vm_compute; reflexivity).
  split; [exact H1 | split; [exact H4 | split; [exact H3|]]].
  apply (add_entry_replaces_unreadable_store sample_data_file sample_secret
           (py "banco") (py "luis") (py "clave") [] [] _ _ _ unreadable_world H1 H2 H4 H3).
  - reflexivity.
  - vm_compute; discriminate.
  - vm_compute; discriminate.
  - vm_compute; discriminate.
  - repeat (constructor; [apply encodable_forallb; reflexivity|]). constructor.
  - apply sample_clock_encodable.
Defined.

Lemma delete_entry_removes_selected_witness :
  store_within_limits sample_data_file deleting_world /\
  Cli.load_entries sample_data_file deleting_world = (Ok [built_entry], deleting_world) /\
  int_of_str (py "1") = Ok 1 /\
  exists w',
    Cli.delete_entry sample_data_file deleting_world = (Ok tt, w') /\
    Cli.load_entries sample_data_file w'
    = (Ok (delete (Z.to_nat (1 - 1)) [built_entry]), w') /\
    stdin w' = [] /\
    exists removal, stdout w' = stdout deleting_world ++ [removal].
Proof.
  assert (H1 : Cli.load_entries sample_data_file deleting_world
               = (Ok [built_entry], deleting_world)) by (vm_compute; reflexivity).
  assert (H2 : int_of_str (py "1") = Ok 1) by (vm_compute; reflexivity).
  assert (H0 : store_within_limits sample_data_file deleting_world)
    by (vm_compute; reflexivity).
  split; [exact H0 | split; [exact H1 | split; [exact H2|]]].
  apply (delete_entry_removes_selected sample_data_file [built_entry] (py "1") [] [] 1
           deleting_world H0 H1).
  - constructor; [exact built_entry_is_storable | constructor].
  - constructor; [exact built_entry_listed | constructor].
  - reflexivity.
  - exact H2.
  - evaluated.
Defined.


Lemma visual_delete_entry_confirmed_witness :
  strip (py " s ") = bytes_of_string "s" /\
  exists w' w'',
    Visual.delete_entry sample_dir [built_record] confirming_world = (Ok tt, w') /\
    Visual.load_entries sample_dir sample_repr w'
    = (Ok (map reloaded (Visual.list_remove built_record [built_record])), w'') /\
    (length (Visual.list_remove built_record [built_record]) + 1
     = length [built_record])%nat /\
    (NoDup [built_record] ->
     Visual.list_remove built_record [built_record]
     = delete (Z.to_nat (1 - 1)) [built_record]) /\
    stdout w' = stdout confirming_world ++ ["Registro eliminado."].
Proof.
  assert (H1 : strip (py " s ") = bytes_of_string "s") by (vm_compute; reflexivity).
  split; [exact H1|].
  apply (visual_delete_entry_confirmed sample_dir sample_repr [built_record] (py "1")
           (py " s ") [] [] built_record 1 confirming_world).
  - reflexivity.
  - reflexivity.
  - evaluated.
  - reflexivity.
  - evaluated.
  - left. exact H1.
  - constructor; [exact built_record_encodable | constructor].
Defined.

Lemma visual_edit_entry_site_witness :
  py "   " <> [] /\ strip (py "   ") = [] /\
  exists edited w' w'',
    Visual.edit_entry sample_dir [built_record] sample_secret editing_world = (Ok tt, w') /\
    Visual.load_entries sample_dir sample_repr w'
    = (Ok (map reloaded (<[Z.to_nat (1 - 1) := edited]> [built_record])),
       w'') /\
    Visual.site edited = strip (py "   ") /\
    Visual.username edited
    = (if str_eqb [] [] then Visual.username built_record else strip []) /\
    Visual.password_hash edited = Visual.password_hash built_record /\
    Visual.password_encrypted edited = Visual.password_encrypted built_record /\
    Visual.created_at edited = Visual.created_at built_record /\
    Visual.updated_at edited = now editing_world /\
    (strip (py "   ") = [] -> Visual.site edited = []) /\
    stdout w' = stdout editing_world ++ ["Registro actualizado correctamente."].
Proof.
  assert (H1 : py "   " <> []) by (vm_compute; discriminate).
  assert (H2 : strip (py "   ") = []) by (vm_compute; reflexivity).
  split; [exact H1 | split; [exact H2|]].
  apply (visual_edit_entry_site sample_dir sample_repr [built_record] built_record
           (py "1") (py "   ") [] [] sample_secret [] 1 editing_world).
  - reflexivity.
  - reflexivity.
  - evaluated.
  - evaluated.
  - reflexivity.
  - exact H1.
  - constructor; [exact built_record_encodable | constructor].
  - apply encodable_forallb; reflexivity.
  - constructor.
  - apply sample_clock_encodable.
Defined.

Lemma ensure_storage_creates_empty_store_witness :
  files sample_world !! sample_data_file = None /\
  Cli.ensure_storage sample_data_file sample_dir "/tmp" sample_secret sample_world
  = (Ok tt, with_file sample_data_file (bytes_of_string "[]") sample_world) /\
  Cli.load_entries sample_data_file
    (with_file sample_data_file (bytes_of_string "[]") sample_world)
  = (Ok [], with_file sample_data_file (bytes_of_string "[]") sample_world) /\
  Visual.ensure_storage sample_dir sample_secret sample_world
  = (Ok tt, with_file (Visual.DATA_FILE sample_dir) (bytes_of_string "[]") sample_world) /\
  Visual.load_entries sample_dir sample_repr
    (with_file (Visual.DATA_FILE sample_dir) (bytes_of_string "[]") sample_world)
  = (Ok [], with_file (Visual.DATA_FILE sample_dir) (bytes_of_string "[]") sample_world).
Proof.
  split; [reflexivity|].
  apply (ensure_storage_creates_empty_store sample_data_file sample_dir "/tmp" sample_repr
           sample_secret sample_world sample_world).
  - reflexivity.
  - apply Forall_forall. intros candidate _. reflexivity.
  - reflexivity.
  - reflexivity.
Defined.

Lemma ensure_storage_overwrites_bak_store_witness :
  Cli.ensure_storage bak_data_file sample_dir "/tmp" sample_secret legacy_world
  = (Ok tt, snd (Cli.ensure_storage bak_data_file sample_dir "/tmp" sample_secret
                   legacy_world)) /\
  files (snd (Cli.ensure_storage bak_data_file sample_dir "/tmp" sample_secret legacy_world))
    !! bak_data_file = Some legacy_raw /\
  files (snd (Cli.ensure_storage bak_data_file sample_dir "/tmp" sample_secret legacy_world))
    !! with_suffix bak_data_file ".txt" = None.
Proof.
  assert (H : Cli.ensure_storage bak_data_file sample_dir "/tmp" sample_secret legacy_world
              = (Ok tt, snd (Cli.ensure_storage bak_data_file sample_dir "/tmp"
                               sample_secret legacy_world)))
    by (vm_compute; reflexivity).
  split; [exact H|].
  apply (ensure_storage_overwrites_bak_store bak_data_file sample_dir "/tmp" sample_secret
           legacy_raw legacy_world _).
  - reflexivity.
  - vm_compute; reflexivity.
  - vm_compute; reflexivity.
  - vm_compute; reflexivity.
  - exact H.
Defined.

Lemma encodable_lines (lines : list str) :
  forallb (forallb scalarb) lines = true -> Forall encodable lines.
Proof.
  induction lines as [|l lines IH]; cbn [forallb]; intros H; [constructor|].
  apply andb_prop in H as [Hl Hr]. constructor; [apply encodable_forallb, Hl | apply IH, Hr].
Qed.

Lemma ensure_storage_migrates_groups_of_three_witness :
  files legacy_world !! sample_data_file = None /\
  fst (Cli._find_legacy_file sample_data_file sample_dir "/tmp" legacy_world)
  = Ok (Some sample_legacy_file) /\
  files legacy_world !! sample_legacy_file = Some legacy_raw /\
  decode_text legacy_raw = Ok legacy_text /\
  length (Cli.legacy_lines legacy_text) = 6%nat /\
  exists entries w',
    Cli.ensure_storage sample_data_file sample_dir "/tmp" sample_secret legacy_world
    = (Ok tt, w') /\
    Cli.load_entries sample_data_file w' = (Ok entries, w') /\
    length entries = (length (Cli.legacy_lines legacy_text) / 3)%nat /\
    files w' !! sample_legacy_file = None.
Proof.
  assert (H1 : files legacy_world !! sample_data_file = None) by (vm_compute; reflexivity).
  assert (H2 : fst (Cli._find_legacy_file sample_data_file sample_dir "/tmp" legacy_world)
               = Ok (Some sample_legacy_file)) by (vm_compute; reflexivity).
  assert (H3 : files legacy_world !! sample_legacy_file = Some legacy_raw)
    by (vm_compute; reflexivity).
  assert (H4 : decode_text legacy_raw = Ok legacy_text) by (vm_compute; reflexivity).
  assert (H5 : length (Cli.legacy_lines legacy_text) = 6%nat) by (vm_compute; reflexivity).
  split; [exact H1 | split; [exact H2 | split; [exact H3 | split; [exact H4 |
    split; [exact H5|]]]]].
  apply (ensure_storage_migrates_groups_of_three sample_data_file sample_dir "/tmp"
           sample_secret sample_legacy_file legacy_raw legacy_text legacy_world H1 H2 H3 H4).
  - apply encodable_lines. vm_compute; reflexivity.
  - apply encodable_forallb; reflexivity.
  - apply sample_clock_encodable.
  - discriminate.
Defined.

Lemma prompt_choice_first_valid_witness :
  invalid_option [py "Sitio"; py "Usuario"] (py "x") /\
  invalid_option [py "Sitio"; py "Usuario"] (py "7") /\
  option_line [py "Sitio"; py "Usuario"] [1634] 2 /\
  Visual.prompt_choice [py "Sitio"; py "Usuario"] (py "Volver") menu_world
  = (Ok 2,
     with_stdin [py "y"]
       (reported_all (repeat "Opción inválida, inténtelo de nuevo." (length [py "x"; py "7"]))
          menu_world)).
Proof.
  assert (H1 : invalid_option [py "Sitio"; py "Usuario"] (py "x"))
    by (left; vm_compute; reflexivity).
  assert (H2 : invalid_option [py "Sitio"; py "Usuario"] (py "7")).
  { right. exists 7. split; [vm_compute; reflexivity | cbn [length]; lia]. }
  assert (H3 : option_line [py "Sitio"; py "Usuario"] [1634] 2).
  { split; [vm_compute; reflexivity|]. split; [vm_compute; reflexivity | cbn [length]; lia]. }
  split; [exact H1 | split; [exact H2 | split; [exact H3|]]].
  apply (prompt_choice_first_valid [py "Sitio"; py "Usuario"] (py "Volver")
           [py "x"; py "7"] [1634] 2 [py "y"] menu_world).
  - reflexivity.
  - constructor; [exact H1 | constructor; [exact H2 | constructor]].
  - exact H3.
Defined.

Lemma prompt_choice_end_of_input_witness :
  Forall (invalid_option [py "Sitio"; py "Usuario"]) (stdin idle_world) /\
  Visual.prompt_choice [py "Sitio"; py "Usuario"] (py "Volver") idle_world
  = (Raise EOFError,
     with_stdin []
       (reported_all
          (repeat "Opción inválida, inténtelo de nuevo." (length (stdin idle_world)))
          idle_world)).
Proof.
  assert (H : Forall (invalid_option [py "Sitio"; py "Usuario"]) (stdin idle_world)).
  { constructor; [left; vm_compute; reflexivity|].
    constructor; [|constructor].
    right. exists 9. split; [vm_compute; reflexivity | cbn [length]; lia]. }
  split; [exact H|].
  apply (prompt_choice_end_of_input [py "Sitio"; py "Usuario"] (py "Volver") idle_world).
  exact H.
Defined.

Lemma prompt_admin_login_granted_witness :
  Cli.prompt_admin_login login_world
  = (Ok (Some (py "1234")), snd (Cli.prompt_admin_login login_world)) /\
  exists failed username enter,
    stdin login_world
    = failed ++ username :: py "1234" :: enter
             :: stdin (snd (Cli.prompt_admin_login login_world)) /\
    (length failed <= 4)%nat /\
    strip username = Cli.ADMIN_USERNAME /\
    Crypto.hash_text (py "1234") = Cli.ADMIN_PASSWORD_HASH /\
    files (snd (Cli.prompt_admin_login login_world)) = files login_world.
Proof.
  assert (H : Cli.prompt_admin_login login_world
              = (Ok (Some (py "1234")), snd (Cli.prompt_admin_login login_world)))
    by (vm_compute; reflexivity).
  split; [exact H|].
  exact (prompt_admin_login_granted login_world _ (py "1234") H).
Defined.

Lemma prompt_admin_login_locked_out_witness :
  Cli.authenticate (strip (py "admin")) (py "x") = Ok false /\
  Cli.authenticate (strip (py "ana")) (py "1234") = Ok false /\
  Cli.authenticate (strip (py "admin")) (py "12345") = Ok false /\
  Cli.prompt_admin_login lockout_world
  = (Ok None,
     with_stdin [py "1"]
       (reported_all ["Se requiere iniciar sesión para continuar.
";
                      "Credenciales incorrectas."; "Intentos restantes: 2";
                      "Credenciales incorrectas."; "Intentos restantes: 1";
                      "Credenciales incorrectas.";
                      "Se agotaron los intentos. Saliendo..."] lockout_world)).
Proof.
  assert (H1 : Cli.authenticate (strip (py "admin")) (py "x") = Ok false)
    by (vm_compute; reflexivity).
  assert (H2 : Cli.authenticate (strip (py "ana")) (py "1234") = Ok false)
    by (vm_compute; reflexivity).
  assert (H3 : Cli.authenticate (strip (py "admin")) (py "12345") = Ok false)
    by (vm_compute; reflexivity).
  split; [exact H1 | split; [exact H2 | split; [exact H3|]]].
  exact (prompt_admin_login_locked_out (py "admin") (py "x") (py "ana") (py "1234")
           (py "admin") (py "12345") [] [py "1"] lockout_world eq_refl H1 H2 H3).
Defined.

Lemma visual_authenticate_granted_witness :
  Visual.authenticate login_world
  = (Ok (Visual.Granted (py "1234")), snd (Visual.authenticate login_world)) /\
  exists failed username enter,
    stdin login_world
    = failed ++ username :: py "1234" :: enter :: stdin (snd (Visual.authenticate login_world)) /\
    (length failed <= 4)%nat /\
    strip username = Visual.ADMIN_USERNAME /\
    Crypto.hash_text (py "1234") = Visual.ADMIN_PASSWORD_HASH /\
    files (snd (Visual.authenticate login_world)) = files login_world.
Proof.
  assert (H : Visual.authenticate login_world
              = (Ok (Visual.Granted (py "1234")), snd (Visual.authenticate login_world)))
    by (vm_compute; reflexivity).
  split; [exact H|].
  exact (visual_authenticate_granted login_world _ (py "1234") H).
Defined.

Lemma refused_samples :
  refused (py "admin") (py "x") /\ refused (py "ana") (py "1234") /\
  refused (py "admin") (py "12345").
Proof.
  split; [|split].
  - right. eexists. split; [vm_compute; reflexivity | vm_compute; discriminate].
  - left. vm_compute. discriminate.
  - right. eexists. split; [vm_compute; reflexivity | vm_compute; discriminate].
Qed.

Lemma visual_authenticate_locked_out_witness :
  refused (py "admin") (py "x") /\ refused (py "ana") (py "1234") /\
  refused (py "admin") (py "12345") /\
  Visual.authenticate lockout_world
  = (Ok (Visual.Exit 1),
     with_stdin [[]; py "1"]
       (reported_all ["Credenciales incorrectas. Intentos restantes: 2";
                      "Credenciales incorrectas. Intentos restantes: 1";
                      "Credenciales incorrectas. Intentos restantes: 0";
                      "Demasiados intentos fallidos. Cerrando..."] lockout_world)).
Proof.
  destruct refused_samples as (H1 & H2 & H3).
  split; [exact H1 | split; [exact H2 | split; [exact H3|]]].
  exact (visual_authenticate_locked_out (py "admin") (py "x") (py "ana") (py "1234")
           (py "admin") (py "12345") [[]; py "1"] lockout_world eq_refl H1 H2 H3).
Defined.

Lemma main_locked_out_witness :
  refused (py "admin") (py "x") /\ refused (py "ana") (py "1234") /\
  refused (py "admin") (py "12345") /\
  Visual.main sample_dir sample_repr sample_iso_display ascii_lower lockout_world
  = (Ok (Some 1),
     with_stdin [[]; py "1"]
       (reported_all ["Credenciales incorrectas. Intentos restantes: 2";
                      "Credenciales incorrectas. Intentos restantes: 1";
                      "Credenciales incorrectas. Intentos restantes: 0";
                      "Demasiados intentos fallidos. Cerrando..."] lockout_world)).
Proof.
  destruct refused_samples as (H1 & H2 & H3).
  split; [exact H1 | split; [exact H2 | split; [exact H3|]]].
  exact (main_locked_out sample_dir sample_repr sample_iso_display ascii_lower
           (py "admin") (py "x") (py "ana") (py "1234")
           (py "admin") (py "12345") [[]; py "1"] lockout_world eq_refl H1 H2 H3).
Defined.

Lemma main_first_session_witness :
  strip (py " admin") = Visual.ADMIN_USERNAME /\
  Crypto.hash_text (py "1234") = Visual.ADMIN_PASSWORD_HASH /\
  Visual.main sample_dir sample_repr sample_iso_display ascii_lower first_session_world
  = (Ok None,
     with_stdin [py "1"]
       (reported_all ["✔ Acceso concedido";
                      "Gracias por utilizar el gestor. ¡Hasta pronto!"]
          (with_file (Visual.DATA_FILE sample_dir) (bytes_of_string "[]")
             first_session_world))).
Proof.
  assert (H1 : strip (py " admin") = Visual.ADMIN_USERNAME) by (vm_compute; reflexivity).
  assert (H2 : Crypto.hash_text (py "1234") = Visual.ADMIN_PASSWORD_HASH) by reflexivity.
  split; [exact H1 | split; [exact H2|]].
  exact (main_first_session sample_dir sample_repr sample_iso_display ascii_lower
           (py " admin") (py "1234") [] [py "1"] first_session_world
           eq_refl H1 H2 eq_refl eq_refl).
Defined.


(** The table of the two sample records in the order of their sites:
    [Banco] comes before [correo], as [banco] does. *)
Example view_entries_sample :
  fst (Visual.view_entries sample_iso_display ascii_lower [built_record; second_record]
         sample_secret viewing_world)
  = rmap Some
      (Visual.format_table
         [[py "Banco"; py "luis"; py "clave"; py "2024-06-01T12:00"];
          [py "correo"; py "ana"; py "secreto"; py "2024-06-01T12:00"]]
         [py "Sitio"; py "Usuario"; py "Contraseña"; py "Actualizado"]).
Proof. vm_compute. reflexivity. Qed.
